(** * Timetable utilities of Indico ([indico/modules/events/timetable/util.py])

    A shallow embedding of the scheduling helpers of the timetable module
    and the properties established about them.  Database tables are lists
    of rows, SQLAlchemy queries are immutable values, Python dictionaries
    are finite maps, and a function that may raise returns a [result]. *)

From stdpp Require Import gmap strings list fin_maps sorting.
From Stdlib Require Import ZArith Lia Ascii.

Local Open Scope Z_scope.

(** ** Time *)

(** A timezone-aware [datetime] is the instant it denotes, counted in
    microseconds since the epoch; a [timedelta] is a number of
    microseconds; a [date] is a day number. *)
Abbreviation Instant := Z (only parsing).
Abbreviation timedelta := Z (only parsing).
Abbreviation date := Z (only parsing).

Definition MINUTE : timedelta := 60000000.
Definition HOUR : timedelta := 60 * MINUTE.
Definition DAY : timedelta := 24 * HOUR.

(** A timezone object.  The three operations are the ones the module
    reaches through [pytz] and [indico.util.date_time]:
    [dt.astimezone(tz).date()], [get_day_start(day, tzinfo=tz)] and
    [get_day_end(day, tzinfo=tz)]. *)
Record tzinfo := {
  tz_date : Instant -> date;
  tz_day_start : date -> Instant;
  tz_day_end : date -> Instant
}.

Definition get_day_start (day : date) (tz : tzinfo) : Instant := tz_day_start tz day.
Definition get_day_end (day : date) (tz : tzinfo) : Instant := tz_day_end tz day.

(** [dt.replace(hour=h, minute=m)] on a datetime that sits at local
    midnight: the wall clock moves to h:m and the tzinfo attached by
    [localize] (hence its offset) is kept, so the instant moves by
    exactly h hours and m minutes. *)
Definition replace_hour_minute (midnight : Instant) (h m : Z) : Instant :=
  midnight + h * HOUR + m * MINUTE.

(** Modelled from the spec: [get_day_start] and [get_day_end] of
    [indico.util.date_time] are not part of the sources at hand; a zone
    with a constant UTC offset has its local day run from 0:00 to 24:00
    ("day 8:00-24:00 local"). *)
Definition fixed_offset (off : timedelta) : tzinfo :=
  {| tz_date := fun t => (t + off) / DAY;
     tz_day_start := fun d => d * DAY - off;
     tz_day_end := fun d => d * DAY + DAY - off |}.

Definition utc : tzinfo := fixed_offset 0.

(** A datetime argument that still carries the zone it was built in
    (the bounds of a search window): [.date()] reads the calendar day in
    that zone, [.astimezone(utc)] is the instant itself. *)
Record datetime := { instant : Instant; dt_tzinfo : tzinfo }.

Definition datetime_date (dt : datetime) : date := tz_date (dt_tzinfo dt) (instant dt).

(** Modelled from the spec: [iterdays] of [indico.util.date_time] is not
    part of the sources at hand; called with two dates it yields "every
    local calendar day" from the first to the second, both included. *)
Definition iterdays (start_day end_day : date) : list date :=
  seqZ start_day (end_day - start_day + 1).

(** ** Data model *)

(** Modelled from the spec: the model classes ([Event], [Session],
    [SessionBlock], [Contribution], [Break], [TimetableEntry]) are
    defined outside the sources at hand.  Each record lists the
    attributes that [util.py] reads; references between rows are primary
    keys, and an entry carries its payload ([entry.object]), from which
    its type follows. *)

Inductive TimetableEntryType := SESSION_BLOCK | CONTRIBUTION | BREAK.

Module Session.
Record t := mk {
  id : Z;
  event_id : Z;
  code : string;
  friendly_id : Z;
  inherit_location : bool;
  is_deleted : bool
}.
End Session.

Module SessionBlock.
Record t := mk {
  id : Z;
  session : Session.t;
  full_title : string;
  inherit_location : bool
}.
End SessionBlock.

Module Contribution.
Record t := mk {
  id : Z;
  event_id : Z;
  title : string;
  inherit_location : bool;
  is_deleted : bool
}.
End Contribution.

Module Break.
Record t := mk {
  id : Z;
  title : string;
  inherit_location : bool
}.
End Break.

(** The payload of a timetable entry ([entry.object]). *)
Inductive EntryObject :=
| OBlock (b : SessionBlock.t)
| OContribution (c : Contribution.t)
| OBreak (b : Break.t).

Definition object_inherit_location (o : EntryObject) : bool :=
  match o with
  | OBlock b => SessionBlock.inherit_location b
  | OContribution c => Contribution.inherit_location c
  | OBreak b => Break.inherit_location b
  end.

(** Object identity: same class and same primary key. *)
Definition same_object (o1 o2 : EntryObject) : bool :=
  match o1, o2 with
  | OBlock a, OBlock b => SessionBlock.id a =? SessionBlock.id b
  | OContribution a, OContribution b => Contribution.id a =? Contribution.id b
  | OBreak a, OBreak b => Break.id a =? Break.id b
  | _, _ => false
  end.

Module TimetableEntry.
(** Modelled from the spec: the class [TimetableEntry] lives in
    [timetable/models/entries.py], which is not part of the sources at
    hand.  An entry has a start and its own duration; [end_dt] follows
    from them, and [move] sets a new start and keeps the duration
    ("each matched sibling's start (and therefore end, preserving its
    own duration) is advanced"). *)
Record t := mk {
  id : Z;
  event_id : Z;
  parent_id : option Z;
  start_dt : Instant;
  duration : timedelta;
  object : EntryObject
}.

Definition end_dt (e : t) : Instant := start_dt e + duration e.

Definition type (e : t) : TimetableEntryType :=
  match object e with
  | OBlock _ => SESSION_BLOCK
  | OContribution _ => CONTRIBUTION
  | OBreak _ => BREAK
  end.

Definition move (e : t) (new_start : Instant) : t :=
  {| id := id e; event_id := event_id e; parent_id := parent_id e;
     start_dt := new_start; duration := duration e; object := object e |}.
End TimetableEntry.

Module Event.
Record t := mk {
  id : Z;
  start_dt : Instant;
  end_dt : Instant;
  display_tzinfo : tzinfo;
  tzinfo : tzinfo;
  category_chain : list Z;
  is_deleted : bool
}.

Definition start_dt_local_date (e : t) : date := tz_date (tzinfo e) (start_dt e).
Definition end_dt_local_date (e : t) : date := tz_date (tzinfo e) (end_dt e).
End Event.

#[global] Instance TimetableEntryType_eq_dec : EqDecision TimetableEntryType.
Proof. solve_decision. Defined.
#[global] Instance Session_eq_dec : EqDecision Session.t.
Proof. solve_decision. Defined.
#[global] Instance SessionBlock_eq_dec : EqDecision SessionBlock.t.
Proof. solve_decision. Defined.
#[global] Instance Contribution_eq_dec : EqDecision Contribution.t.
Proof. solve_decision. Defined.
#[global] Instance Break_eq_dec : EqDecision Break.t.
Proof. solve_decision. Defined.
#[global] Instance EntryObject_eq_dec : EqDecision EntryObject.
Proof. solve_decision. Defined.
#[global] Instance TimetableEntry_eq_dec : EqDecision TimetableEntry.t.
Proof. solve_decision. Defined.

(** Any object a caller may pass where the code dispatches with
    [isinstance]: an event or the payload of an entry. *)
Inductive Object :=
| OfEvent (e : Event.t)
| OfEntry (o : EntryObject).

(** The tables the module reads and writes. *)
Record Store := {
  events : list Event.t;
  entries : list TimetableEntry.t
}.

Definition TypeEq (a b : TimetableEntryType) : bool :=
  match a, b with
  | SESSION_BLOCK, SESSION_BLOCK | CONTRIBUTION, CONTRIBUTION | BREAK, BREAK => true
  | _, _ => false
  end.

Definition option_Z_eqb (a b : option Z) : bool :=
  match a, b with
  | None, None => true
  | Some x, Some y => x =? y
  | _, _ => false
  end.

(** [event.timetable_entries]: the entries of the event. *)
Definition timetable_entries (st : Store) (ev : Event.t) : list TimetableEntry.t :=
  filter (fun t => TimetableEntry.event_id t = Event.id ev) (entries st).

(** [entry.children]: the entries whose parent is [entry]. *)
Definition children (st : Store) (entry : TimetableEntry.t) : list TimetableEntry.t :=
  filter (fun t => TimetableEntry.parent_id t = Some (TimetableEntry.id entry)) (entries st).

(** [obj.timetable_entry]: the entry that schedules [obj], if any. *)
Definition timetable_entry (st : Store) (o : EntryObject) : option TimetableEntry.t :=
  List.find (fun t => same_object (TimetableEntry.object t) o) (entries st).

(** ** Exceptions *)

Inductive exn :=
| ValueError (msg : string)
| TypeError (msg : string)
| AttributeError (msg : string)
| IndexError (msg : string).

Inductive result (A : Type) :=
| Ok (a : A)
| Raise (e : exn).
Arguments Ok {A} a.
Arguments Raise {A} e.

#[global] Instance result_bind : MBind result := fun A B k r =>
  match r with
  | Ok a => k a
  | Raise e => Raise e
  end.

(** ** Interval/fit resolver *)

(** [max(entries, key=attrgetter('end_dt'))] on a non-empty list: the
    first entry among those with the greatest key. *)
Definition max_by_end_dt (first : TimetableEntry.t) (rest : list TimetableEntry.t)
  : TimetableEntry.t :=
  fold_left (fun best e =>
               if TimetableEntry.end_dt best <? TimetableEntry.end_dt e then e else best)
            rest first.

Definition latest_end_dt (entries : list TimetableEntry.t) : option Instant :=
  match entries with
  | [] => None
  | e :: es => Some (TimetableEntry.end_dt (max_by_end_dt e es))
  end.

Definition day_in_event_bounds (ev : Event.t) (day : date) : bool :=
  (Event.start_dt_local_date ev <=? day) && (day <=? Event.end_dt_local_date ev).

(** The rows selected by the query of [find_latest_entry_end_dt] for an
    event: top-level entries that start on [day] in the event's zone. *)
Definition top_level_entries_on (st : Store) (ev : Event.t) (day : date)
  : list TimetableEntry.t :=
  filter (fun t => TimetableEntry.parent_id t = None
                   ∧ tz_date (Event.tzinfo ev) (TimetableEntry.start_dt t) = day)
         (timetable_entries st ev).

Definition find_latest_entry_end_dt (st : Store) (obj : Object) (day : option date)
  : result (option Instant) :=
  match obj with
  | OfEvent ev =>
      match day with
      | None => Raise (ValueError "No day specified for event.")
      | Some d =>
          if negb (day_in_event_bounds ev d)
          then Raise (ValueError "Day out of event bounds.")
          else Ok (latest_end_dt (top_level_entries_on st ev d))
      end
  | OfEntry (OBlock b) =>
      match day with
      | Some _ => Raise (ValueError "Day specified for session block.")
      | None =>
          match timetable_entry st (OBlock b) with
          | None => Raise (AttributeError "timetable_entry is None")
          | Some te => Ok (latest_end_dt (children st te))
          end
      end
  | OfEntry _ => Raise (TypeError "Invalid object type")
  end.

(** The bounds [(earliest_dt, latest_dt)] computed at the beginning of
    [find_next_start_dt] (lines 112-126). *)
Definition next_start_bounds (st : Store) (obj : Object) (day : option date)
  : result (Instant * Instant) :=
  match obj with
  | OfEvent ev =>
      match day with
      | None => Raise (ValueError "No day specified for event.")
      | Some d =>
          if negb (day_in_event_bounds ev d)
          then Raise (ValueError "Day out of event bounds.")
          else
            let earliest_dt :=
              if Event.start_dt_local_date ev =? d then Event.start_dt ev
              else replace_hour_minute (get_day_start d (Event.tzinfo ev)) 8 0 in
            let latest_dt :=
              if tz_date utc (Event.start_dt ev) =? d then Event.end_dt ev
              else get_day_end d (Event.tzinfo ev) in
            Ok (earliest_dt, latest_dt)
      end
  | OfEntry (OBlock b) =>
      match day with
      | Some _ => Raise (ValueError "Day specified for session block.")
      | None =>
          match timetable_entry st (OBlock b) with
          | None => Raise (AttributeError "timetable_entry is None")
          | Some te => Ok (TimetableEntry.start_dt te, TimetableEntry.end_dt te)
          end
      end
  | OfEntry _ => Raise (TypeError "Invalid object type")
  end.

Definition find_next_start_dt (st : Store) (duration : timedelta) (obj : Object)
    (day : option date) (force : bool) : result (option Instant) :=
  '(earliest_dt, latest_dt) ← next_start_bounds st obj day;
  let max_duration := latest_dt - earliest_dt in
  if max_duration <? duration then
    Ok (if force then Some earliest_dt else None)
  else
    latest ← find_latest_entry_end_dt st obj day;
    let start_dt := default earliest_dt latest in
    let end_dt := start_dt + duration in
    let start_dt := if latest_dt <? end_dt then latest_dt - duration else start_dt in
    Ok (Some start_dt).

(** ** Cascade shifter *)

(** An SQLAlchemy query over timetable entries.  A query is a value:
    [filter] builds and returns a new query and leaves the receiver as
    it was; [all] runs the query. *)
Module Query.
Definition t := list TimetableEntry.t.

Definition filter (q : t) (criterion : TimetableEntry.t -> bool) : t :=
  List.filter criterion q.

Definition all (q : t) : list TimetableEntry.t := q.
End Query.

(** Modelled from the spec: [TimetableEntry.siblings_query] is defined
    with the class, outside the sources at hand; the siblings of an
    entry are the other entries of the same event with the same parent
    ("all sibling entries (same parent/container)"). *)
Definition siblings_query (st : Store) (entry : TimetableEntry.t) : Query.t :=
  List.filter
    (fun t => negb (TimetableEntry.id t =? TimetableEntry.id entry)
              && (TimetableEntry.event_id t =? TimetableEntry.event_id entry)
              && option_Z_eqb (TimetableEntry.parent_id t) (TimetableEntry.parent_id entry))
    (entries st).

(** [TimetableEntry.session_block.has(session_id=sid)] *)
Definition session_block_has_session_id (sid : Z) (t : TimetableEntry.t) : bool :=
  match TimetableEntry.object t with
  | OBlock b => Session.id (SessionBlock.session b) =? sid
  | _ => false
  end.

(** Writing an attribute of a loaded row: the row with that primary key
    is replaced in the table. *)
Definition update_entry (st : Store) (row : TimetableEntry.t) : Store :=
  {| events := events st;
     entries := (fun r => if TimetableEntry.id r =? TimetableEntry.id row then row else r)
                  <$> entries st |}.

(** What a Python function hands back: a list, or [None] when the body
    ends without a [return]. *)
Inductive Returned :=
| ReturnList (l : list TimetableEntry.t)
| ReturnNone.

Definition shift_following_entries (st : Store) (entry : TimetableEntry.t)
    (shift : timedelta) (session_ : option Session.t) : Store * Returned :=
  let query :=
    Query.filter (siblings_query st entry)
                 (fun t => TimetableEntry.end_dt entry <=? TimetableEntry.start_dt t) in
  (* [query.filter(...)] is evaluated as a statement: its value, the
     narrowed query, is bound to nothing and [query] itself is unchanged *)
  let _ :=
    match session_, TimetableEntry.parent_id entry with
    | Some s, None =>
        Query.filter query
          (fun t => TypeEq (TimetableEntry.type t) SESSION_BLOCK
                    && session_block_has_session_id (Session.id s) t)
    | _, _ => query
    end in
  let entries := Query.all query in
  match entries with
  | [] => (st, ReturnList [])
  | _ :: _ =>
      (fold_left (fun st sibling =>
                    update_entry st
                      (TimetableEntry.move sibling (TimetableEntry.start_dt sibling + shift)))
                 entries st,
       ReturnNone)
  end.

(** ** Notifications about time changes *)

(** [template.format(arg)] for a template with one [{}] field. *)
Fixpoint str_format (template arg : string) : string :=
  match template with
  | EmptyString => EmptyString
  | String c rest =>
      match rest with
      | String c' rest' =>
          if (Ascii.eqb c "{"%char && Ascii.eqb c' "}"%char)%bool then arg +:+ rest'
          else String c (str_format rest arg)
      | EmptyString => String c EmptyString
      end
  end.

(** Truth value of a string. *)
Definition str_bool (s : string) : bool :=
  match s with
  | EmptyString => false
  | String _ _ => true
  end.

(** A change record: field name to (old, new). *)
Abbreviation Change := (gmap string (Instant * Instant)).

Section Notifications.
(** The translation function [_] and [format_time] are external. *)
Variable gettext : string -> string.
Variable format_time : Instant -> tzinfo -> string.

(** [entry.object == obj] *)
Definition is_entry_object (entry : TimetableEntry.t) (obj : Object) : bool :=
  match obj with
  | OfEvent _ => false
  | OfEntry o => same_object (TimetableEntry.object entry) o
  end.

(** [not isinstance(obj, Event) and obj.timetable_entry in entry.children] *)
Definition is_child_object (st : Store) (entry : TimetableEntry.t) (obj : Object) : bool :=
  match obj with
  | OfEvent _ => false
  | OfEntry o =>
      match timetable_entry st o with
      | Some te =>
          existsb (fun c => TimetableEntry.id c =? TimetableEntry.id te) (children st entry)
      | None => false
      end
  end.

(** The two [continue] tests at the head of the loop body. *)
Definition skipped (st : Store) (entry : option TimetableEntry.t) (obj : Object) : bool :=
  match entry with
  | None => false
  | Some en => is_entry_object en obj || is_child_object st en obj
  end.

(** The [isinstance] dispatch of the loop body: the message template
    and the new time, [None] when [msg] stays [None]. *)
Definition change_message (obj : Object) (change : Change)
  : result (option (string * Instant)) :=
  match obj with
  | OfEvent _ =>
      match change !! "start_dt" with
      | Some (_, new_time) => Ok (Some (gettext "Event start time changed to {}", new_time))
      | None =>
          match change !! "end_dt" with
          | Some (_, new_time) => Ok (Some (gettext "Event end time changed to {}", new_time))
          | None => Raise (ValueError "Invalid change in event.")
          end
      end
  | OfEntry (OBlock _) =>
      match change !! "start_dt" with
      | Some (_, new_time) =>
          Ok (Some (gettext "Session block start time changed to {}", new_time))
      | None =>
          match change !! "end_dt" with
          | Some (_, new_time) =>
              Ok (Some (gettext "Session block end time changed to {}", new_time))
          | None => Raise (ValueError "Invalid change in session block.")
          end
      end
  | OfEntry _ => Ok None
  end.

Fixpoint notifications_loop (st : Store) (tz : tzinfo) (entry : option TimetableEntry.t)
    (changes : list (Object * Change)) (notifications : list string)
  : result (list string) :=
  match changes with
  | [] => Ok notifications
  | (obj, change) :: rest =>
      if skipped st entry obj then notifications_loop st tz entry rest notifications
      else
        msg ← change_message obj change;
        match msg with
        | Some (template, new_time) =>
            if str_bool template
            then notifications_loop st tz entry rest
                   (notifications ++ [str_format template (format_time new_time tz)])
            else notifications_loop st tz entry rest notifications
        | None => notifications_loop st tz entry rest notifications
        end
  end.

(** [changes] is a dictionary iterated in insertion order. *)
Definition get_time_changes_notifications (st : Store) (changes : list (Object * Change))
    (tz : tzinfo) (entry : option TimetableEntry.t) : result (list string) :=
  notifications_loop st tz entry changes [].
End Notifications.

(** ** Nested timetable builder *)

(** [list.sort] is a stable sort.  Insertion from the right is one: an
    element is put in front of the first element that need not stay
    before it, so elements that compare equal keep their order.
    [before y x] says that [y] has to come strictly before [x]. *)
Section StableSort.
Context {A : Type} (before : A -> A -> bool).

Fixpoint sort_insert (x : A) (l : list A) : list A :=
  match l with
  | [] => [x]
  | y :: l' => if before y x then y :: sort_insert x l' else x :: y :: l'
  end.

Definition stable_sort (l : list A) : list A := foldr sort_insert [] l.
End StableSort.

(** [l.sort(key=key, reverse=reverse)], the keys being compared with
    [lt]; [reverse=True] turns every comparison around and keeps the
    sort stable. *)
Definition list_sort {A K : Type} (lt : K -> K -> bool) (key : A -> K) (reverse : bool)
    (l : list A) : list A :=
  stable_sort (fun y x => if reverse then lt (key x) (key y) else lt (key y) (key x)) l.

(** [a < b] on tuples [(datetime, str, str)]: the first position where
    the two differ decides. *)
Definition sort_key_lt (a b : Instant * string * string) : bool :=
  let '(s1, c1, t1) := a in
  let '(s2, c2, t2) := b in
  if negb (s1 =? s2) then s1 <? s2
  else if negb (String.eqb c1 c2) then String.ltb c1 c2
  else String.ltb t1 t2.

Definition _entry_title_key (entry : TimetableEntry.t) : string * string :=
  match TimetableEntry.object entry with
  | OBlock obj => (Session.code (SessionBlock.session obj), SessionBlock.full_title obj)
  | OContribution obj => (EmptyString, Contribution.title obj)
  | OBreak obj => (EmptyString, Break.title obj)
  end.

(** The key of the second sort, [(entry.start_dt, *_entry_title_key(entry))]. *)
Definition nested_sort_key (entry : TimetableEntry.t) : Instant * string * string :=
  (TimetableEntry.start_dt entry, (_entry_title_key entry).1, (_entry_title_key entry).2).

(** The two [sort] calls that end [get_nested_timetable]. *)
Definition sort_nested_entries (entries : list TimetableEntry.t) : list TimetableEntry.t :=
  let entries := list_sort Z.ltb TimetableEntry.end_dt true entries in
  list_sort sort_key_lt nested_sort_key false entries.

Section NestedTimetable.
(** [date.isoformat], [str] on integers and the access check for the
    current user are external. *)
Variable isoformat : date -> string.
Variable str : Z -> string.
Variable can_access : EntryObject -> bool.

(** The body of the selection loop: [false] where it reaches a
    [continue] or appends nothing. *)
Definition nested_timetable_keeps (event : Event.t) (show_date show_session
    detail_level : string) (entry : TimetableEntry.t) : bool :=
  let event_tz := Event.display_tzinfo event in
  if negb (String.eqb show_date "all")
     && negb (String.eqb (isoformat (tz_date event_tz (TimetableEntry.start_dt entry)))
                         show_date)
  then false
  else
    match TimetableEntry.object entry with
    | OContribution _ =>
        if negb (String.eqb detail_level "contribution" || String.eqb detail_level "all")
           || negb (String.eqb show_session "all")
        then false
        else can_access (TimetableEntry.object entry)
    | OBlock b =>
        if negb (String.eqb show_session "all")
           && negb (String.eqb (str (Session.friendly_id (SessionBlock.session b)))
                               show_session)
        then false
        else can_access (TimetableEntry.object entry)
    | OBreak _ => true
    end.

Definition get_nested_timetable (st : Store) (event : Event.t) (include_notes : bool)
    (show_date show_session detail_level : string) : list TimetableEntry.t :=
  let top_level :=
    filter (fun t => TimetableEntry.parent_id t = None) (timetable_entries st event) in
  let entries :=
    List.filter (nested_timetable_keeps event show_date show_session detail_level)
                top_level in
  sort_nested_entries entries.
End NestedTimetable.

(** ** Location conditions of the export *)

Definition get_nested_timetable_location_conditions (st : Store)
    (entries : list TimetableEntry.t) : bool * gmap Z bool :=
  let show_siblings_location :=
    existsb
      (fun entry =>
         negb (object_inherit_location (TimetableEntry.object entry))
         || (TypeEq (TimetableEntry.type entry) SESSION_BLOCK
             && object_inherit_location (TimetableEntry.object entry)
             && negb (match TimetableEntry.object entry with
                      | OBlock b => Session.inherit_location (SessionBlock.session b)
                      | _ => true
                      end)))
      entries in
  let show_children_location :=
    foldl (fun (d : gmap Z bool) entry =>
             <[TimetableEntry.id entry :=
                 negb (forallb (fun child =>
                                  object_inherit_location (TimetableEntry.object child))
                               (children st entry))]> d)
          ∅ entries in
  (show_siblings_location, show_children_location).

(** ** Category timetable aggregator *)

(** [d[k].append(v)] on a [defaultdict(list)]. *)
Definition append_at `{Countable K} {V : Type} (k : K) (v : V) (d : gmap K (list V))
  : gmap K (list V) :=
  <[k := default [] (d !! k) ++ [v]]> d.

(** A loop whose body may raise. *)
Fixpoint for_each {A S : Type} (body : S -> A -> result S) (l : list A) (s : S) : result S :=
  match l with
  | [] => Ok s
  | x :: l' => s' ← body s x; for_each body l' s'
  end.

(** [items]: per event id, either the timetable starts found in the
    window, by local day, or [None]. *)
Abbreviation Items := (gmap Z (option (gmap date (list Instant)))).

(** The detail rows of one event: [result[event_id][key]] holds date
    buckets of (entry, object) pairs when grouped and a plain list of
    objects otherwise. *)
Abbreviation GroupedDetails :=
  (gmap Z (gmap string (gmap date (list (TimetableEntry.t * EntryObject))))).
Abbreviation FlatDetails := (gmap Z (gmap string (list EntryObject))).

(** The returned mapping: the entries under ['events'] and
    ['ongoing_events'], and the entries keyed by an event id. *)
Inductive CategoryTimetable :=
| Grouped (events : gmap date (list (Instant * Event.t))) (ongoing_events : list Event.t)
          (details : GroupedDetails)
| Ungrouped (events : list Event.t) (ongoing_events : list Event.t)
            (details : FlatDetails).

(** The three accumulators of the loop over the loaded events. *)
Record EventLists := {
  scheduled_events : gmap date (list (Instant * Event.t));
  ongoing_events_acc : list Event.t;
  events_acc : list Event.t
}.

(** [result[event_id][key][start_date].append(row)] *)
Definition add_grouped (event_id : Z) (key : string) (start_date : date)
    (row : TimetableEntry.t * EntryObject) (result : GroupedDetails) : GroupedDetails :=
  let per_event := default ∅ (result !! event_id) in
  <[event_id := <[key := append_at start_date row (default ∅ (per_event !! key))]> per_event]>
    result.

(** [result[event_id][key].append(obj)] *)
Definition add_flat (event_id : Z) (key : string) (obj : EntryObject)
    (result : FlatDetails) : FlatDetails :=
  <[event_id := append_at key obj (default ∅ (result !! event_id))]> result.

(** Modelled from the spec: [Event.category_chain_overlaps] and
    [Event.happens_between] belong to the [Event] class, outside the
    sources at hand: "events under the category set whose chain
    overlaps" and "the event's own span overlaps [start,end]". *)
Definition category_chain_overlaps (categ_ids : list Z) (ev : Event.t) : bool :=
  existsb (fun c => existsb (Z.eqb c) categ_ids) (Event.category_chain ev).

Definition happens_between (ev : Event.t) (from_dt to_dt : Instant) : bool :=
  (Event.start_dt ev <=? to_dt) && (from_dt <=? Event.end_dt ev).

Definition dates_overlap (day_start day_end : Instant) (t : TimetableEntry.t) : bool :=
  (day_start <=? TimetableEntry.start_dt t) && (TimetableEntry.start_dt t <=? day_end).

(** The entries joined to an event by [_query_events]. *)
Definition overlapping_entries (st : Store) (day_start day_end : Instant) (ev : Event.t)
  : list TimetableEntry.t :=
  List.filter (dates_overlap day_start day_end) (timetable_entries st ev).

(** [_query_events]: the events its WHERE clause lets through.  The
    rows of the query are produced by [event_query_rows] when it is
    iterated, so that a further [filter] can be put on it first. *)
Definition _query_events (st : Store) (categ_ids : list Z) (day_start day_end : Instant)
  : list Event.t :=
  List.filter
    (fun ev => category_chain_overlaps categ_ids ev
               && negb (Event.is_deleted ev)
               && (existsb (dates_overlap day_start day_end) (timetable_entries st ev)
                   || happens_between ev day_start day_end))
    (events st).

(** Iterating the query: per selected event, in the order of the ids,
    one row [(id, start)] for each distinct start of an overlapping
    entry, in ascending order, or the single row [(id, NULL)] of the
    outer join when there is none. *)
Definition event_query_rows (st : Store) (day_start day_end : Instant) (q : list Event.t)
  : list (Z * option Instant) :=
  flat_map
    (fun ev =>
       let starts :=
         stable_sort Z.ltb
           (remove_dups (TimetableEntry.start_dt <$> overlapping_entries st day_start day_end ev)) in
       match starts with
       | [] => [(Event.id ev, None)]
       | _ :: _ => (fun s => (Event.id ev, Some s)) <$> starts
       end)
    (stable_sort (fun a b => Event.id a <? Event.id b) q).

(** [_query_blocks] and the two queries on contributions and breaks:
    inner joins with the timetable entries. *)
Definition _query_blocks (st : Store) (event_ids : gset Z) (day_start day_end : Instant)
  : list (TimetableEntry.t * SessionBlock.t) :=
  omap (fun t =>
          match TimetableEntry.object t with
          | OBlock b =>
              if negb (Session.is_deleted (SessionBlock.session b))
                 && bool_decide (Session.event_id (SessionBlock.session b) ∈ event_ids)
                 && dates_overlap day_start day_end t
              then Some (t, b) else None
          | _ => None
          end)
       (entries st).

Definition query_contributions (st : Store) (event_ids : gset Z) (day_start day_end : Instant)
  : list (TimetableEntry.t * Contribution.t) :=
  omap (fun t =>
          match TimetableEntry.object t with
          | OContribution c =>
              if bool_decide (Contribution.event_id c ∈ event_ids)
                 && dates_overlap day_start day_end t
                 && negb (Contribution.is_deleted c)
              then Some (t, c) else None
          | _ => None
          end)
       (entries st).

Definition query_breaks (st : Store) (event_ids : gset Z) (day_start day_end : Instant)
  : list (TimetableEntry.t * Break.t) :=
  omap (fun t =>
          match TimetableEntry.object t with
          | OBreak b =>
              if bool_decide (TimetableEntry.event_id t ∈ event_ids)
                 && dates_overlap day_start day_end t
              then Some (t, b) else None
          | _ => None
          end)
       (entries st).

(** The detail loops of the grouped mode: blocks, then contributions,
    then breaks, each row filed under its event, its kind and its local
    start date. *)
Definition group_details (tz : tzinfo)
    (blocks : list (TimetableEntry.t * SessionBlock.t))
    (contribs : list (TimetableEntry.t * Contribution.t))
    (breaks : list (TimetableEntry.t * Break.t)) : GroupedDetails :=
  let result : GroupedDetails := ∅ in
  let result :=
    foldl (fun result '(entry, b) =>
             add_grouped (Session.event_id (SessionBlock.session b)) "blocks"
                         (tz_date tz (TimetableEntry.start_dt entry))
                         (entry, OBlock b) result)
          result blocks in
  let result :=
    foldl (fun result '(entry, c) =>
             add_grouped (Contribution.event_id c) "contribs"
                         (tz_date tz (TimetableEntry.start_dt entry))
                         (entry, OContribution c) result)
          result contribs in
  foldl (fun result '(entry, b) =>
           add_grouped (TimetableEntry.event_id entry) "breaks"
                       (tz_date tz (TimetableEntry.start_dt entry))
                       (entry, OBreak b) result)
        result breaks.

(** The detail loops of the other mode: the objects alone, in plain
    lists. *)
Definition list_details
    (blocks : list (TimetableEntry.t * SessionBlock.t))
    (contribs : list (TimetableEntry.t * Contribution.t))
    (breaks : list (TimetableEntry.t * Break.t)) : FlatDetails :=
  let result : FlatDetails := ∅ in
  let result :=
    foldl (fun result '(entry, b) =>
             add_flat (Session.event_id (SessionBlock.session b)) "blocks" (OBlock b) result)
          result blocks in
  let result :=
    foldl (fun result '(entry, c) =>
             add_flat (Contribution.event_id c) "contributions" (OContribution c) result)
          result contribs in
  foldl (fun result '(entry, b) =>
           add_flat (TimetableEntry.event_id entry) "breaks" (OBreak b) result)
        result breaks.

Section CategoryTimetable.
(** [Event.is_visible_in(category_id)] is external. *)
Variable is_visible_in : Z -> Event.t -> bool.

(** The first loop: one step per row of the events query. *)
Definition collect_item (tz : tzinfo) (items : Items) (row : Z * option Instant)
  : result Items :=
  let '(eid, tt_start_dt) := row in
  match tt_start_dt with
  | Some start =>
      match items !! eid with
      | Some None => Raise (TypeError "'NoneType' object is not subscriptable")
      | Some (Some by_day) => Ok (<[eid := Some (append_at (tz_date tz start) start by_day)]> items)
      | None => Ok (<[eid := Some (append_at (tz_date tz start) start ∅)]> items)
      end
  | None => Ok (<[eid := None]> items)
  end.

(** The second loop: one step per loaded event. *)
Definition place_event (tz : tzinfo) (start_dt end_dt : datetime) (grouped : bool)
    (includible : Event.t -> bool) (items : Items) (acc : EventLists) (e : Event.t)
  : result EventLists :=
  if negb (includible e) then Ok acc
  else if grouped then
    let local_start_dt := tz_date tz (Event.start_dt e) in
    let local_end_dt := tz_date tz (Event.end_dt e) in
    match items !! Event.id e with
    | Some None =>
        Ok (foldl
              (fun acc day =>
                 if day =? local_start_dt
                 then {| scheduled_events :=
                           append_at day (Event.start_dt e, e) (scheduled_events acc);
                         ongoing_events_acc := ongoing_events_acc acc;
                         events_acc := events_acc acc |}
                 else {| scheduled_events := scheduled_events acc;
                         ongoing_events_acc := ongoing_events_acc acc ++ [e];
                         events_acc := events_acc acc |})
              acc
              (iterdays (Z.max (datetime_date start_dt) local_start_dt)
                        (Z.min (datetime_date end_dt) local_end_dt)))
    | Some (Some by_day) =>
        for_each
          (fun acc '(start_d, start_dts) =>
             match start_dts with
             | [] => Raise (IndexError "list index out of range")
             | first :: _ =>
                 Ok {| scheduled_events :=
                         append_at start_d (first, e) (scheduled_events acc);
                       ongoing_events_acc := ongoing_events_acc acc;
                       events_acc := events_acc acc |}
             end)
          (map_to_list by_day) acc
    | None => Ok acc
    end
  else Ok {| scheduled_events := scheduled_events acc;
             ongoing_events_acc := ongoing_events_acc acc;
             events_acc := events_acc acc ++ [e] |}.

Definition get_category_timetable (st : Store) (categ_ids : list Z)
    (start_dt end_dt : datetime) (detail_level : string) (tz : tzinfo)
    (from_categ : option Z) (grouped : bool) (includible : Event.t -> bool)
  : result CategoryTimetable :=
  let day_start := instant start_dt in
  let day_end := instant end_dt in
  let events_query := _query_events st categ_ids day_start day_end in
  let events_query :=
    match from_categ with
    | Some categ_id => List.filter (is_visible_in categ_id) events_query
    | None => events_query
    end in
  items ← for_each (collect_item tz) (event_query_rows st day_start day_end events_query) ∅;
  let event_ids : gset Z := dom items in
  let query := List.filter (fun e => bool_decide (Event.id e ∈ event_ids)) (events st) in
  lists ← for_each (place_event tz start_dt end_dt grouped includible items) query
             {| scheduled_events := ∅; ongoing_events_acc := []; events_acc := [] |};
  let blocks :=
    if negb (String.eqb detail_level "event")
    then _query_blocks st event_ids day_start day_end else [] in
  let contribs :=
    if String.eqb detail_level "contribution"
    then query_contributions st event_ids day_start day_end else [] in
  let breaks :=
    if String.eqb detail_level "contribution"
    then query_breaks st event_ids day_start day_end else [] in
  if grouped then
    Ok (Grouped (scheduled_events lists) (ongoing_events_acc lists)
                (group_details tz blocks contribs breaks))
  else
    Ok (Ungrouped (events_acc lists) (ongoing_events_acc lists)
                  (list_details blocks contribs breaks)).
End CategoryTimetable.

(** ** Session blocks of a day *)

(** [get_session_block_entries]: the event's session-block entries whose
    start, in the event's zone, falls on the date of [day] (a date taken
    in the zone [day] carries). *)
Definition get_session_block_entries (st : Store) (event : Event.t) (day : datetime)
  : list TimetableEntry.t :=
  List.filter
    (fun t => (tz_date (Event.tzinfo event) (TimetableEntry.start_dt t) =? datetime_date day)
              && TypeEq (TimetableEntry.type t) SESSION_BLOCK)
    (timetable_entries st event).

(** ** PDF export *)

Record TimetableExportConfig := {
  show_title : bool;
  show_affiliation : bool;
  show_cover_page : bool;
  show_toc : bool;
  show_session_toc : bool;
  show_abstract : bool;
  show_poster_abstract : bool;
  show_contribs : bool;
  show_length_contribs : bool;
  show_breaks : bool;
  new_page_per_session : bool;
  show_session_description : bool;
  print_date_close_to_sessions : bool
}.

(** [TimetableExportConfig()], every field at its default. *)
Definition TimetableExportConfig_default : TimetableExportConfig :=
  {| show_title := true; show_affiliation := false; show_cover_page := true;
     show_toc := true; show_session_toc := true; show_abstract := false;
     show_poster_abstract := false; show_contribs := false;
     show_length_contribs := false; show_breaks := false;
     new_page_per_session := false; show_session_description := false;
     print_date_close_to_sessions := false |}.

(** The second field receives the per-entry mapping that
    [get_nested_timetable_location_conditions] returns. *)
Record TimetableExportProgramConfig := {
  show_siblings_location : bool;
  show_children_location : gmap Z bool
}.

(** [itertools.groupby]: the runs of consecutive elements with one key,
    in order. *)
Fixpoint groupby {A K : Type} `{EqDecision K} (key : A -> K) (l : list A)
  : list (K * list A) :=
  match l with
  | [] => []
  | x :: l' =>
      match groupby key l' with
      | (k, g) :: rest =>
          if decide (key x = k) then (k, x :: g) :: rest
          else (key x, [x]) :: (k, g) :: rest
      | [] => [(key x, [x])]
      end
  end.

(** [d[k] = v] on a [dict], which lists its keys in the order of their
    first insertion: a key already present keeps its place and gets the
    new value. *)
Fixpoint dict_set {K V : Type} `{EqDecision K} (k : K) (v : V) (d : list (K * V))
  : list (K * V) :=
  match d with
  | [] => [(k, v)]
  | (k', v') :: d' =>
      if decide (k' = k) then (k', v) :: d' else (k', v') :: dict_set k v d'
  end.

(** [{k: v for k, v in pairs}] *)
Definition dict_of_pairs {K V : Type} `{EqDecision K} (pairs : list (K * V))
  : list (K * V) :=
  foldl (fun d kv => dict_set kv.1 kv.2 d) [] pairs.

Section PdfTimetable.
Variable isoformat : date -> string.
Variable str : Z -> string.
Variable can_access : EntryObject -> bool.

(** The entries of the export: the nested timetable with its default
  arguments, narrowed to the blocks of [only_session] when one is
  given.  Two loaded sessions are the same object when they are the
  same row. *)
Definition pdf_entries (st : Store) (event : Event.t) (only_session : option Session.t)
: list TimetableEntry.t :=
let entries := get_nested_timetable isoformat str can_access st event true "all" "all" "all" in
match only_session with
| Some s =>
    List.filter
      (fun e => TypeEq (TimetableEntry.type e) SESSION_BLOCK
                && session_block_has_session_id (Session.id s) e)
      entries
| None => entries
end.

(** The local [days] of [generate_pdf_timetable]. *)
Definition pdf_days (st : Store) (event : Event.t) (only_session : option Session.t)
: list (date * list TimetableEntry.t) :=
dict_of_pairs
  (groupby (fun e => tz_date (Event.tzinfo event) (TimetableEntry.start_dt e))
           (pdf_entries st event only_session)).

(** The local [program_config] of [generate_pdf_timetable]. *)
Definition pdf_program_config (st : Store) (event : Event.t)
  (only_session : option Session.t) : TimetableExportProgramConfig :=
let '(siblings, children) :=
  get_nested_timetable_location_conditions st (pdf_entries st event only_session) in
{| show_siblings_location := siblings || bool_decide (is_Some only_session);
   show_children_location := children |}.

(** The templates and the PDF renderer are external. *)
Context {Html Css Pdf : Type}.
Variable render_css : Css.
Variable render_html :
Event.t -> list (date * list TimetableEntry.t) -> TimetableExportConfig ->
TimetableExportProgramConfig -> option Session.t -> Html.
Variable create_pdf : Html -> Css -> Event.t -> Pdf.

Definition generate_pdf_timetable (st : Store) (event : Event.t)
  (config : TimetableExportConfig) (only_session : option Session.t) : Pdf :=
let css := render_css in
let days := pdf_days st event only_session in
let program_config := pdf_program_config st event only_session in
let html := render_html event days config program_config only_session in
create_pdf html css event.
End PdfTimetable.

(** ** Entries by level *)

(** [get_top_level_entries]; the per-request cache of [memoize_request]
    is left out, this is what a first call computes. *)
Definition get_top_level_entries (st : Store) (event : Event.t) : list TimetableEntry.t :=
  filter (fun t => TimetableEntry.parent_id t = None) (timetable_entries st event).

(** [get_nested_entries], likewise: the entries that have a parent,
    collected under their [parent_id]. *)
Definition get_nested_entries (st : Store) (event : Event.t)
  : gmap (option Z) (list TimetableEntry.t) :=
  let entries :=
    filter (fun t => TimetableEntry.parent_id t ≠ None) (timetable_entries st event) in
  foldl (fun result entry => append_at (TimetableEntry.parent_id entry) entry result)
        ∅ entries.

(** * Editing backend ([indico/modules/events/editing/controllers/backend/common.py]) *)

(** A side-menu item, with the attributes the handler reads. *)
Module SideMenuItem.
Record t := mk {
name : string;
title : string;
weight : Z
}.
End SideMenuItem.

(** [a < b] on tuples [(int, str)]. *)
Definition menu_key_lt (a b : Z * string) : bool :=
  if negb (a.1 =? b.1) then a.1 <? b.1 else String.ltb a.2 b.2.

(** [lambda x: (-x.weight, x.title)] *)
Definition menu_sort_key (x : SideMenuItem.t) : Z * string :=
  (- SideMenuItem.weight x, SideMenuItem.title x).

(** The JSON object [RHMenuEntries] answers with. *)
Record MenuEntries {Json : Type} := {
  menu_items : list Json;
  show_management_link : bool;
  show_editable_list : gmap string bool
}.
Arguments MenuEntries : clear implicits.

Module RHMenuEntries.
Section Handler.
(** The members of the enumeration [EditableType], in definition order,
with their [name] and [editor_permission]; the schema that dumps a
menu item; and [self.event.can_manage(session.user, permission)]. *)
Context {EditableType Json : Type}.
Variable EditableType_members : list EditableType.
Variable EditableType_name : EditableType -> string.
Variable editor_permission : EditableType -> string.
Variable dump : SideMenuItem.t -> Json.
Variable can_manage : string -> bool.

(** [signal_values] are the values of
[named_objects_from_signal(signals.menu.items.send(...))]. *)
Definition _process (signal_values : list SideMenuItem.t) : MenuEntries Json :=
let menu_entries := list_sort menu_key_lt menu_sort_key false signal_values in
let is_editing_manager := can_manage "editing_manager" in
let show_editable_list :=
foldl (fun (d : gmap string bool) et =>
         <[EditableType_name et :=
             is_editing_manager || can_manage (editor_permission et)]> d)
      ∅ EditableType_members in
{| menu_items := dump <$> menu_entries;
 show_management_link := is_editing_manager;
 show_editable_list := show_editable_list |}.
End Handler.
End RHMenuEntries.

(** * Cloning of minutes ([indico/modules/events/notes/clone.py]) *)

Module SubContribution.
Record t := mk {
id : Z;
contribution : Contribution.t;
is_deleted : bool
}.
End SubContribution.

(** The objects a note can be linked to. *)
Inductive LinkedObject :=
| LinkedEvent (e : Event.t)
| LinkedSession (s : Session.t)
| LinkedContribution (c : Contribution.t)
| LinkedSubContribution (sc : SubContribution.t).

Module LinkType.
Inductive t := event | session | contribution | subcontribution.
End LinkType.

#[global] Instance LinkType_eq_dec : EqDecision LinkType.t.
Proof. solve_decision. Defined.

Module EventNoteRevision.
Record t := mk {
render_mode : string;
source : string;
user : Z
}.
End EventNoteRevision.

(** A note of the event that is cloned, as the cloner reads it. *)
Module EventNote.
Record t := mk {
id : Z;
object : LinkedObject;
is_deleted : bool;
current_revision : EventNoteRevision.t
}.

Definition link_type (n : t) : LinkType.t :=
match object n with
| LinkedEvent _ => LinkType.event
| LinkedSession _ => LinkType.session
| LinkedContribution _ => LinkType.contribution
| LinkedSubContribution _ => LinkType.subcontribution
end.
End EventNote.

(** [obj.is_deleted] *)
Definition linked_object_is_deleted (obj : LinkedObject) : bool :=
  match obj with
  | LinkedEvent e => Event.is_deleted e
  | LinkedSession s => Session.is_deleted s
  | LinkedContribution c => Contribution.is_deleted c
  | LinkedSubContribution sc => SubContribution.is_deleted sc
  end.

(** An event with the two relationships the cloner follows,
    [event.note] and [event.all_notes]. *)
Record NotedEvent := {
  noted_event : Event.t;
  note : option EventNote.t;
  all_notes : list EventNote.t
}.

(** The maps earlier cloners leave in [shared_data], from the objects
    of the old event (named by their primary keys) to their clones. *)
Record SharedData := {
  session_map : gmap Z Session.t;
  contrib_map : gmap Z Contribution.t;
  subcontrib_map : gmap Z SubContribution.t
}.

(** A loop whose body may fail with a [KeyError]. *)
Fixpoint for_each_option {A S : Type} (body : S -> A -> option S) (l : list A) (s : S)
  : option S :=
  match l with
  | [] => Some s
  | x :: l' => s' ← body s x; for_each_option body l' s'
  end.

Module NoteCloner.
Section Cloner.
(** The notes of the target live in the database session; creating or
finding the note of an object and writing a revision are the
model's operations on it. *)
Context {Db Note : Type} `{EqDecision Note}.
Variable get_or_create : LinkedObject -> Db -> Note * Db.
Variable note_is_deleted : Note -> Db -> bool.
Variable create_revision : Note -> EventNoteRevision.t -> Db -> Db.
Variable gettext : string -> string.
Variable old_event : NotedEvent.

Inductive Signal :=
| note_restored (n : Note)
| note_added (n : Note).

(** The attributes [run] sets on the cloner, and the database session. *)
Record state := {
_clone_nested_notes : bool;
_session_map : option (gmap Z Session.t);
_contrib_map : option (gmap Z Contribution.t);
_subcontrib_map : option (gmap Z SubContribution.t);
_note_map : list (Z * Note);
_restored_notes : list Note;
db : Db
}.

Definition _has_content (event : NotedEvent) : bool :=
existsb (fun n => negb (EventNote.is_deleted n)) (all_notes event).

Definition is_available : bool := _has_content old_event.

(** [None] where the method ends without a [return]. *)
Definition get_conflicts (target_event : NotedEvent) : option (list string) :=
if _has_content target_event then Some [gettext "The target event already has minutes"]
else None.

Definition _query_notes : list EventNote.t :=
List.filter
(fun n => negb (EventNote.is_deleted n)
          && bool_decide (EventNote.link_type n
                          ∈ [LinkType.session; LinkType.contribution;
                             LinkType.subcontribution]))
(all_notes old_event).

(** [_note_map] is keyed by the old note, named here by its primary key. *)
Definition _clone_note (old_note : EventNote.t) (new_object : LinkedObject) (s : state)
: state :=
let revision := EventNote.current_revision old_note in
let '(note, db1) := get_or_create new_object (db s) in
let restored :=
if note_is_deleted note db1
then (if bool_decide (note ∈ _restored_notes s) then _restored_notes s
      else _restored_notes s ++ [note])
else _restored_notes s in
{| _clone_nested_notes := _clone_nested_notes s;
 _session_map := _session_map s;
 _contrib_map := _contrib_map s;
 _subcontrib_map := _subcontrib_map s;
 _note_map := dict_set (EventNote.id old_note) note (_note_map s);
 _restored_notes := restored;
 db := create_revision note revision db1 |}.

(** [mapping[old_note.link_type][obj]]; the mapping has no key for the
link type of an event. *)
Definition mapped_object (s : state) (obj : LinkedObject) : option LinkedObject :=
match obj with
| LinkedEvent _ => None
| LinkedSession o => m ← _session_map s; LinkedSession <$> m !! Session.id o
| LinkedContribution o => m ← _contrib_map s; LinkedContribution <$> m !! Contribution.id o
| LinkedSubContribution o =>
  m ← _subcontrib_map s; LinkedSubContribution <$> m !! SubContribution.id o
end.

(** The test in front of [continue]. *)
Definition skipped_note (old_note : EventNote.t) : bool :=
let obj := EventNote.object old_note in
linked_object_is_deleted obj
|| match obj with
 | LinkedSubContribution sc => Contribution.is_deleted (SubContribution.contribution sc)
 | _ => false
 end.

Definition _clone_notes (new_event : Event.t) (s : state) : option state :=
let s :=
match note old_event with
| Some n => _clone_note n (LinkedEvent new_event) s
| None => s
end in
if _clone_nested_notes s then
for_each_option
  (fun s old_note =>
     if skipped_note old_note then Some s
     else
       new_object ← mapped_object s (EventNote.object old_note);
       Some (_clone_note old_note new_object s))
  _query_notes s
else Some s.

(** [run]: the state it leaves and the signals it sends, or [None]
when a [KeyError] ends it.  Flushing the session is not modelled. *)
Definition run (new_event : Event.t) (cloners : gset string) (shared_data : SharedData)
(event_exists : bool) (db0 : Db) : option (state * list Signal) :=
let nested := bool_decide (({["sessions"; "contributions"]} : gset string) ⊆ cloners) in
let s0 :=
{| _clone_nested_notes := nested;
   _session_map := if nested then Some (session_map shared_data) else None;
   _contrib_map := if nested then Some (contrib_map shared_data) else None;
   _subcontrib_map := if nested then Some (subcontrib_map shared_data) else None;
   _note_map := [];
   _restored_notes := [];
   db := db0 |} in
s ← _clone_notes new_event s0;
let signals :=
if event_exists then
  (fun n => if bool_decide (n ∈ _restored_notes s) then note_restored n
            else note_added n) <$> (_note_map s).*2
else [] in
Some (s, signals).
End Cloner.
End NoteCloner.

(** * Specification-level notions and example data *)

(** ** Concrete instants used in the examples *)

(** 2024-01-01 is day 19723 after the epoch. *)
Definition jan1 : date := 19723.
Definition utc_at (d : date) (h m : Z) : Instant := d * DAY + h * HOUR + m * MINUTE.

(** What "the maximum end_dt among [es], or null if there is none" means
    for a returned value. *)
Definition is_latest_end (es : list TimetableEntry.t) (r : result (option Instant)) : Prop :=
  match es with
  | [] => r = Ok None
  | _ :: _ =>
      ∃ m, r = Ok (Some m)
           ∧ (∃ e, e ∈ es ∧ TimetableEntry.end_dt e = m)
           ∧ (∀ e, e ∈ es → TimetableEntry.end_dt e ≤ m)
           ∧ (∀ lo hi, (∀ e, e ∈ es → lo ≤ TimetableEntry.end_dt e ≤ hi) → lo ≤ m ≤ hi)
  end.

(** ** Example data *)

(** An event on 2024-01-01 from 9:00 to 17:00 (UTC) with one
    contribution from 10:00 to 10:30. *)
Definition talk : Contribution.t := Contribution.mk 1 1 "Talk" true false.

Definition one_day_event : Event.t :=
  Event.mk 1 (utc_at jan1 9 0) (utc_at jan1 17 0) utc utc [10] false.

Definition talk_entry : TimetableEntry.t :=
  TimetableEntry.mk 1 1 None (utc_at jan1 10 0) (30 * MINUTE) (OContribution talk).

Definition one_day_store : Store :=
  {| events := [one_day_event]; entries := [talk_entry] |}.

(** An event from 2024-01-01 9:00 to 2024-01-02 17:00 (UTC) with an empty
    timetable. *)
Definition two_day_event : Event.t :=
  Event.mk 2 (utc_at jan1 9 0) (utc_at (jan1 + 1) 17 0) utc utc [10] false.

Definition two_day_store : Store := {| events := [two_day_event]; entries := [] |}.

(** A session block from 10:00 to 11:00 with two contributions of half
    an hour each, one after the other. *)
Definition plenary : Session.t := Session.mk 1 3 "PL" 1 true false.
Definition plenary_block : SessionBlock.t := SessionBlock.mk 1 plenary "Plenary" true.

Definition plenary_block_entry : TimetableEntry.t :=
  TimetableEntry.mk 10 3 None (utc_at jan1 10 0) (1 * HOUR) (OBlock plenary_block).

Definition first_talk_entry : TimetableEntry.t :=
  TimetableEntry.mk 11 3 (Some 10) (utc_at jan1 10 0) (30 * MINUTE)
    (OContribution (Contribution.mk 2 3 "First talk" true false)).

Definition second_talk_entry : TimetableEntry.t :=
  TimetableEntry.mk 12 3 (Some 10) (utc_at jan1 10 30) (30 * MINUTE)
    (OContribution (Contribution.mk 3 3 "Second talk" true false)).

Definition block_day_store : Store :=
  {| events := [Event.mk 3 (utc_at jan1 9 0) (utc_at jan1 17 0) utc utc [10] false];
     entries := [plenary_block_entry; first_talk_entry; second_talk_entry] |}.

(** The day of a workshop (event 5), all entries at the top level: a
    trigger entry from 10:00 to 10:30, a contribution before it, and
    after it a coffee break, a block of the session "posters" and a block
    of the session "keynotes". *)
Definition keynotes : Session.t := Session.mk 5 5 "KN" 1 true false.
Definition posters : Session.t := Session.mk 6 5 "PO" 2 true false.

Definition opening_entry : TimetableEntry.t :=
  TimetableEntry.mk 20 5 None (utc_at jan1 10 0) (30 * MINUTE)
    (OContribution (Contribution.mk 20 5 "Opening" true false)).

Definition early_entry : TimetableEntry.t :=
  TimetableEntry.mk 21 5 None (utc_at jan1 9 0) (30 * MINUTE)
    (OContribution (Contribution.mk 21 5 "Registration" true false)).

Definition coffee_entry : TimetableEntry.t :=
  TimetableEntry.mk 22 5 None (utc_at jan1 11 0) (15 * MINUTE)
    (OBreak (Break.mk 22 "Coffee" true)).

Definition posters_entry : TimetableEntry.t :=
  TimetableEntry.mk 23 5 None (utc_at jan1 11 30) (30 * MINUTE)
    (OBlock (SessionBlock.mk 23 posters "Posters" true)).

Definition keynotes_entry : TimetableEntry.t :=
  TimetableEntry.mk 24 5 None (utc_at jan1 12 0) (1 * HOUR)
    (OBlock (SessionBlock.mk 24 keynotes "Keynotes" true)).

Definition workshop_store : Store :=
  {| events := [Event.mk 5 (utc_at jan1 9 0) (utc_at jan1 17 0) utc utc [10] false];
     entries := [opening_entry; early_entry; coffee_entry; posters_entry; keynotes_entry] |}.

(** ** The cascade shifter, step by step *)

(** The loop of [shift_following_entries]. *)
Definition shift_all (shift : timedelta) (rows : list TimetableEntry.t) (st : Store) : Store :=
  fold_left (fun st sibling =>
               update_entry st
                 (TimetableEntry.move sibling (TimetableEntry.start_dt sibling + shift)))
            rows st.

(** The rows the query of [shift_following_entries] yields. *)
Definition following st entry : list TimetableEntry.t :=
  Query.all (Query.filter (siblings_query st entry)
               (fun t => TimetableEntry.end_dt entry <=? TimetableEntry.start_dt t)).

(** The block day after the entries that follow the first talk have been
    shifted by half an hour. *)
Definition overrun_store : Store :=
  (shift_following_entries block_day_store first_talk_entry (30 * MINUTE) None).1.

(** Every row ends up as the image of the last listed sibling with its
    primary key, or stays as it is when there is none. *)
Definition shifted_row (shift : timedelta) (rows : list TimetableEntry.t)
    (r : TimetableEntry.t) : TimetableEntry.t :=
  match List.find (fun s => TimetableEntry.id s =? TimetableEntry.id r) (rev rows) with
  | Some s => TimetableEntry.move s (TimetableEntry.start_dt s + shift)
  | None => r
  end.

(** ** Notifications: what the loop is expected to produce *)

(** The objects the loop writes messages for. *)
Definition is_event_or_block (obj : Object) : bool :=
  match obj with
  | OfEvent _ | OfEntry (OBlock _) => true
  | OfEntry _ => false
  end.

(** A change record with neither a [start_dt] nor an [end_dt] delta. *)
Definition no_time_delta (change : Change) : Prop :=
  change !! "start_dt" = None ∧ change !! "end_dt" = None.

(** The messages one changed object contributes when nothing is raised. *)
Definition notification_of (gettext : string -> string)
    (format_time : Instant -> tzinfo -> string) (st : Store) (tz : tzinfo)
    (entry : option TimetableEntry.t) (oc : Object * Change) : list string :=
  if skipped st entry oc.1 then []
  else
    match change_message gettext oc.1 oc.2 with
    | Ok (Some (template, new_time)) =>
        if str_bool template then [str_format template (format_time new_time tz)] else []
    | _ => []
    end.

(** Stand-ins for the translation and the time formatting in examples. *)
Definition no_translation (s : string) : string := s.
Definition clock_time (t : Instant) (tz : tzinfo) : string :=
  if t mod DAY =? 11 * HOUR then "11:00" else "12:00".

(** Two change records of the workshop day: the keynotes block got a new
    start, and the opening contribution was recorded without any delta. *)
Definition keynotes_change : Object * Change :=
  (OfEntry (OBlock (SessionBlock.mk 24 keynotes "Keynotes" true)),
   {["start_dt" := (utc_at jan1 12 0, utc_at jan1 11 0)]}).

Definition opening_change : Object * Change :=
  (OfEntry (OContribution (Contribution.mk 20 5 "Opening" true false)), ∅).

Definition keynotes_bad_change : Object * Change :=
  (OfEntry (OBlock (SessionBlock.mk 24 keynotes "Keynotes" true)), ∅).

(** ** Location conditions: the two conditions in words *)

(** The entry does not inherit its location, or it is a session block
    that inherits it from a session with a location of its own. *)
Definition discloses_location (entry : TimetableEntry.t) : Prop :=
  object_inherit_location (TimetableEntry.object entry) = false
  ∨ ∃ b, TimetableEntry.object entry = OBlock b
         ∧ TimetableEntry.type entry = SESSION_BLOCK
         ∧ SessionBlock.inherit_location b = true
         ∧ Session.inherit_location (SessionBlock.session b) = false.

(** Some direct child of the entry does not inherit its location. *)
Definition child_discloses_location (st : Store) (entry : TimetableEntry.t) : Prop :=
  ∃ child, child ∈ children st entry
           ∧ object_inherit_location (TimetableEntry.object child) = false.

(** A block in a room of its own with one child, next to a break. *)
Definition room_block_entry : TimetableEntry.t :=
  TimetableEntry.mk 30 6 None (utc_at jan1 10 0) (1 * HOUR)
    (OBlock (SessionBlock.mk 30 (Session.mk 7 6 "RB" 1 true false) "Room block" false)).

Definition room_talk_entry : TimetableEntry.t :=
  TimetableEntry.mk 31 6 (Some 30) (utc_at jan1 10 0) (30 * MINUTE)
    (OContribution (Contribution.mk 31 6 "Room talk" false false)).

Definition lunch_entry : TimetableEntry.t :=
  TimetableEntry.mk 32 6 None (utc_at jan1 12 0) (1 * HOUR) (OBreak (Break.mk 32 "Lunch" true)).

Definition rooms_store : Store :=
  {| events := [Event.mk 6 (utc_at jan1 9 0) (utc_at jan1 17 0) utc utc [10] false];
     entries := [room_block_entry; room_talk_entry; lunch_entry] |}.

(** The flag stored for an entry, as a function of its primary key. *)
Definition children_flag (st : Store) (entry_id : Z) : bool :=
  negb (forallb (fun child => object_inherit_location (TimetableEntry.object child))
          (filter (fun t => TimetableEntry.parent_id t = Some entry_id) (entries st))).

(** ** Ordering of the nested timetable: the single sort of the specification *)

(** [a < b] on the title keys, tuples [(str, str)]. *)
Definition title_key_lt (a b : string * string) : bool :=
  if negb (String.eqb a.1 b.1) then String.ltb a.1 b.1 else String.ltb a.2 b.2.

(** One comparison on the key (start_dt, title key, end_dt descending):
    [y] goes strictly before [x] when its start is earlier, or the
    starts agree and its title key is smaller, or both agree and its end
    is later. *)
Definition single_sort_before (y x : TimetableEntry.t) : bool :=
  let '(c1, t1) := _entry_title_key y in
  let '(c2, t2) := _entry_title_key x in
  if negb (TimetableEntry.start_dt y =? TimetableEntry.start_dt x)
  then TimetableEntry.start_dt y <? TimetableEntry.start_dt x
  else if negb (String.eqb c1 c2) then String.ltb c1 c2
  else if negb (String.eqb t1 t2) then String.ltb t1 t2
  else TimetableEntry.end_dt x <? TimetableEntry.end_dt y.

Definition single_sort (es : list TimetableEntry.t) : list TimetableEntry.t :=
  stable_sort single_sort_before es.

(** The lexicographic combination of two "strictly before" relations:
    the first decides, the second breaks its ties. *)
Definition lex_before {A : Type} (R1 R2 : A -> A -> bool) (y x : A) : bool :=
  R1 y x || (negb (R1 x y) && R2 y x).

(** [y] may stay in front of [x]: [x] need not come strictly before it. *)
Definition in_order {A : Type} (R : A -> A -> bool) (y x : A) : Prop := R x y = false.

(** The relations of the two passes of [sort_nested_entries]. *)
Definition key_before (y x : TimetableEntry.t) : bool :=
  sort_key_lt (nested_sort_key y) (nested_sort_key x).

Definition later_end_before (y x : TimetableEntry.t) : bool :=
  TimetableEntry.end_dt x <? TimetableEntry.end_dt y.

(** A "strictly before" relation that ranks the elements: it is
    asymmetric, and whatever it separates it separates from any third
    element on one side or the other. *)
Record Ranking {A : Type} (R : A -> A -> bool) : Prop := {
  ranking_asym : ∀ x y, R x y = true → R y x = false;
  ranking_split : ∀ x y z, R x z = true → R x y = true ∨ R y z = true
}.

(** Three entries that start together: a break and two blocks of one
    session with the same title, the longer one listed last. *)
Definition tie_break_entry : TimetableEntry.t :=
  TimetableEntry.mk 40 7 None (utc_at jan1 10 0) (15 * MINUTE) (OBreak (Break.mk 40 "Tea" true)).

Definition tie_short_entry : TimetableEntry.t :=
  TimetableEntry.mk 41 7 None (utc_at jan1 10 0) (30 * MINUTE)
    (OBlock (SessionBlock.mk 41 (Session.mk 8 7 "A" 1 true false) "Track A" true)).

Definition tie_long_entry : TimetableEntry.t :=
  TimetableEntry.mk 42 7 None (utc_at jan1 10 0) (1 * HOUR)
    (OBlock (SessionBlock.mk 42 (Session.mk 8 7 "A" 1 true false) "Track A" true)).

Definition tie_early_entry : TimetableEntry.t :=
  TimetableEntry.mk 43 7 None (utc_at jan1 9 0) (3 * HOUR)
    (OContribution (Contribution.mk 43 7 "Welcome" true false)).

Definition tie_entries : list TimetableEntry.t :=
  [tie_short_entry; tie_break_entry; tie_long_entry; tie_early_entry].

(** ** Category timetable: the objects a result contains *)

(** All the values found in a mapping, each entry contributing the
    values [f] finds in it. *)
Definition flat_values `{Countable K} {X V : Type} (f : X -> list V) (m : gmap K X) : list V :=
  map_to_list m ≫= fun kv => f kv.2.

Definition grouped_objects (details : GroupedDetails) : list EntryObject :=
  flat_values (flat_values (flat_values (fmap snd))) details.

Definition flat_objects (details : FlatDetails) : list EntryObject :=
  flat_values (flat_values id) details.

(** The events of a result: those under ['events'] and those under
    ['ongoing_events']. *)
Definition timetable_events (r : CategoryTimetable) : list Event.t :=
  match r with
  | Grouped events ongoing _ => flat_values (fmap snd) events ++ ongoing
  | Ungrouped events ongoing _ => events ++ ongoing
  end.

(** The session blocks, contributions and breaks of a result. *)
Definition timetable_objects (r : CategoryTimetable) : list EntryObject :=
  match r with
  | Grouped _ _ details => grouped_objects details
  | Ungrouped _ _ details => flat_objects details
  end.

(** The events the second loop has placed so far. *)
Definition placed_events (acc : EventLists) : list Event.t :=
  flat_values (fmap snd) (scheduled_events acc) ++ ongoing_events_acc acc.

(** The per-day starts recorded for an event are usable: there is at
    least one day, and no day has an empty list. *)
Definition usable_starts (by_day : gmap date (list Instant)) : Prop :=
  by_day ≠ ∅ ∧ ∀ d l, by_day !! d = Some l → l ≠ [].

(** The local date of a zone never goes back in time. *)
Definition monotone_dates (tz : tzinfo) : Prop :=
  ∀ t1 t2, t1 ≤ t2 → tz_date tz t1 ≤ tz_date tz t2.

(** A seminar on 2024-01-01 from 16:00 to 17:00 (UTC) without timetable,
    looked up with the window of 2024-01-02 in a zone nine hours ahead
    while the display zone is UTC. *)
Definition seminar : Event.t :=
  Event.mk 8 (utc_at jan1 16 0) (utc_at jan1 17 0) utc utc [10] false.

Definition seminar_store : Store := {| events := [seminar]; entries := [] |}.

Definition tokyo : tzinfo := fixed_offset (9 * HOUR).

Definition window_start : datetime :=
  {| instant := utc_at jan1 15 0; dt_tzinfo := tokyo |}.
Definition window_end : datetime :=
  {| instant := utc_at (jan1 + 1) 14 59; dt_tzinfo := tokyo |}.

Definition everything_visible (categ_id : Z) (e : Event.t) : bool := true.
Definition everything_includible (e : Event.t) : bool := true.

(** The same seminar looked up on its own day, window and display zone
    both UTC. *)
Definition utc_window_start : datetime :=
  {| instant := utc_at jan1 0 0; dt_tzinfo := utc |}.
Definition utc_window_end : datetime :=
  {| instant := utc_at jan1 23 59; dt_tzinfo := utc |}.

(** The grouped loop places an event somewhere: an event without
    timetable rows needs a day in the clipped range, an event with rows
    has a day for each of them. *)
Definition placeable (tz : tzinfo) (start_dt end_dt : datetime) (items : Items)
    (e : Event.t) : Prop :=
  match items !! Event.id e with
  | Some None =>
      Z.max (datetime_date start_dt) (tz_date tz (Event.start_dt e))
      ≤ Z.min (datetime_date end_dt) (tz_date tz (Event.end_dt e))
  | Some (Some _) => True
  | None => False
  end.

(** The keys found under the event ids of a result. *)
Definition keys_within {X : Type} (allowed : list string) (details : gmap Z (gmap string X))
  : Prop :=
  ∀ event_id per_event key,
    details !! event_id = Some per_event → is_Some (per_event !! key) → key ∈ allowed.

(** An event looked up with the bounds of the window exchanged. *)
Definition congress : Event.t :=
  Event.mk 9 (utc_at jan1 0 0) (utc_at (jan1 + 4) 23 0) utc utc [10] false.

Definition congress_store : Store := {| events := [congress]; entries := [] |}.

Definition late_bound : datetime := {| instant := utc_at (jan1 + 4) 12 0; dt_tzinfo := utc |}.
Definition early_bound : datetime := {| instant := utc_at jan1 12 0; dt_tzinfo := utc |}.

(** * Further specification-level notions *)

(** What a change record contributes to the notifications: the new
    start when a start delta is recorded, otherwise the new end when an
    end delta is recorded. *)
Definition effective_delta (change : Change) : option (bool * Instant) :=
  match change !! "start_dt" with
  | Some (_, new_time) => Some (true, new_time)
  | None =>
      match change !! "end_dt" with
      | Some (_, new_time) => Some (false, new_time)
      | None => None
      end
  end.

(** Two change mappings that list the same objects in the same order
    with the same effective deltas. *)
Definition same_effective_changes (changes changes' : list (Object * Change)) : Prop :=
  Forall2 (fun oc oc' => oc.1 = oc'.1 ∧ effective_delta oc.2 = effective_delta oc'.2)
          changes changes'.

(** The keynotes block with a new start and a new end recorded. *)
Definition keynotes_both_change : Object * Change :=
  (OfEntry (OBlock (SessionBlock.mk 24 keynotes "Keynotes" true)),
   {["start_dt" := (utc_at jan1 12 30, utc_at jan1 11 0);
     "end_dt" := (utc_at jan1 13 0, utc_at jan1 12 0)]}).

(** ** Category timetable: the pieces of a run *)

(** The events query after the optional visibility filter. *)
Definition visible_events (is_visible_in : Z -> Event.t -> bool) (st : Store)
    (categ_ids : list Z) (day_start day_end : Instant) (from_categ : option Z)
  : list Event.t :=
  match from_categ with
  | Some categ_id =>
      List.filter (is_visible_in categ_id) (_query_events st categ_ids day_start day_end)
  | None => _query_events st categ_ids day_start day_end
  end.

(** The ids the first loop has collected are those of the selected events. *)
Definition selected_id (is_visible_in : Z -> Event.t -> bool) (st : Store)
    (categ_ids : list Z) (day_start day_end : Instant) (from_categ : option Z) (i : Z)
  : Prop :=
  ∃ ev, ev ∈ visible_events is_visible_in st categ_ids day_start day_end from_categ
        ∧ Event.id ev = i.

(** The conditions under which an object is reported as a detail. *)
Definition reported_detail (is_visible_in : Z -> Event.t -> bool) (st : Store)
    (categ_ids : list Z) (day_start day_end : Instant) (detail_level : string)
    (from_categ : option Z) (t : TimetableEntry.t) : Prop :=
  dates_overlap day_start day_end t = true
  ∧ match TimetableEntry.object t with
    | OBlock b =>
        detail_level ≠ "event"
        ∧ Session.is_deleted (SessionBlock.session b) = false
        ∧ selected_id is_visible_in st categ_ids day_start day_end from_categ
            (Session.event_id (SessionBlock.session b))
    | OContribution c =>
        detail_level = "contribution"
        ∧ Contribution.is_deleted c = false
        ∧ selected_id is_visible_in st categ_ids day_start day_end from_categ
            (Contribution.event_id c)
    | OBreak _ =>
        detail_level = "contribution"
        ∧ selected_id is_visible_in st categ_ids day_start day_end from_categ
            (TimetableEntry.event_id t)
    end.

(** A conference (event 11) with a keynote block, a talk and a coffee
    break on 2024-01-01. *)
Definition conference : Event.t :=
  Event.mk 11 (utc_at jan1 9 0) (utc_at (jan1 + 1) 17 0) utc utc [10] false.

Definition conference_block_entry : TimetableEntry.t :=
  TimetableEntry.mk 50 11 None (utc_at jan1 9 0) (1 * HOUR)
    (OBlock (SessionBlock.mk 50 (Session.mk 9 11 "K" 1 true false) "Keynote" true)).

Definition conference_talk_entry : TimetableEntry.t :=
  TimetableEntry.mk 51 11 None (utc_at jan1 11 0) (30 * MINUTE)
    (OContribution (Contribution.mk 51 11 "Talk" true false)).

Definition conference_break_entry : TimetableEntry.t :=
  TimetableEntry.mk 52 11 None (utc_at jan1 10 0) (30 * MINUTE)
    (OBreak (Break.mk 52 "Coffee" true)).

Definition conference_store : Store :=
  {| events := [conference; seminar];
     entries := [conference_block_entry; conference_talk_entry; conference_break_entry] |}.

(** ** Editing menu *)

(** [y] goes strictly before [x] in the menu: it is heavier, or as
    heavy with a smaller title. *)
Definition menu_before (y x : SideMenuItem.t) : bool :=
  menu_key_lt (menu_sort_key y) (menu_sort_key x).

(** Three editable types with their editor permissions, two menu items
    of equal weight and a lighter one, and a user who holds the
    permission for papers only. *)
Inductive SampleEditableType := sample_paper | sample_slides | sample_poster.

Definition sample_type_name (et : SampleEditableType) : string :=
  match et with
  | sample_paper => "paper"
  | sample_slides => "slides"
  | sample_poster => "poster"
  end.

Definition sample_editor_permission (et : SampleEditableType) : string :=
  match et with
  | sample_paper => "paper_editing"
  | sample_slides => "slides_editing"
  | sample_poster => "poster_editing"
  end.

Definition sample_menu : list SideMenuItem.t :=
  [SideMenuItem.mk "tags" "Tags" 10; SideMenuItem.mk "papers" "Papers" 20;
   SideMenuItem.mk "files" "File types" 10].

Definition paper_editor (permission : string) : bool := String.eqb permission "paper_editing".

(** ** Cloning of minutes *)

(** The object has no clone in the map of its kind. *)
Definition missing_clone (shared_data : SharedData) (obj : LinkedObject) : Prop :=
  match obj with
  | LinkedEvent _ => False
  | LinkedSession o => session_map shared_data !! Session.id o = None
  | LinkedContribution o => contrib_map shared_data !! Contribution.id o = None
  | LinkedSubContribution o => subcontrib_map shared_data !! SubContribution.id o = None
  end.













(** * Properties of the interval/fit resolver *)

Section Resolver.
Implicit Types (st : Store) (ev : Event.t) (e first : TimetableEntry.t)
  (es rest : list TimetableEntry.t).

Lemma max_by_end_dt_elem first rest :
  max_by_end_dt first rest ∈ first :: rest.
Proof.
  unfold max_by_end_dt. revert first.
  induction rest as [|x rest IH]; intros first; simpl.
  - apply list_elem_of_here.
  - specialize (IH (if TimetableEntry.end_dt first <? TimetableEntry.end_dt x
                    then x else first)).
    apply elem_of_cons in IH as [-> | IH].
    + destruct (_ <? _); set_solver.
    + set_solver.
Qed.

Lemma max_by_end_dt_first_le first rest :
  TimetableEntry.end_dt first ≤ TimetableEntry.end_dt (max_by_end_dt first rest).
Proof.
  unfold max_by_end_dt. revert first.
  induction rest as [|x rest IH]; intros first; simpl; [lia|].
  etrans; [|apply IH].
  destruct (Z.ltb_spec (TimetableEntry.end_dt first) (TimetableEntry.end_dt x)); lia.
Qed.

Lemma max_by_end_dt_upper first rest e :
  e ∈ first :: rest →
  TimetableEntry.end_dt e ≤ TimetableEntry.end_dt (max_by_end_dt first rest).
Proof.
  unfold max_by_end_dt. revert first.
  induction rest as [|x rest IH]; intros first Hin; simpl.
  - apply list_elem_of_singleton in Hin as ->. lia.
  - apply elem_of_cons in Hin as [-> | Hin].
    + etrans; [|apply max_by_end_dt_first_le].
      destruct (Z.ltb_spec (TimetableEntry.end_dt first) (TimetableEntry.end_dt x)); lia.
    + apply elem_of_cons in Hin as [-> | Hin].
      * etrans; [|apply max_by_end_dt_first_le].
        destruct (Z.ltb_spec (TimetableEntry.end_dt first) (TimetableEntry.end_dt x)); lia.
      * apply IH. set_solver.
Qed.

Lemma latest_end_dt_is_latest es : is_latest_end es (Ok (latest_end_dt es)).
Proof.
  destruct es as [|e es]; simpl; [done|].
  eexists; split; [done|]. split; [|split].
  - eexists; split; [apply max_by_end_dt_elem | done].
  - intros x Hx. by apply max_by_end_dt_upper.
  - intros lo hi Hall. apply Hall, max_by_end_dt_elem.
Qed.

Lemma elem_of_top_level_entries_on st ev d e :
  e ∈ top_level_entries_on st ev d ↔
  e ∈ entries st ∧ TimetableEntry.event_id e = Event.id ev
  ∧ TimetableEntry.parent_id e = None
  ∧ tz_date (Event.tzinfo ev) (TimetableEntry.start_dt e) = d.
Proof.
  unfold top_level_entries_on, timetable_entries.
  rewrite !list_elem_of_filter. tauto.
Qed.

Lemma elem_of_children st e x :
  x ∈ children st e ↔
  x ∈ entries st ∧ TimetableEntry.parent_id x = Some (TimetableEntry.id e).
Proof. unfold children. rewrite list_elem_of_filter. tauto. Qed.

(** The bounds the code computes for an event and a day of its range. *)
Lemma next_start_bounds_event st ev d :
  day_in_event_bounds ev d = true →
  next_start_bounds st (OfEvent ev) (Some d)
  = Ok (if Event.start_dt_local_date ev =? d then Event.start_dt ev
        else replace_hour_minute (get_day_start d (Event.tzinfo ev)) 8 0,
        if tz_date utc (Event.start_dt ev) =? d then Event.end_dt ev
        else get_day_end d (Event.tzinfo ev)).
Proof. intros Hd. unfold next_start_bounds. by rewrite Hd. Qed.

Lemma next_start_bounds_block st b te :
  timetable_entry st (OBlock b) = Some te →
  next_start_bounds st (OfEntry (OBlock b)) None
  = Ok (TimetableEntry.start_dt te, TimetableEntry.end_dt te).
Proof. intros Hte. unfold next_start_bounds. by rewrite Hte. Qed.
End Resolver.

(** C1.  On the two-day event the end bound is taken from the wrong day:
    on the last day (2024-01-02) the code answers the end of that day
    where the event ends at 17:00, and on the first day it answers the
    end of the event, which lies on the next day.  The start bound is
    the one described: the start of the event on the first day, 8:00 on
    the other. *)
Theorem next_start_bounds_two_day_event :
  Event.start_dt_local_date two_day_event = jan1
  ∧ Event.end_dt_local_date two_day_event = jan1 + 1
  ∧ next_start_bounds two_day_store (OfEvent two_day_event) (Some (jan1 + 1))
    = Ok (utc_at (jan1 + 1) 8 0, utc_at (jan1 + 2) 0 0)
  ∧ utc_at (jan1 + 2) 0 0 ≠ Event.end_dt two_day_event
  ∧ next_start_bounds two_day_store (OfEvent two_day_event) (Some jan1)
    = Ok (Event.start_dt two_day_event, Event.end_dt two_day_event)
  ∧ Event.end_dt two_day_event ≠ get_day_end jan1 (Event.tzinfo two_day_event).
Proof. by vm_compute. Qed.

(** C5.  When the duration is strictly greater than the window
    [latest - earliest] of the container and day, [find_next_start_dt]
    returns null without [force] and exactly [earliest] with it. *)
Theorem find_next_start_dt_too_long st duration obj day force earliest latest :
  next_start_bounds st obj day = Ok (earliest, latest) →
  latest - earliest < duration →
  find_next_start_dt st duration obj day force
  = Ok (if force then Some earliest else None).
Proof.
  intros Hb Hlong. unfold find_next_start_dt. rewrite Hb. simpl.
  by apply Z.ltb_lt in Hlong as ->.
Qed.

(** The scenario of the specification: ten hours do not fit the
    9:00-17:00 event. *)
Lemma find_next_start_dt_too_long_witness :
  find_next_start_dt one_day_store (10 * HOUR) (OfEvent one_day_event) (Some jan1) false
  = Ok None
  ∧ find_next_start_dt one_day_store (10 * HOUR) (OfEvent one_day_event) (Some jan1) true
    = Ok (Some (utc_at jan1 9 0)).
Proof.
  split.
  - apply (find_next_start_dt_too_long one_day_store (10 * HOUR) (OfEvent one_day_event)
             (Some jan1) false (utc_at jan1 9 0) (utc_at jan1 17 0)).
    + vm_compute. reflexivity.
    + vm_compute. reflexivity.
  - apply (find_next_start_dt_too_long one_day_store (10 * HOUR) (OfEvent one_day_event)
             (Some jan1) true (utc_at jan1 9 0) (utc_at jan1 17 0)).
    + vm_compute. reflexivity.
    + vm_compute. reflexivity.
Defined.

(** The other scenario: one hour fits after the contribution that ends
    at 10:30. *)
Example find_next_start_dt_after_talk :
  find_latest_entry_end_dt one_day_store (OfEvent one_day_event) (Some jan1)
  = Ok (Some (utc_at jan1 10 30))
  ∧ find_next_start_dt one_day_store (1 * HOUR) (OfEvent one_day_event) (Some jan1) false
    = Ok (Some (utc_at jan1 10 30)).
Proof. by vm_compute. Qed.

(** C6 (as stated, refuted).  Both talks of the block lie inside it.
    Once the entries that follow the first talk have been shifted by
    half an hour, the second talk ends at 11:30, after the end of the
    block at 11:00, and 11:30 is the value returned for the block. *)
Lemma find_latest_entry_end_dt_outside_block :
  children block_day_store plenary_block_entry = [first_talk_entry; second_talk_entry]
  ∧ TimetableEntry.end_dt second_talk_entry = TimetableEntry.end_dt plenary_block_entry
  ∧ timetable_entry overrun_store (OBlock plenary_block) = Some plenary_block_entry
  ∧ find_latest_entry_end_dt overrun_store (OfEntry (OBlock plenary_block)) None
    = Ok (Some (utc_at jan1 11 30))
  ∧ ¬ (TimetableEntry.start_dt plenary_block_entry ≤ utc_at jan1 11 30
       ≤ TimetableEntry.end_dt plenary_block_entry).
Proof.
  split; [by vm_compute|]. split; [by vm_compute|].
  split; [by vm_compute|]. split; [by vm_compute|].
  vm_compute. intros [_ H]. by apply H.
Qed.

(** C6 (amended).  For an event and a day of its local date range the
    result is null when no top-level entry of the event starts on that
    local day, and otherwise the greatest end_dt among those entries;
    for a session block it is null when the block's entry has no child
    and otherwise the greatest end_dt among its direct children.  The
    value is the end_dt of one of these entries, so it lies within any
    bounds that all of them respect; the function does not compare it
    with the bounds of the container. *)
Theorem find_latest_entry_end_dt_max st :
  (∀ ev d, day_in_event_bounds ev d = true →
     is_latest_end (top_level_entries_on st ev d)
                   (find_latest_entry_end_dt st (OfEvent ev) (Some d)))
  ∧ (∀ b te, timetable_entry st (OBlock b) = Some te →
       is_latest_end (children st te)
                     (find_latest_entry_end_dt st (OfEntry (OBlock b)) None)).
Proof.
  split.
  - intros ev d Hd. unfold find_latest_entry_end_dt. rewrite Hd. simpl.
    apply latest_end_dt_is_latest.
  - intros b te Hte. unfold find_latest_entry_end_dt. rewrite Hte.
    apply latest_end_dt_is_latest.
Qed.

Lemma find_latest_entry_end_dt_max_witness :
  (day_in_event_bounds one_day_event jan1 = true
   ∧ is_latest_end (top_level_entries_on one_day_store one_day_event jan1)
       (find_latest_entry_end_dt one_day_store (OfEvent one_day_event) (Some jan1)))
  ∧ (timetable_entry overrun_store (OBlock plenary_block) = Some plenary_block_entry
     ∧ is_latest_end (children overrun_store plenary_block_entry)
         (find_latest_entry_end_dt overrun_store (OfEntry (OBlock plenary_block)) None)).
Proof.
  split; split.
  - vm_compute. reflexivity.
  - apply (proj1 (find_latest_entry_end_dt_max one_day_store)). vm_compute. reflexivity.
  - vm_compute. reflexivity.
  - apply (proj2 (find_latest_entry_end_dt_max overrun_store)). vm_compute. reflexivity.
Defined.

(** * Rows with a unique key *)

Lemma unique_key_inj {A B : Type} (key : A -> B) (rows : list A) (r s : A) :
  NoDup (key <$> rows) → r ∈ rows → s ∈ rows → key r = key s → r = s.
Proof.
  induction rows as [|x rows IH]; simpl; intros Hnd Hr Hs Hid.
  - by apply elem_of_nil in Hr.
  - apply NoDup_cons in Hnd as [Hx Hnd].
    apply elem_of_cons in Hr as [-> | Hr]; apply elem_of_cons in Hs as [-> | Hs].
    + done.
    + exfalso. apply Hx. rewrite Hid. by apply list_elem_of_fmap_2.
    + exfalso. apply Hx. rewrite <- Hid. by apply list_elem_of_fmap_2.
    + by apply IH.
Qed.

(** * Properties of the cascade shifter *)

Section Shifter.
Implicit Types (st : Store) (entry sibling r s : TimetableEntry.t)
  (rows : list TimetableEntry.t) (shift : timedelta).

Lemma shift_following_entries_unfold st entry shift session_ :
  shift_following_entries st entry shift session_
  = match following st entry with
    | [] => (st, ReturnList [])
    | _ :: _ => (shift_all shift (following st entry) st, ReturnNone)
    end.
Proof. reflexivity. Qed.

Lemma elem_of_following st entry r :
  r ∈ following st entry ↔
  r ∈ Query.all (siblings_query st entry)
  ∧ TimetableEntry.end_dt entry ≤ TimetableEntry.start_dt r.
Proof.
  unfold following, Query.all, Query.filter.
  rewrite !list_elem_of_In, filter_In, Z.leb_le. tauto.
Qed.

Lemma siblings_in_store st entry r :
  r ∈ Query.all (siblings_query st entry) → r ∈ entries st.
Proof.
  unfold Query.all, siblings_query.
  rewrite !list_elem_of_In, filter_In. tauto.
Qed.

Lemma shifted_row_id shift rows r :
  TimetableEntry.id (shifted_row shift rows r) = TimetableEntry.id r.
Proof.
  unfold shifted_row.
  destruct (List.find _ _) as [s|] eqn:Hf; [|done].
  apply find_some in Hf as [_ Hid]. simpl. lia.
Qed.

Lemma shift_all_entries shift rows st :
  entries (shift_all shift rows st) = shifted_row shift rows <$> entries st.
Proof.
  unfold shift_all. revert st.
  induction rows as [|s rows IH] using rev_ind; intros st.
  - simpl. unfold shifted_row. simpl. by rewrite list_fmap_id.
  - rewrite fold_left_app. simpl. rewrite IH, <- list_fmap_compose.
    apply list_fmap_ext. intros _ r _. simpl.
    rewrite shifted_row_id.
    unfold shifted_row at 2. rewrite rev_app_distr. simpl.
    destruct (TimetableEntry.id r =? TimetableEntry.id s) eqn:Hid.
    + apply Z.eqb_eq in Hid. rewrite Hid, Z.eqb_refl. done.
    + rewrite Z.eqb_sym, Hid. done.
Qed.

Lemma primary_key_inj rows r s :
  NoDup (TimetableEntry.id <$> rows) →
  r ∈ rows → s ∈ rows → TimetableEntry.id r = TimetableEntry.id s → r = s.
Proof. apply unique_key_inj. Qed.

Lemma shifted_row_following st entry shift r :
  NoDup (TimetableEntry.id <$> entries st) →
  r ∈ entries st →
  shifted_row shift (following st entry) r
  = if decide (r ∈ following st entry)
    then TimetableEntry.move r (TimetableEntry.start_dt r + shift) else r.
Proof.
  intros Hnd Hr. unfold shifted_row.
  destruct (List.find _ _) as [s|] eqn:Hf.
  - apply find_some in Hf as [Hs Hid].
    apply in_rev, list_elem_of_In in Hs.
    assert (s = r) as ->.
    { apply (primary_key_inj (entries st)); [done| |done|lia].
      apply elem_of_following in Hs as [Hs _]. by eapply siblings_in_store. }
    by rewrite decide_True.
  - rewrite decide_False; [done|]. intros Hin.
    apply list_elem_of_In, in_rev in Hin.
    eapply find_none in Hf; [|exact Hin]. simpl in Hf. lia.
Qed.
End Shifter.

Lemma shift_following_entries_store st entry shift session_ :
  (shift_following_entries st entry shift session_).1
  = shift_all shift (following st entry) st.
Proof.
  rewrite shift_following_entries_unfold.
  by destruct (following st entry).
Qed.

Lemma shift_following_entries_returned st entry shift session_ :
  (shift_following_entries st entry shift session_).2
  = match following st entry with
    | [] => ReturnList []
    | _ :: _ => ReturnNone
    end.
Proof.
  rewrite shift_following_entries_unfold.
  by destruct (following st entry).
Qed.

(** The session argument has no effect on the outcome. *)
Lemma shift_following_entries_session_irrelevant st entry shift session_ :
  shift_following_entries st entry shift session_
  = shift_following_entries st entry shift None.
Proof. reflexivity. Qed.

(** C2.  With the session "keynotes" given and a top-level trigger, the
    coffee break and the block of the session "posters" are moved by
    half an hour like the block of "keynotes": the narrowed query is
    built and dropped, and the entries come from the query as it was. *)
Theorem shift_following_entries_ignores_session :
  TimetableEntry.parent_id opening_entry = None
  ∧ entries (shift_following_entries workshop_store opening_entry (30 * MINUTE)
               (Some keynotes)).1
    = [opening_entry; early_entry;
       TimetableEntry.move coffee_entry (utc_at jan1 11 30);
       TimetableEntry.move posters_entry (utc_at jan1 12 0);
       TimetableEntry.move keynotes_entry (utc_at jan1 12 30)]
  ∧ TimetableEntry.type coffee_entry = BREAK
  ∧ session_block_has_session_id (Session.id keynotes) posters_entry = false.
Proof. by vm_compute. Qed.

(** C3.  Three siblings follow the trigger and are shifted, and the call
    hands back [None], not the list of them; the empty list comes back
    when nothing follows (here: after the last entry of the day). *)
Theorem shift_following_entries_returns_none :
  following workshop_store opening_entry = [coffee_entry; posters_entry; keynotes_entry]
  ∧ (shift_following_entries workshop_store opening_entry (30 * MINUTE) None).2
    = ReturnNone
  ∧ (shift_following_entries workshop_store keynotes_entry (30 * MINUTE) None).2
    = ReturnList [].
Proof. by vm_compute. Qed.

(** C4.  Whatever the trigger entry, the shift (of either sign) and the
    session argument, a sibling that starts before the end of the
    trigger stays as it is, and a sibling that starts at or after that
    end is advanced by exactly the shift and keeps its duration.  Rows
    are identified by their position in the table; primary keys are
    unique. *)
Theorem shift_following_entries_moves st entry shift session_ (i : nat) sibling :
  NoDup (TimetableEntry.id <$> entries st) →
  entries st !! i = Some sibling →
  sibling ∈ Query.all (siblings_query st entry) →
  let st' := (shift_following_entries st entry shift session_).1 in
  (TimetableEntry.start_dt sibling < TimetableEntry.end_dt entry →
   entries st' !! i = Some sibling)
  ∧ (TimetableEntry.end_dt entry ≤ TimetableEntry.start_dt sibling →
     ∃ sibling',
       entries st' !! i = Some sibling'
       ∧ TimetableEntry.id sibling' = TimetableEntry.id sibling
       ∧ TimetableEntry.start_dt sibling' = TimetableEntry.start_dt sibling + shift
       ∧ TimetableEntry.end_dt sibling' - TimetableEntry.start_dt sibling'
         = TimetableEntry.end_dt sibling - TimetableEntry.start_dt sibling).
Proof.
  intros Hnd Hi Hsib st'. subst st'.
  rewrite shift_following_entries_store, shift_all_entries, list_lookup_fmap, Hi.
  simpl. rewrite (shifted_row_following st entry shift sibling Hnd);
    [|by eapply list_elem_of_lookup_2].
  split.
  - intros Hlt. rewrite decide_False; [done|].
    rewrite elem_of_following. lia.
  - intros Hge. rewrite decide_True; [|by apply elem_of_following].
    eexists. split; [done|].
    unfold TimetableEntry.end_dt. simpl. repeat split; lia.
Qed.

(** Rows that the query does not yield, siblings or not, are left alone. *)
Lemma shift_following_entries_frame st entry shift session_ (i : nat) r :
  NoDup (TimetableEntry.id <$> entries st) →
  entries st !! i = Some r →
  r ∉ following st entry →
  entries (shift_following_entries st entry shift session_).1 !! i = Some r.
Proof.
  intros Hnd Hi Hr.
  rewrite shift_following_entries_store, shift_all_entries, list_lookup_fmap, Hi.
  simpl. rewrite (shifted_row_following st entry shift r Hnd);
    [|by eapply list_elem_of_lookup_2].
  by rewrite decide_False.
Qed.

(** The scenario of the specification, on the workshop day: the
    registration at 9:00 keeps its place and the coffee break at 11:00
    goes to 11:30, a quarter of an hour long as before. *)
Lemma shift_following_entries_moves_witness :
  entries (shift_following_entries workshop_store opening_entry (30 * MINUTE) None).1
    !! 1%nat = Some early_entry
  ∧ ∃ sibling',
      entries (shift_following_entries workshop_store opening_entry (30 * MINUTE) None).1
        !! 2%nat = Some sibling'
      ∧ TimetableEntry.id sibling' = TimetableEntry.id coffee_entry
      ∧ TimetableEntry.start_dt sibling' = TimetableEntry.start_dt coffee_entry + 30 * MINUTE
      ∧ TimetableEntry.end_dt sibling' - TimetableEntry.start_dt sibling'
        = TimetableEntry.end_dt coffee_entry - TimetableEntry.start_dt coffee_entry.
Proof.
  split.
  - apply (shift_following_entries_moves workshop_store opening_entry (30 * MINUTE) None
             1%nat early_entry).
    + apply (bool_decide_unpack _). vm_compute. exact I.
    + reflexivity.
    + apply (bool_decide_unpack _). vm_compute. exact I.
    + vm_compute. reflexivity.
  - apply (shift_following_entries_moves workshop_store opening_entry (30 * MINUTE) None
             2%nat coffee_entry).
    + apply (bool_decide_unpack _). vm_compute. exact I.
    + reflexivity.
    + apply (bool_decide_unpack _). vm_compute. exact I.
    + vm_compute. discriminate.
Defined.

(** * Properties of the notifications *)

Section NotificationsFacts.
Variable gettext : string -> string.
Variable format_time : Instant -> tzinfo -> string.
Implicit Types (st : Store) (tz : tzinfo) (entry : option TimetableEntry.t)
  (obj : Object) (change : Change) (changes : list (Object * Change)).

Lemma change_message_raises obj change :
  is_event_or_block obj = true → no_time_delta change →
  ∃ msg, change_message gettext obj change = Raise (ValueError msg).
Proof.
  intros Hobj [Hs He]. unfold change_message.
  destruct obj as [ev|[b|c|b]]; try discriminate; rewrite Hs, He; eauto.
Qed.

Lemma change_message_raise_inv obj change e :
  change_message gettext obj change = Raise e →
  (∃ msg, e = ValueError msg) ∧ is_event_or_block obj = true ∧ no_time_delta change.
Proof.
  unfold change_message, no_time_delta.
  destruct obj as [ev|[b|c|b]]; simpl;
    destruct (change !! "start_dt") as [[??]|]; try discriminate;
    destruct (change !! "end_dt") as [[??]|]; try discriminate;
    intros [= <-]; eauto.
Qed.

Lemma notifications_loop_raises st tz entry changes acc :
  (∃ obj change, (obj, change) ∈ changes ∧ skipped st entry obj = false
                 ∧ is_event_or_block obj = true ∧ no_time_delta change) →
  ∃ msg, notifications_loop gettext format_time st tz entry changes acc
         = Raise (ValueError msg).
Proof.
  revert acc. induction changes as [|[o c] changes IH]; intros acc (obj & change & Hin & Hsk & Hobj & Hno).
  - by apply elem_of_nil in Hin.
  - simpl. apply elem_of_cons in Hin as [[= <- <-] | Hin].
    + rewrite Hsk. destruct (change_message_raises obj change Hobj Hno) as [msg ->].
      simpl. eauto.
    + assert (∃ obj change, (obj, change) ∈ changes ∧ skipped st entry obj = false
                            ∧ is_event_or_block obj = true ∧ no_time_delta change) as Hex
        by eauto 10.
      destruct (skipped st entry o); [by apply IH|].
      destruct (change_message gettext o c) as [[[t new]|]|e] eqn:Hm; simpl.
      * destruct (str_bool t); by apply IH.
      * by apply IH.
      * apply change_message_raise_inv in Hm as [[msg ->] _]. eauto.
Qed.

Lemma notifications_loop_ok st tz entry changes acc :
  (∀ obj change, (obj, change) ∈ changes → skipped st entry obj = false →
                 is_event_or_block obj = true → ¬ no_time_delta change) →
  notifications_loop gettext format_time st tz entry changes acc
  = Ok (acc ++ flat_map (notification_of gettext format_time st tz entry) changes).
Proof.
  revert acc. induction changes as [|[o c] changes IH]; intros acc Hall; simpl.
  - by rewrite app_nil_r.
  - assert (∀ obj change, (obj, change) ∈ changes → skipped st entry obj = false →
                          is_event_or_block obj = true → ¬ no_time_delta change) as Hrest.
    { intros obj change Hin. apply Hall. by apply list_elem_of_further. }
    unfold notification_of at 1. simpl.
    destruct (skipped st entry o) eqn:Hsk; [by apply IH|].
    destruct (change_message gettext o c) as [[[t new]|]|e] eqn:Hm; simpl.
    + destruct (str_bool t); rewrite IH by done; [|done].
      by rewrite <- app_assoc.
    + by apply IH.
    + apply change_message_raise_inv in Hm as (_ & Hobj & Hno).
      destruct (Hall o c); [apply list_elem_of_here|done..].
Qed.
End NotificationsFacts.

(** C9 (as stated, refuted).  The record of the opening contribution has
    neither delta and the call returns normally, with no message. *)
Lemma get_time_changes_notifications_contribution_ok :
  no_time_delta opening_change.2
  ∧ get_time_changes_notifications no_translation clock_time workshop_store
      [opening_change] utc None = Ok [].
Proof. split; [by split|]. by vm_compute. Qed.

(** C9 (amended).  If some changed object that is an Event or a
    SessionBlock, and is not skipped, has a record with neither a
    start_dt nor an end_dt delta, the call raises a validation failure.
    Otherwise it returns the messages of the changed objects in their
    order, where an object contributes nothing if it is the object of
    the entry argument or is scheduled by a child of that entry, and
    nothing if it is neither an Event nor a SessionBlock, whatever its
    record holds. *)
Theorem get_time_changes_notifications_spec gettext format_time st changes tz entry :
  ((∃ obj change, (obj, change) ∈ changes ∧ skipped st entry obj = false
                  ∧ is_event_or_block obj = true ∧ no_time_delta change) →
   ∃ msg, get_time_changes_notifications gettext format_time st changes tz entry
          = Raise (ValueError msg))
  ∧ ((∀ obj change, (obj, change) ∈ changes → skipped st entry obj = false →
                    is_event_or_block obj = true → ¬ no_time_delta change) →
     get_time_changes_notifications gettext format_time st changes tz entry
     = Ok (flat_map (notification_of gettext format_time st tz entry) changes))
  ∧ (∀ obj change,
       skipped st entry obj = true ∨ is_event_or_block obj = false →
       notification_of gettext format_time st tz entry (obj, change) = []).
Proof.
  split; [|split].
  - apply notifications_loop_raises.
  - intros Hall. unfold get_time_changes_notifications.
    by rewrite notifications_loop_ok.
  - intros obj change [Hsk | Hobj]; unfold notification_of; simpl.
    + by rewrite Hsk.
    + destruct (skipped st entry obj); [done|].
      by destruct obj as [ev|[b|c|b]].
Qed.

Lemma get_time_changes_notifications_spec_witness :
  (∃ msg, get_time_changes_notifications no_translation clock_time workshop_store
            [opening_change; keynotes_bad_change] utc None = Raise (ValueError msg))
  ∧ get_time_changes_notifications no_translation clock_time workshop_store
      [opening_change; keynotes_change] utc None
    = Ok ["Session block start time changed to 11:00"]
  ∧ notification_of no_translation clock_time workshop_store utc (Some keynotes_entry)
      keynotes_change = [].
Proof.
  pose proof (get_time_changes_notifications_spec no_translation clock_time workshop_store)
    as Hspec.
  split; [|split].
  - apply (proj1 (Hspec [opening_change; keynotes_bad_change] utc None)).
    exists keynotes_bad_change.1, keynotes_bad_change.2.
    split; [|split; [|split; [|split]]]; try reflexivity.
    apply list_elem_of_further, list_elem_of_here.
  - rewrite (proj1 (proj2 (Hspec [opening_change; keynotes_change] utc None))).
    + vm_compute. reflexivity.
    + intros obj change Hin _ Hobj [Hs _].
      apply elem_of_cons in Hin as [[= -> ->] | Hin]; [discriminate|].
      apply list_elem_of_singleton in Hin as [= -> ->].
      vm_compute in Hs. discriminate.
  - apply (proj2 (proj2 (Hspec [] utc (Some keynotes_entry)))).
    left. vm_compute. reflexivity.
Defined.

(** * Properties of the location conditions *)

Section LocationConditions.
Implicit Types (st : Store) (entry : TimetableEntry.t) (es : list TimetableEntry.t).

Lemma show_children_location_lookup st es (d : gmap Z bool) k :
  foldl (fun (d : gmap Z bool) entry =>
           <[TimetableEntry.id entry :=
               negb (forallb (fun child =>
                                object_inherit_location (TimetableEntry.object child))
                             (children st entry))]> d) d es !! k
  = if decide (k ∈ TimetableEntry.id <$> es) then Some (children_flag st k) else d !! k.
Proof.
  revert d. induction es as [|e es IH]; intros d; cbn [foldl].
  - rewrite decide_False; [done|]. apply not_elem_of_nil.
  - rewrite IH, fmap_cons.
    destruct (decide (k ∈ TimetableEntry.id <$> es)) as [Hin|Hout].
    + rewrite decide_True; [done|]. by apply list_elem_of_further.
    + destruct (decide (k = TimetableEntry.id e)) as [->|Hne].
      * rewrite lookup_insert_eq, decide_True; [|apply list_elem_of_here].
        unfold children_flag. by fold (children st e).
      * rewrite lookup_insert_ne by done.
        rewrite decide_False; [done|]. rewrite elem_of_cons. tauto.
Qed.

Lemma children_flag_true st entry :
  children_flag st (TimetableEntry.id entry) = true ↔ child_discloses_location st entry.
Proof.
  unfold children_flag, child_discloses_location.
  fold (children st entry).
  rewrite negb_true_iff, <- not_true_iff_false, forallb_forall.
  split.
  - intros Hnot.
    induction (children st entry) as [|c cs IH].
    + exfalso. apply Hnot. intros x [].
    + destruct (object_inherit_location (TimetableEntry.object c)) eqn:Hc.
      * destruct IH as (child & Hin & Hch).
        { intros Hall. apply Hnot. intros x [<- | Hx]; [done|]. by apply Hall. }
        exists child. split; [by apply list_elem_of_further|done].
      * exists c. split; [apply list_elem_of_here|done].
  - intros (child & Hin & Hch) Hall.
    apply list_elem_of_In, Hall in Hin. congruence.
Qed.

Lemma discloses_location_bool entry :
  negb (object_inherit_location (TimetableEntry.object entry))
  || (TypeEq (TimetableEntry.type entry) SESSION_BLOCK
      && object_inherit_location (TimetableEntry.object entry)
      && negb (match TimetableEntry.object entry with
               | OBlock b => Session.inherit_location (SessionBlock.session b)
               | _ => true
               end)) = true
  ↔ discloses_location entry.
Proof.
  unfold discloses_location, TimetableEntry.type.
  destruct (TimetableEntry.object entry) as [b|c|b]; simpl.
  - destruct (SessionBlock.inherit_location b) eqn:Hb; simpl.
    + rewrite negb_true_iff. split.
      * intros Hs. right. exists b. by rewrite Hb.
      * intros [?|(b' & [= <-] & _ & _ & Hs)]; [done|]. done.
    + split; [by left|done].
  - rewrite orb_false_r, negb_true_iff. split; [by left|].
    intros [?|(b' & ? & _)]; [done|discriminate].
  - rewrite orb_false_r, negb_true_iff. split; [by left|].
    intros [?|(b' & ? & _)]; [done|discriminate].
Qed.
End LocationConditions.

(** C10.  [show_siblings_location] is true exactly when some entry of
    the list does not inherit its location or is a session block that
    inherits it from a session which does not; and for every entry of
    the list the mapping holds, under the entry's id, a flag that is true
    exactly when some direct child of the entry does not inherit its
    location (so false when the entry has no child). *)
Theorem get_nested_timetable_location_conditions_spec st (es : list TimetableEntry.t) :
  ((get_nested_timetable_location_conditions st es).1 = true
   ↔ ∃ entry, entry ∈ es ∧ discloses_location entry)
  ∧ (∀ entry, entry ∈ es →
       ∃ flag, (get_nested_timetable_location_conditions st es).2
                 !! TimetableEntry.id entry = Some flag
               ∧ (flag = true ↔ child_discloses_location st entry))
  ∧ (∀ entry, entry ∈ es → children st entry = [] →
       (get_nested_timetable_location_conditions st es).2
         !! TimetableEntry.id entry = Some false).
Proof.
  unfold get_nested_timetable_location_conditions. simpl.
  split; [|split].
  - rewrite existsb_exists. split.
    + intros (entry & Hin & Hb). exists entry.
      split; [by apply list_elem_of_In|by apply discloses_location_bool].
    + intros (entry & Hin & Hd). exists entry.
      split; [by apply list_elem_of_In|by apply discloses_location_bool].
  - intros entry Hin. rewrite show_children_location_lookup.
    rewrite decide_True by (by apply list_elem_of_fmap_2).
    eexists. split; [done|]. apply children_flag_true.
  - intros entry Hin Hnone. rewrite show_children_location_lookup.
    rewrite decide_True by (by apply list_elem_of_fmap_2).
    unfold children_flag. fold (children st entry). by rewrite Hnone.
Qed.

Lemma get_nested_timetable_location_conditions_spec_witness :
  (get_nested_timetable_location_conditions rooms_store [room_block_entry; lunch_entry]).1
  = true
  ∧ (∃ flag, (get_nested_timetable_location_conditions rooms_store
                [room_block_entry; lunch_entry]).2 !! 30 = Some flag
             ∧ (flag = true ↔ child_discloses_location rooms_store room_block_entry))
  ∧ (get_nested_timetable_location_conditions rooms_store
       [room_block_entry; lunch_entry]).2 !! 32 = Some false.
Proof.
  pose proof (get_nested_timetable_location_conditions_spec rooms_store
                [room_block_entry; lunch_entry]) as (Hsib & Hflag & Hnone).
  split; [|split].
  - apply Hsib. exists room_block_entry.
    split; [apply list_elem_of_here|]. left. reflexivity.
  - apply (Hflag room_block_entry). apply list_elem_of_here.
  - apply (Hnone lunch_entry).
    + apply list_elem_of_further, list_elem_of_here.
    + vm_compute. reflexivity.
Defined.

(** * Properties of the ordering of the nested timetable *)

Section StableSortFacts.
Context {A : Type}.
Implicit Types (R : A -> A -> bool) (x y z : A) (l : list A).

Lemma ranking_trans R x y z :
  Ranking R → R x y = true → R y z = true → R x z = true.
Proof.
  intros HR Hxy Hyz.
  destruct (ranking_split R HR x z y Hxy) as [H|H]; [done|].
  apply (ranking_asym R HR) in H. congruence.
Qed.

Lemma in_order_trans R x y z :
  Ranking R → in_order R x y → in_order R y z → in_order R x z.
Proof.
  unfold in_order. intros HR Hxy Hyz.
  destruct (R z x) eqn:Hzx; [|done].
  destruct (ranking_split R HR z y x Hzx); congruence.
Qed.

Lemma sort_insert_perm R x l : sort_insert R x l ≡ₚ x :: l.
Proof.
  induction l as [|y l IH]; simpl; [done|].
  destruct (R y x); [|done].
  rewrite IH. apply Permutation_swap.
Qed.

Lemma stable_sort_perm R l : stable_sort R l ≡ₚ l.
Proof.
  induction l as [|x l IH]; simpl; [done|].
  by rewrite sort_insert_perm, IH.
Qed.

Lemma sort_insert_sorted R x l :
  Ranking R →
  StronglySorted (in_order R) l → StronglySorted (in_order R) (sort_insert R x l).
Proof.
  intros HR. induction l as [|y l IH]; simpl; intros Hs.
  - repeat constructor.
  - apply StronglySorted_inv in Hs as [Hs Hy].
    destruct (R y x) eqn:Hyx.
    + constructor; [by apply IH|].
      rewrite sort_insert_perm. constructor; [|done].
      by apply (ranking_asym R HR).
    + constructor; [by constructor|].
      constructor; [done|].
      eapply Forall_impl; [exact Hy|]. intros z Hz.
      by apply (in_order_trans R x y z).
Qed.

Lemma stable_sort_sorted R l :
  Ranking R → StronglySorted (in_order R) (stable_sort R l).
Proof.
  intros HR. induction l as [|x l IH]; simpl; [constructor|].
  by apply sort_insert_sorted.
Qed.

Lemma sort_insert_ext R R' x l :
  (∀ z, z ∈ l → R z x = R' z x) → sort_insert R x l = sort_insert R' x l.
Proof.
  induction l as [|y l IH]; simpl; intros Hext; [done|].
  rewrite <- (Hext y) by apply list_elem_of_here.
  destruct (R y x); [|done].
  f_equal. apply IH. intros z Hz. apply Hext. by apply list_elem_of_further.
Qed.

Lemma stable_sort_ext R R' l :
  (∀ x y, R x y = R' x y) → stable_sort R l = stable_sort R' l.
Proof.
  intros Hext. induction l as [|x l IH]; simpl; [done|].
  rewrite IH. apply sort_insert_ext. auto.
Qed.

(** Two insertions commute when one element goes strictly before the
    other. *)
Lemma sort_insert_comm R x y l :
  Ranking R → R x y = true →
  sort_insert R x (sort_insert R y l) = sort_insert R y (sort_insert R x l).
Proof.
  intros HR Hxy.
  pose proof (ranking_asym R HR x y Hxy) as Hyx.
  induction l as [|z l IH]; simpl.
  - by rewrite Hyx, Hxy.
  - destruct (R z y) eqn:Hzy; simpl.
    + destruct (R z x) eqn:Hzx; simpl.
      * by rewrite Hzy, IH.
      * by rewrite Hxy, Hzy.
    + rewrite Hyx.
      destruct (R z x) eqn:Hzx; simpl.
      * rewrite (ranking_trans R z x y) in Hzy by done. done.
      * by rewrite Hxy, Hzy.
Qed.

Lemma lex_before_ranking R1 R2 :
  Ranking R1 → Ranking R2 → Ranking (lex_before R1 R2).
Proof.
  intros H1 H2. unfold lex_before. split.
  - intros x y Hxy.
    destruct (R1 x y) eqn:Hx.
    + by rewrite (ranking_asym R1 H1 x y Hx).
    + simpl in Hxy. apply andb_true_iff in Hxy as [Hn Hr].
      apply negb_true_iff in Hn. rewrite Hn. simpl.
      apply (ranking_asym R2 H2 x y Hr).
  - intros x y z Hxz.
    destruct (R1 x y) eqn:Hxy; [by left|].
    destruct (R1 y z) eqn:Hyz; [by right|].
    simpl.
    destruct (R1 x z) eqn:Hx.
    + destruct (ranking_split R1 H1 x y z Hx); congruence.
    + simpl in Hxz. apply andb_true_iff in Hxz as [Hn Hr].
      apply negb_true_iff in Hn.
      assert (R1 y x = false) as ->.
      { destruct (R1 y x) eqn:Hyx; [|done].
        destruct (ranking_split R1 H1 y z x Hyx); congruence. }
      assert (R1 z y = false) as ->.
      { destruct (R1 z y) eqn:Hzy; [|done].
        destruct (ranking_split R1 H1 z x y Hzy); congruence. }
      simpl. apply (ranking_split R2 H2 x y z Hr).
Qed.

(** Where the second relation puts nothing in front of [x], inserting
    [x] by the first relation alone or by the combination is the same. *)
Lemma sort_insert_lex R1 R2 x l :
  (∀ z, z ∈ l → R2 z x = false) →
  sort_insert R1 x l = sort_insert (lex_before R1 R2) x l.
Proof.
  intros Hl. apply sort_insert_ext. intros z Hz.
  unfold lex_before. rewrite (Hl z Hz).
  by rewrite andb_false_r, orb_false_r.
Qed.

Lemma stable_sort_insert_lex R1 R2 x l :
  Ranking R1 → Ranking R2 →
  StronglySorted (in_order R2) l →
  stable_sort R1 (sort_insert R2 x l)
  = sort_insert (lex_before R1 R2) x (stable_sort R1 l).
Proof.
  intros H1 H2. induction l as [|y l IH]; simpl; intros Hs; [done|].
  apply StronglySorted_inv in Hs as [Hs Hy].
  destruct (R2 y x) eqn:Hyx; simpl.
  - rewrite IH by done.
    assert (∀ z, z ∈ stable_sort R1 l → R2 z y = false) as Hbelow.
    { intros z Hz. rewrite stable_sort_perm in Hz.
      by apply (proj1 (Forall_forall _ _) Hy). }
    rewrite (sort_insert_lex R1 R2 y (stable_sort R1 l)) by done.
    rewrite (sort_insert_lex R1 R2 y (sort_insert _ x _)).
    + assert (lex_before R1 R2 y x = true ∨ lex_before R1 R2 x y = true) as [Hb|Hb].
      { unfold lex_before. rewrite Hyx.
        destruct (R1 y x) eqn:Ha; [by left|].
        destruct (R1 x y) eqn:Hb; [by right|]. by left. }
      * by apply sort_insert_comm; [apply lex_before_ranking|].
      * symmetry. by apply sort_insert_comm; [apply lex_before_ranking|].
    + intros z Hz. rewrite sort_insert_perm in Hz.
      apply elem_of_cons in Hz as [-> | Hz]; [|by apply Hbelow].
      by apply (ranking_asym R2 H2).
  - apply sort_insert_lex. intros z Hz.
    rewrite sort_insert_perm, stable_sort_perm in Hz.
    apply elem_of_cons in Hz as [-> | Hz]; [done|].
    apply (in_order_trans R2 x y z); [done..|].
    by apply (proj1 (Forall_forall _ _) Hy).
Qed.

(** A stable sort by the second relation followed by a stable sort by
    the first is the stable sort by their combination. *)
Lemma stable_sort_two_pass R1 R2 l :
  Ranking R1 → Ranking R2 →
  stable_sort R1 (stable_sort R2 l) = stable_sort (lex_before R1 R2) l.
Proof.
  intros H1 H2. induction l as [|x l IH]; simpl; [done|].
  rewrite stable_sort_insert_lex by (done || by apply stable_sort_sorted).
  by rewrite IH.
Qed.
End StableSortFacts.

Section NestedOrder.
Implicit Types (x y e : TimetableEntry.t) (es : list TimetableEntry.t) (a b c : string).

Lemma str_ltb_not_le a b : String.ltb a b = true ↔ ¬ (b ≤ a)%string.
Proof.
  unfold String.le, String.ltb, String.leb.
  rewrite (String.compare_antisym a b).
  destruct (String.compare b a); simpl; naive_solver.
Qed.

Lemma str_ltb_false_le a b : String.ltb a b = false ↔ (b ≤ a)%string.
Proof.
  rewrite <- not_true_iff_false, str_ltb_not_le.
  destruct (decide (b ≤ a)%string); naive_solver.
Qed.

Lemma str_ltb_irrefl a : String.ltb a a = false.
Proof. by apply str_ltb_false_le. Qed.

Lemma str_ltb_connex a b : a ≠ b → String.ltb b a = negb (String.ltb a b).
Proof.
  intros Hne. destruct (String.ltb a b) eqn:Hab; simpl.
  - apply str_ltb_false_le. apply str_ltb_not_le in Hab.
    by destruct (total String.le a b).
  - apply str_ltb_false_le in Hab. apply str_ltb_not_le. intros Hba.
    apply Hne. by apply (anti_symm String.le).
Qed.

Lemma Z_ltb_ranking : Ranking Z.ltb.
Proof.
  split.
  - intros x y. rewrite Z.ltb_lt, Z.ltb_ge. lia.
  - intros x y z. rewrite !Z.ltb_lt. lia.
Qed.

Lemma str_ltb_ranking : Ranking String.ltb.
Proof.
  split.
  - intros a b Hab. apply str_ltb_false_le. apply str_ltb_not_le in Hab.
    by destruct (total String.le a b).
  - intros a b c Hac.
    destruct (String.ltb a b) eqn:Hab; [by left|]. right.
    apply str_ltb_false_le in Hab. apply str_ltb_not_le. intros Hcb.
    apply str_ltb_not_le in Hac. apply Hac. by etrans.
Qed.

Lemma ranking_on_key {A K : Type} (R : K -> K -> bool) (key : A -> K) :
  Ranking R → Ranking (fun u v : A => R (key u) (key v)).
Proof.
  intros HR. split.
  - intros u v. apply (ranking_asym R HR).
  - intros u v w. apply (ranking_split R HR).
Qed.

Lemma ranking_reversed {A : Type} (R : A -> A -> bool) :
  Ranking R → Ranking (fun u v : A => R v u).
Proof.
  intros HR. split.
  - intros u v. apply (ranking_asym R HR).
  - intros u v w Hwu. destruct (ranking_split R HR w v u Hwu); auto.
Qed.

Lemma ranking_ext {A : Type} (R R' : A -> A -> bool) :
  (∀ u v : A, R u v = R' u v) → Ranking R → Ranking R'.
Proof.
  intros Hext HR. split.
  - intros u v. rewrite <- !Hext. apply (ranking_asym R HR).
  - intros u v w. rewrite <- !Hext. apply (ranking_split R HR).
Qed.

(** The tuple comparison is the combination of the comparisons of its
    positions. *)
Lemma key_before_lex y x :
  key_before y x
  = lex_before (fun y x => TimetableEntry.start_dt y <? TimetableEntry.start_dt x)
      (lex_before
         (fun y x => String.ltb (_entry_title_key y).1 (_entry_title_key x).1)
         (fun y x => String.ltb (_entry_title_key y).2 (_entry_title_key x).2)) y x.
Proof.
  unfold key_before, sort_key_lt, nested_sort_key, lex_before.
  destruct (Z.eqb_spec (TimetableEntry.start_dt y) (TimetableEntry.start_dt x)) as [->|Hs];
    simpl.
  - rewrite Z.ltb_irrefl. simpl.
    destruct (String.eqb_spec (_entry_title_key y).1 (_entry_title_key x).1) as [->|Hc];
      simpl.
    + by rewrite str_ltb_irrefl.
    + rewrite (str_ltb_connex _ _ Hc).
      by destruct (String.ltb (_entry_title_key y).1 (_entry_title_key x).1).
  - destruct (Z.ltb_spec (TimetableEntry.start_dt y) (TimetableEntry.start_dt x)); simpl;
      [done|].
    destruct (Z.ltb_spec (TimetableEntry.start_dt x) (TimetableEntry.start_dt y)); simpl;
      [done|lia].
Qed.

Lemma key_before_ranking : Ranking key_before.
Proof.
  eapply ranking_ext; [intros x y; symmetry; apply key_before_lex|].
  apply lex_before_ranking; [|apply lex_before_ranking].
  - apply (ranking_on_key Z.ltb TimetableEntry.start_dt), Z_ltb_ranking.
  - apply (ranking_on_key String.ltb (fun e => (_entry_title_key e).1)), str_ltb_ranking.
  - apply (ranking_on_key String.ltb (fun e => (_entry_title_key e).2)), str_ltb_ranking.
Qed.

Lemma later_end_before_ranking : Ranking later_end_before.
Proof.
  apply (ranking_reversed (fun y x => TimetableEntry.end_dt y <? TimetableEntry.end_dt x)).
  apply (ranking_on_key Z.ltb TimetableEntry.end_dt), Z_ltb_ranking.
Qed.

Lemma single_sort_before_lex y x :
  single_sort_before y x = lex_before key_before later_end_before y x.
Proof.
  unfold single_sort_before, lex_before, key_before, later_end_before, sort_key_lt,
    nested_sort_key.
  destruct (_entry_title_key y) as [c1 t1], (_entry_title_key x) as [c2 t2]. simpl.
  destruct (Z.eqb_spec (TimetableEntry.start_dt y) (TimetableEntry.start_dt x)) as [->|Hs];
    simpl.
  - rewrite Z.eqb_refl. simpl.
    destruct (String.eqb_spec c1 c2) as [->|Hc]; simpl.
    + rewrite String.eqb_refl. simpl.
      destruct (String.eqb_spec t1 t2) as [->|Ht]; simpl.
      * by rewrite str_ltb_irrefl.
      * rewrite (str_ltb_connex _ _ Ht). by destruct (String.ltb t1 t2).
    + rewrite String.eqb_sym. destruct (String.eqb_spec c1 c2) as [|_]; [done|]. simpl.
      rewrite (str_ltb_connex _ _ Hc). by destruct (String.ltb c1 c2).
  - rewrite Z.eqb_sym.
    destruct (Z.eqb_spec (TimetableEntry.start_dt y) (TimetableEntry.start_dt x)); [done|].
    simpl.
    destruct (Z.ltb_spec (TimetableEntry.start_dt y) (TimetableEntry.start_dt x)); simpl;
      [done|].
    destruct (Z.ltb_spec (TimetableEntry.start_dt x) (TimetableEntry.start_dt y)); simpl;
      [done|lia].
Qed.

Lemma sort_nested_entries_unfold es :
  sort_nested_entries es = stable_sort key_before (stable_sort later_end_before es).
Proof. reflexivity. Qed.

Lemma strongly_sorted_consecutive {A : Type} (P : A -> A -> Prop) (l : list A) (i : nat) u v :
  StronglySorted P l → l !! i = Some u → l !! S i = Some v → P u v.
Proof.
  intros Hs. revert i. induction Hs as [|w l Hs IH Hw]; intros i Hu Hv; [done|].
  destruct i as [|i]; simpl in *.
  - injection Hu as ->.
    apply (proj1 (Forall_forall _ _) Hw). by eapply list_elem_of_lookup_2.
  - by eapply IH.
Qed.

Lemma key_before_false y x :
  key_before x y = false →
  TimetableEntry.start_dt y ≤ TimetableEntry.start_dt x
  ∧ (TimetableEntry.start_dt y = TimetableEntry.start_dt x →
     title_key_lt (_entry_title_key x) (_entry_title_key y) = false).
Proof.
  unfold key_before, sort_key_lt, nested_sort_key, title_key_lt.
  destruct (Z.eqb_spec (TimetableEntry.start_dt x) (TimetableEntry.start_dt y)) as [->|Hs];
    simpl.
  - intros Hk. split; [lia|]. intros _. done.
  - rewrite Z.ltb_ge. intros Hk. split; [lia|]. intros Heq. by destruct Hs.
Qed.
End NestedOrder.

Lemma two_pass_single_sort (es : list TimetableEntry.t) :
  sort_nested_entries es = single_sort es.
Proof.
  rewrite sort_nested_entries_unfold.
  rewrite (stable_sort_two_pass key_before later_end_before)
    by (apply key_before_ranking || apply later_end_before_ranking).
  unfold single_sort. apply stable_sort_ext.
  intros x y. symmetry. apply single_sort_before_lex.
Qed.

(** C7.  For every list of entries the two passes (a stable sort by
    end_dt, descending, then a stable sort by (start_dt, title key),
    ascending) give the list that one stable sort by the key (start_dt,
    title key, end_dt descending) gives.  The output is a rearrangement
    of the input in which no entry has to come strictly before an
    earlier one in that key, and for two consecutive output entries
    e1, e2: e1.start_dt ≤ e2.start_dt and, when the two are equal, the
    title key of e2 is not smaller than that of e1. *)
Theorem sort_nested_entries_single_sort (es : list TimetableEntry.t) :
  sort_nested_entries es = single_sort es
  ∧ sort_nested_entries es ≡ₚ es
  ∧ StronglySorted (in_order single_sort_before) (sort_nested_entries es)
  ∧ (∀ (i : nat) e1 e2,
       sort_nested_entries es !! i = Some e1 →
       sort_nested_entries es !! S i = Some e2 →
       TimetableEntry.start_dt e1 ≤ TimetableEntry.start_dt e2
       ∧ (TimetableEntry.start_dt e1 = TimetableEntry.start_dt e2 →
          title_key_lt (_entry_title_key e2) (_entry_title_key e1) = false)).
Proof.
  pose proof (two_pass_single_sort es) as Heq.
  split; [done|]. split; [|split].
  - rewrite sort_nested_entries_unfold. by rewrite !stable_sort_perm.
  - rewrite Heq. apply stable_sort_sorted.
    eapply ranking_ext; [intros x y; symmetry; apply single_sort_before_lex|].
    apply lex_before_ranking; [apply key_before_ranking|apply later_end_before_ranking].
  - intros i e1 e2 H1 H2. apply key_before_false.
    apply (strongly_sorted_consecutive (in_order key_before) (sort_nested_entries es) i);
      [|done..].
    rewrite sort_nested_entries_unfold. apply stable_sort_sorted, key_before_ranking.
Qed.

(** Entries that start together: the break (empty session code) goes
    first, and of the two blocks with equal title keys the one that ends
    later goes first. *)
Lemma sort_nested_entries_single_sort_witness :
  sort_nested_entries tie_entries
  = [tie_early_entry; tie_break_entry; tie_long_entry; tie_short_entry]
  ∧ TimetableEntry.start_dt tie_break_entry ≤ TimetableEntry.start_dt tie_long_entry
  ∧ (TimetableEntry.start_dt tie_break_entry = TimetableEntry.start_dt tie_long_entry →
     title_key_lt (_entry_title_key tie_long_entry) (_entry_title_key tie_break_entry)
     = false).
Proof.
  split; [vm_compute; reflexivity|].
  apply (proj2 (proj2 (proj2 (sort_nested_entries_single_sort tie_entries))) 1%nat).
  - vm_compute. reflexivity.
  - vm_compute. reflexivity.
Defined.

(** The list [get_nested_timetable] returns is ordered in this way. *)
Lemma get_nested_timetable_single_sort isoformat str can_access st event include_notes
    show_date show_session detail_level :
  ∃ selected,
    get_nested_timetable isoformat str can_access st event include_notes show_date
      show_session detail_level = single_sort selected
    ∧ ∀ e, e ∈ selected ↔
           e ∈ entries st ∧ TimetableEntry.event_id e = Event.id event
           ∧ TimetableEntry.parent_id e = None
           ∧ nested_timetable_keeps isoformat str can_access event show_date show_session
               detail_level e = true.
Proof.
  eexists. split.
  - unfold get_nested_timetable. apply two_pass_single_sort.
  - intros e. unfold timetable_entries.
    rewrite list_elem_of_In, filter_In, <- list_elem_of_In, !list_elem_of_filter. tauto.
Qed.

(** * Properties of the category timetable aggregator *)

Section FlatValues.
Context `{Countable K} {X V : Type}.
Implicit Types (f : X -> list V) (m : gmap K X) (k : K) (v : V).

Lemma elem_of_flat_values f m v :
  v ∈ flat_values f m ↔ ∃ k x, m !! k = Some x ∧ v ∈ f x.
Proof.
  unfold flat_values. rewrite list_elem_of_bind. split.
  - intros ([k x] & Hv & Hin). apply elem_of_map_to_list in Hin. eauto.
  - intros (k & x & Hl & Hv). exists (k, x).
    split; [done|]. by apply elem_of_map_to_list.
Qed.

Lemma flat_values_empty f : flat_values f (∅ : gmap K X) = [].
Proof. unfold flat_values. by rewrite map_to_list_empty. Qed.

(** Updating one entry, created from [x0] when absent, by a function
    that adds the value [v]. *)
Lemma elem_of_flat_values_update f (upd : X -> X) (x0 : X) k m v v' :
  (∀ u, u ∉ f x0) →
  (∀ x u, u ∈ f (upd x) ↔ u = v ∨ u ∈ f x) →
  v' ∈ flat_values f (<[k := upd (default x0 (m !! k))]> m)
  ↔ v' = v ∨ v' ∈ flat_values f m.
Proof.
  intros Hx0 Hupd. rewrite !elem_of_flat_values. split.
  - intros (k' & x & Hl & Hv).
    destruct (decide (k = k')) as [<-|Hne].
    + rewrite lookup_insert_eq in Hl. injection Hl as <-.
      apply Hupd in Hv as [Hv|Hv]; [by left|]. right.
      destruct (m !! k) as [y|] eqn:Hk; simpl in Hv; [eauto|].
      by apply Hx0 in Hv.
    + rewrite lookup_insert_ne in Hl by done. eauto.
  - intros [->|(k' & x & Hl & Hv)].
    + exists k, (upd (default x0 (m !! k))).
      rewrite lookup_insert_eq. split; [done|]. apply Hupd. by left.
    + destruct (decide (k = k')) as [<-|Hne].
      * exists k, (upd (default x0 (m !! k))).
        rewrite lookup_insert_eq. split; [done|].
        apply Hupd. right. by rewrite Hl.
      * exists k', x. by rewrite lookup_insert_ne.
Qed.
End FlatValues.

Section Details.
Implicit Types (o : EntryObject) (row : TimetableEntry.t * EntryObject).

Lemma elem_of_append_at_values `{Countable K} {V W : Type} (g : V -> W) (k : K) (v : V)
    (d : gmap K (list V)) (w : W) :
  w ∈ flat_values (fmap g) (append_at k v d) ↔ w = g v ∨ w ∈ flat_values (fmap g) d.
Proof.
  unfold append_at.
  apply (elem_of_flat_values_update (fmap g) (fun l => l ++ [v]) [] k d (g v) w).
  - intros u. simpl. apply not_elem_of_nil.
  - intros l u. rewrite fmap_app, elem_of_app. simpl.
    rewrite list_elem_of_singleton. tauto.
Qed.

Lemma elem_of_add_grouped event_id key start_date row (details : GroupedDetails) o :
  o ∈ grouped_objects (add_grouped event_id key start_date row details)
  ↔ o = row.2 ∨ o ∈ grouped_objects details.
Proof.
  unfold grouped_objects, add_grouped.
  apply (elem_of_flat_values_update (flat_values (flat_values (fmap snd)))
           (fun per_event =>
              <[key := append_at start_date row (default ∅ (per_event !! key))]> per_event)
           ∅ event_id details row.2 o).
  - intros u. rewrite flat_values_empty. apply not_elem_of_nil.
  - intros per_event u.
    apply (elem_of_flat_values_update (flat_values (fmap snd))
             (append_at start_date row) ∅ key per_event row.2 u).
    + intros u'. rewrite flat_values_empty. apply not_elem_of_nil.
    + intros by_date u'. apply elem_of_append_at_values.
Qed.

Lemma elem_of_add_flat event_id key obj (details : FlatDetails) o :
  o ∈ flat_objects (add_flat event_id key obj details)
  ↔ o = obj ∨ o ∈ flat_objects details.
Proof.
  unfold flat_objects, add_flat.
  apply (elem_of_flat_values_update (flat_values id) (append_at key obj) ∅
           event_id details obj o).
  - intros u. rewrite flat_values_empty. apply not_elem_of_nil.
  - intros per_event u. unfold append_at.
    apply (elem_of_flat_values_update id (fun l => l ++ [obj]) [] key per_event obj u).
    + intros u'. apply not_elem_of_nil.
    + intros l u'. simpl. rewrite elem_of_app, list_elem_of_singleton. tauto.
Qed.

(** A loop that adds one value per row collects the values of the rows. *)
Lemma foldl_collects {S R V : Type} (members : S -> list V) (step : S -> R -> S)
    (val : R -> V) (l : list R) (s : S) (v : V) :
  (∀ s r u, u ∈ members (step s r) ↔ u = val r ∨ u ∈ members s) →
  v ∈ members (foldl step s l) ↔ v ∈ members s ∨ ∃ r, r ∈ l ∧ v = val r.
Proof.
  intros Hstep. revert s. induction l as [|r l IH]; intros s; simpl.
  - split; [by left|]. intros [?|(r & Hr & _)]; [done|]. by apply elem_of_nil in Hr.
  - rewrite IH, Hstep. split.
    + intros [[->|?]|(r' & Hr & ->)]; [right|by left|right].
      * exists r. split; [apply list_elem_of_here|done].
      * exists r'. split; [by apply list_elem_of_further|done].
    + intros [?|(r' & Hr & ->)]; [by left; right|].
      apply elem_of_cons in Hr as [->|Hr]; [by left; left|].
      right. eauto.
Qed.
End Details.

Section EventRows.
Implicit Types (st : Store) (ev : Event.t) (q : list Event.t) (i : Z) (t : Instant)
  (items : Items) (rows : list (Z * option Instant)).

Lemma overlapping_entries_id st ds de ev ev' :
  Event.id ev = Event.id ev' →
  overlapping_entries st ds de ev = overlapping_entries st ds de ev'.
Proof. unfold overlapping_entries, timetable_entries. by intros ->. Qed.

Lemma stable_sort_nil_inv {A : Type} (R : A -> A -> bool) (l : list A) :
  stable_sort R l = [] → l = [].
Proof.
  intros Hnil. apply Permutation_nil_r. rewrite <- Hnil.
  symmetry. apply stable_sort_perm.
Qed.

Lemma remove_dups_nil_inv (l : list Z) : remove_dups l = [] → l = [].
Proof.
  destruct l as [|x l]; [done|]. intros Hnil.
  assert (x ∈ remove_dups (x :: l)) as Hx
    by (apply elem_of_remove_dups, list_elem_of_here).
  rewrite Hnil in Hx. by apply elem_of_nil in Hx.
Qed.

Lemma event_rows_inv st ds de q i r :
  (i, r) ∈ event_query_rows st ds de q →
  ∃ ev, ev ∈ q ∧ Event.id ev = i
        ∧ match r with
          | None => overlapping_entries st ds de ev = []
          | Some t =>
              ∃ en, en ∈ overlapping_entries st ds de ev ∧ TimetableEntry.start_dt en = t
          end.
Proof.
  unfold event_query_rows. rewrite list_elem_of_In, in_flat_map.
  intros (ev & Hev & Hrow). exists ev.
  apply list_elem_of_In in Hev. rewrite stable_sort_perm in Hev.
  apply list_elem_of_In in Hrow.
  destruct (stable_sort Z.ltb _) as [|s starts] eqn:Hstarts.
  - apply list_elem_of_singleton in Hrow as [= -> ->].
    repeat split; [done|].
    apply stable_sort_nil_inv, remove_dups_nil_inv in Hstarts.
    by apply fmap_nil_inv in Hstarts.
  - apply list_elem_of_fmap in Hrow as (t & [= -> ->] & Ht).
    repeat split; [done|].
    rewrite <- Hstarts, stable_sort_perm, elem_of_remove_dups in Ht.
    apply list_elem_of_fmap in Ht as (en & -> & Hen). eauto.
Qed.

Lemma event_rows_cover st ds de q ev :
  ev ∈ q → ∃ r, (Event.id ev, r) ∈ event_query_rows st ds de q.
Proof.
  intros Hev. unfold event_query_rows.
  setoid_rewrite list_elem_of_In. setoid_rewrite in_flat_map.
  destruct (stable_sort Z.ltb
              (remove_dups (TimetableEntry.start_dt <$> overlapping_entries st ds de ev)))
    as [|s starts] eqn:Hstarts.
  - exists None, ev. split.
    + apply list_elem_of_In. by rewrite stable_sort_perm.
    + rewrite Hstarts. by left.
  - exists (Some s), ev. split.
    + apply list_elem_of_In. by rewrite stable_sort_perm.
    + rewrite Hstarts. by left.
Qed.

Lemma event_rows_consistent st ds de q i t :
  (i, None) ∈ event_query_rows st ds de q →
  (i, Some t) ∈ event_query_rows st ds de q → False.
Proof.
  intros (ev & _ & Hid & Hnone)%event_rows_inv (ev' & _ & Hid' & en & Hen & _)%event_rows_inv.
  rewrite (overlapping_entries_id st ds de ev' ev) in Hen by congruence.
  rewrite Hnone in Hen. by apply elem_of_nil in Hen.
Qed.

Lemma usable_starts_append d t (by_day : gmap date (list Instant)) :
  (by_day = ∅ ∨ usable_starts by_day) → usable_starts (append_at d t by_day).
Proof.
  intros Hm. unfold append_at. split.
  - apply insert_non_empty.
  - intros d' l. destruct (decide (d = d')) as [<-|Hne].
    + rewrite lookup_insert_eq. intros [= <-]. by destruct (default [] (by_day !! d)).
    + rewrite lookup_insert_ne by done. intros Hl.
      destruct Hm as [->|[_ Hm]]; [by rewrite lookup_empty in Hl|]. by eapply Hm.
Qed.

Lemma collect_items_ok tz rows items :
  (∀ i t, (i, None) ∈ rows → (i, Some t) ∈ rows → False) →
  (∀ i t, items !! i = Some None → (i, Some t) ∈ rows → False) →
  (∀ i by_day, items !! i = Some (Some by_day) → usable_starts by_day) →
  ∃ items',
    for_each (collect_item tz) rows items = Ok items'
    ∧ (∀ i, is_Some (items' !! i) ↔ is_Some (items !! i) ∨ ∃ r, (i, r) ∈ rows)
    ∧ (∀ i, items' !! i = Some None → items !! i = Some None ∨ (i, None) ∈ rows)
    ∧ (∀ i by_day, items' !! i = Some (Some by_day) → usable_starts by_day).
Proof.
  revert items. induction rows as [|[i r] rows IH]; intros items Hcons Hnone Hgood.
  - exists items. simpl. split; [done|]. split; [|split]; [|by left|done].
    intros i. split; [by left|]. intros [?|(r & Hr)]; [done|]. by apply elem_of_nil in Hr.
  - assert (∃ items1, collect_item tz items (i, r) = Ok items1
              ∧ (∀ j, is_Some (items1 !! j) ↔ is_Some (items !! j) ∨ j = i)
              ∧ (∀ j, items1 !! j = Some None →
                      items !! j = Some None ∨ (j = i ∧ r = None))
              ∧ (∀ j by_day, items1 !! j = Some (Some by_day) → usable_starts by_day))
      as (items1 & Hstep & Hdom1 & Hnone1 & Hgood1).
    { unfold collect_item. destruct r as [t|].
      - destruct (items !! i) as [[by_day|]|] eqn:Hi.
        + eexists. split; [done|]. split; [|split].
          * intros j. destruct (decide (i = j)) as [<-|Hne].
            -- rewrite lookup_insert_eq. split; [by right|by eauto].
            -- rewrite lookup_insert_ne by done.
               split; [by left | intros [? | ?]; [done | congruence]].
          * intros j. destruct (decide (i = j)) as [<-|Hne].
            -- by rewrite lookup_insert_eq.
            -- rewrite lookup_insert_ne by done. by left.
          * intros j m. destruct (decide (i = j)) as [<-|Hne].
            -- rewrite lookup_insert_eq. intros [= <-].
               apply usable_starts_append. right. by eapply Hgood.
            -- rewrite lookup_insert_ne by done. apply Hgood.
        + exfalso. eapply (Hnone i t); [done|apply list_elem_of_here].
        + eexists. split; [done|]. split; [|split].
          * intros j. destruct (decide (i = j)) as [<-|Hne].
            -- rewrite lookup_insert_eq. split; [by right|by eauto].
            -- rewrite lookup_insert_ne by done.
               split; [by left | intros [? | ?]; [done | congruence]].
          * intros j. destruct (decide (i = j)) as [<-|Hne].
            -- by rewrite lookup_insert_eq.
            -- rewrite lookup_insert_ne by done. by left.
          * intros j m. destruct (decide (i = j)) as [<-|Hne].
            -- rewrite lookup_insert_eq. intros [= <-].
               apply usable_starts_append. by left.
            -- rewrite lookup_insert_ne by done. apply Hgood.
      - eexists. split; [done|]. split; [|split].
        + intros j. destruct (decide (i = j)) as [<-|Hne].
          * rewrite lookup_insert_eq. split; [by right|by eauto].
          * rewrite lookup_insert_ne by done.
               split; [by left | intros [? | ?]; [done | congruence]].
        + intros j. destruct (decide (i = j)) as [<-|Hne].
          * by right.
          * rewrite lookup_insert_ne by done. by left.
        + intros j m. destruct (decide (i = j)) as [<-|Hne].
          * by rewrite lookup_insert_eq.
          * rewrite lookup_insert_ne by done. apply Hgood. }
    destruct (IH items1) as (items' & Hrun & Hdom & Hnone' & Hgood').
    + intros j t Hn Hs. eapply Hcons; by apply list_elem_of_further.
    + intros j t Hj Hs. apply Hnone1 in Hj as [Hj|[-> ->]].
      * eapply Hnone; [done|]. by apply list_elem_of_further.
      * eapply Hcons; [apply list_elem_of_here|]. by apply list_elem_of_further.
    + done.
    + exists items'. cbn [for_each]. rewrite Hstep. simpl. split; [done|]. split; [|split].
      * intros j. rewrite Hdom, Hdom1. split.
        -- intros [[? | ->] | (r' & Hr')]; [by left|right|right].
           ++ exists r. apply list_elem_of_here.
           ++ exists r'. by apply list_elem_of_further.
        -- intros [?|(r' & Hr')]; [by left; left|].
           apply elem_of_cons in Hr' as [[= -> ->]|Hr']; [by left; right|].
           right. eauto.
      * intros j Hj. apply Hnone' in Hj as [Hj|Hj].
        -- apply Hnone1 in Hj as [Hj|[-> ->]]; [by left|].
           right. apply list_elem_of_here.
        -- right. by apply list_elem_of_further.
      * done.
Qed.
End EventRows.

Section Loops.
Context {S A : Type}.
Implicit Types (body : S -> A -> result S) (l : list A) (s : S).

Lemma for_each_collects {V : Type} (members : S -> list V) body
    (adds : A -> V -> Prop) l s :
  (∀ s a, a ∈ l →
     ∃ s', body s a = Ok s' ∧ ∀ u, u ∈ members s' ↔ u ∈ members s ∨ adds a u) →
  ∃ s', for_each body l s = Ok s'
        ∧ ∀ u, u ∈ members s' ↔ u ∈ members s ∨ ∃ a, a ∈ l ∧ adds a u.
Proof.
  revert s. induction l as [|a l IH]; intros s Hbody.
  - exists s. split; [done|]. intros u. split; [by left|].
    intros [?|(a & Ha & _)]; [done|]. by apply elem_of_nil in Ha.
  - destruct (Hbody s a) as (s1 & Hs1 & Hm1); [apply list_elem_of_here|].
    destruct (IH s1) as (s' & Hs' & Hm').
    { intros s2 a' Ha'. apply Hbody. by apply list_elem_of_further. }
    exists s'. cbn [for_each]. rewrite Hs1. simpl. split; [done|].
    intros u. rewrite Hm', Hm1. split.
    + intros [[?|?]|(a' & Ha' & ?)]; [by left|right|right].
      * exists a. split; [apply list_elem_of_here|done].
      * exists a'. split; [by apply list_elem_of_further|done].
    + intros [?|(a' & Ha' & ?)]; [by left; left|].
      apply elem_of_cons in Ha' as [->|Ha']; [by left; right|].
      right. eauto.
Qed.

Lemma for_each_preserves {T : Type} (proj : S -> T) body l s s' :
  (∀ s a s', a ∈ l → body s a = Ok s' → proj s' = proj s) →
  for_each body l s = Ok s' → proj s' = proj s.
Proof.
  revert s. induction l as [|a l IH]; intros s Hbody; simpl.
  - by intros [= ->].
  - destruct (body s a) as [s1|] eqn:Hs1; simpl; [|done].
    intros Hrun. rewrite (IH s1).
    + eapply Hbody; [apply list_elem_of_here|done].
    + intros s2 a' s2' Ha'. apply Hbody. by apply list_elem_of_further.
    + done.
Qed.

Lemma foldl_preserves {T : Type} (proj : S -> T) (step : S -> A -> S) l s :
  (∀ s a, proj (step s a) = proj s) → proj (foldl step s l) = proj s.
Proof.
  intros Hstep. revert s. induction l as [|a l IH]; intros s; simpl; [done|].
  by rewrite IH.
Qed.
End Loops.

Section PlaceEvents.
Variables (tz : tzinfo) (start_dt end_dt : datetime) (includible : Event.t -> bool)
  (items : Items).
Implicit Types (acc : EventLists) (e x : Event.t) (query : list Event.t).

Hypothesis items_usable : ∀ i by_day, items !! i = Some (Some by_day) → usable_starts by_day.

Lemma elem_of_placed_scheduled acc d t e x :
  x ∈ placed_events {| scheduled_events := append_at d (t, e) (scheduled_events acc);
                       ongoing_events_acc := ongoing_events_acc acc;
                       events_acc := events_acc acc |}
  ↔ x = e ∨ x ∈ placed_events acc.
Proof.
  unfold placed_events. simpl.
  rewrite !elem_of_app, (elem_of_append_at_values snd). simpl. tauto.
Qed.

Lemma elem_of_placed_ongoing acc e x :
  x ∈ placed_events {| scheduled_events := scheduled_events acc;
                       ongoing_events_acc := ongoing_events_acc acc ++ [e];
                       events_acc := events_acc acc |}
  ↔ x = e ∨ x ∈ placed_events acc.
Proof.
  unfold placed_events. simpl.
  rewrite !elem_of_app, list_elem_of_singleton. tauto.
Qed.

Lemma iterdays_nonempty (a b : date) : (∃ day, day ∈ iterdays a b) ↔ a ≤ b.
Proof.
  unfold iterdays. split.
  - intros (day & Hday). apply elem_of_seqZ in Hday. lia.
  - intros Hab. exists a. apply elem_of_seqZ. lia.
Qed.

Lemma place_event_grouped acc e :
  ∃ acc', place_event tz start_dt end_dt true includible items acc e = Ok acc'
          ∧ events_acc acc' = events_acc acc
          ∧ ∀ x, x ∈ placed_events acc'
                 ↔ x ∈ placed_events acc
                   ∨ (x = e ∧ includible e = true ∧ placeable tz start_dt end_dt items e).
Proof.
  unfold place_event, placeable.
  destruct (includible e) eqn:Hinc; simpl.
  2: { exists acc. split; [done|]. split; [done|]. intros x. split; [by left|].
       intros [?|(_ & ? & _)]; done. }
  destruct (items !! Event.id e) as [[by_day|]|] eqn:Hitem.
  - destruct (items_usable _ _ Hitem) as [Hne Hlists].
    match goal with |- ∃ _, for_each ?b ?l ?s = _ ∧ _ => set (body := b) end.
    destruct (for_each_collects placed_events body (fun _ x => x = e)
                (map_to_list by_day) acc) as (acc' & Hrun & Hmem).
    { intros s [d l] Hdl. apply elem_of_map_to_list in Hdl.
      subst body. simpl. destruct l as [|first l]; [by apply Hlists in Hdl|].
      eexists. split; [done|]. intros u. rewrite elem_of_placed_scheduled. tauto. }
    exists acc'. split; [done|]. split.
    + apply (for_each_preserves events_acc body (map_to_list by_day)); [|done].
      intros s [d l] s' _. subst body. simpl.
      destruct l; [done|]. by intros [= <-].
    + intros x. rewrite Hmem. split.
      * intros [?|(_ & _ & ->)]; [by left|by right].
      * intros [?|(-> & _)]; [by left|]. right.
        destruct (map_to_list by_day) as [|dl rest] eqn:Hl.
        -- by apply map_to_list_empty_iff in Hl.
        -- exists dl. split; [apply list_elem_of_here|done].
  - match goal with |- ∃ _, Ok (foldl ?f _ ?l) = _ ∧ _ => set (step := f); set (days := l) end.
    exists (foldl step acc days). split; [done|]. split.
    + apply (foldl_preserves events_acc). intros s day. subst step. simpl.
      by destruct (day =? _).
    + intros x.
      rewrite (foldl_collects placed_events step (fun _ => e) days acc x).
      * split.
        -- intros [?|(day & Hday & ->)]; [by left|]. right.
           repeat split. apply iterdays_nonempty. eauto.
        -- intros [?|(-> & _ & Hdays)]; [by left|]. right.
           apply iterdays_nonempty in Hdays as (day & Hday). eauto.
      * intros s day u. subst step. simpl. destruct (day =? _).
        -- apply elem_of_placed_scheduled.
        -- apply elem_of_placed_ongoing.
  - exists acc. split; [done|]. split; [done|]. intros x. split; [by left|].
    intros [?|(_ & _ & [])]; done.
Qed.

Lemma place_events_grouped query acc :
  ∃ acc', for_each (place_event tz start_dt end_dt true includible items) query acc = Ok acc'
          ∧ events_acc acc' = events_acc acc
          ∧ ∀ x, x ∈ placed_events acc'
                 ↔ x ∈ placed_events acc
                   ∨ (x ∈ query ∧ includible x = true
                      ∧ placeable tz start_dt end_dt items x).
Proof.
  destruct (for_each_collects placed_events
              (place_event tz start_dt end_dt true includible items)
              (fun e x => x = e ∧ includible e = true
                          ∧ placeable tz start_dt end_dt items e)
              query acc) as (acc' & Hrun & Hmem).
  { intros s e _. destruct (place_event_grouped s e) as (s' & Hs' & _ & Hm). eauto. }
  exists acc'. split; [done|]. split.
  - refine (for_each_preserves events_acc _ query acc acc' _ Hrun).
    intros s e s' _ Hs. destruct (place_event_grouped s e) as (s'' & Hs'' & Hev & _).
    congruence.
  - intros x. rewrite Hmem. split.
    + intros [?|(e & He & -> & ? & ?)]; [by left|by right].
    + intros [?|(? & ? & ?)]; [by left|]. right. by exists x.
Qed.

Lemma place_events_flat query acc :
  ∃ acc', for_each (place_event tz start_dt end_dt false includible items) query acc = Ok acc'
          ∧ scheduled_events acc' = scheduled_events acc
          ∧ ongoing_events_acc acc' = ongoing_events_acc acc
          ∧ ∀ x, x ∈ events_acc acc'
                 ↔ x ∈ events_acc acc ∨ (x ∈ query ∧ includible x = true).
Proof.
  assert (∀ s e, ∃ s', place_event tz start_dt end_dt false includible items s e = Ok s'
                       ∧ scheduled_events s' = scheduled_events s
                       ∧ ongoing_events_acc s' = ongoing_events_acc s
                       ∧ ∀ u, u ∈ events_acc s'
                              ↔ u ∈ events_acc s ∨ (u = e ∧ includible e = true))
    as Hstep.
  { intros s e. unfold place_event. destruct (includible e); simpl.
    - eexists. repeat split; try done; simpl.
      + rewrite elem_of_app, list_elem_of_singleton. tauto.
      + rewrite elem_of_app, list_elem_of_singleton. tauto.
    - exists s. repeat split; try done; [by left|]. intros [?|[_ ?]]; done. }
  destruct (for_each_collects events_acc
              (place_event tz start_dt end_dt false includible items)
              (fun e x => x = e ∧ includible e = true) query acc) as (acc' & Hrun & Hmem).
  { intros s e _. destruct (Hstep s e) as (s' & Hs' & _ & _ & Hm). eauto. }
  exists acc'. split; [done|]. split; [|split].
  - refine (for_each_preserves scheduled_events _ query acc acc' _ Hrun).
    intros s e s' _ Hs. destruct (Hstep s e) as (s'' & Hs'' & Hsch & _). congruence.
  - refine (for_each_preserves ongoing_events_acc _ query acc acc' _ Hrun).
    intros s e s' _ Hs. destruct (Hstep s e) as (s'' & Hs'' & _ & Hon & _). congruence.
  - intros x. rewrite Hmem. split.
    + intros [?|(e & He & -> & ?)]; [by left|by right].
    + intros [?|(? & ?)]; [by left|]. right. by exists x.
Qed.
End PlaceEvents.

Section Aggregator.
Variable is_visible_in : Z -> Event.t -> bool.
Implicit Types (st : Store) (tz : tzinfo) (o : EntryObject) (e : Event.t).

Lemma bind_ok {A B : Type} (a : A) (k : A -> result B) : Ok a ≫= k = k a.
Proof. reflexivity. Qed.

Lemma objects_group_details tz blocks contribs breaks o :
  o ∈ grouped_objects (group_details tz blocks contribs breaks)
  ↔ (∃ r, r ∈ blocks ∧ o = OBlock r.2)
    ∨ (∃ r, r ∈ contribs ∧ o = OContribution r.2)
    ∨ (∃ r, r ∈ breaks ∧ o = OBreak r.2).
Proof.
  unfold group_details.
  rewrite (foldl_collects grouped_objects _ (fun r => OBreak r.2))
    by (intros s [en b] u; apply elem_of_add_grouped).
  rewrite (foldl_collects grouped_objects _ (fun r => OContribution r.2))
    by (intros s [en c] u; apply elem_of_add_grouped).
  rewrite (foldl_collects grouped_objects _ (fun r => OBlock r.2))
    by (intros s [en b] u; apply elem_of_add_grouped).
  unfold grouped_objects at 1. rewrite flat_values_empty, elem_of_nil. tauto.
Qed.

Lemma objects_list_details blocks contribs breaks o :
  o ∈ flat_objects (list_details blocks contribs breaks)
  ↔ (∃ r, r ∈ blocks ∧ o = OBlock r.2)
    ∨ (∃ r, r ∈ contribs ∧ o = OContribution r.2)
    ∨ (∃ r, r ∈ breaks ∧ o = OBreak r.2).
Proof.
  unfold list_details.
  rewrite (foldl_collects flat_objects _ (fun r => OBreak r.2))
    by (intros s [en b] u; apply elem_of_add_flat).
  rewrite (foldl_collects flat_objects _ (fun r => OContribution r.2))
    by (intros s [en c] u; apply elem_of_add_flat).
  rewrite (foldl_collects flat_objects _ (fun r => OBlock r.2))
    by (intros s [en b] u; apply elem_of_add_flat).
  unfold flat_objects at 1. rewrite flat_values_empty, elem_of_nil. tauto.
Qed.

Lemma filter_nil_existsb {A : Type} (p : A -> bool) (l : list A) :
  List.filter p l = [] → existsb p l = false.
Proof.
  induction l as [|x l IH]; simpl; [done|].
  destruct (p x); [done|]. simpl. apply IH.
Qed.

(** An event selected by the events query that has no entry in the
    window spans part of the window. *)
Lemma query_events_no_entry st categ_ids ds de e :
  e ∈ _query_events st categ_ids ds de →
  overlapping_entries st ds de e = [] →
  Event.start_dt e ≤ de ∧ ds ≤ Event.end_dt e.
Proof.
  unfold _query_events, overlapping_entries.
  rewrite list_elem_of_In, filter_In. intros [_ Hsel] Hnone.
  rewrite (filter_nil_existsb _ _ Hnone) in Hsel.
  apply andb_true_iff in Hsel as [_ Hsel]. simpl in Hsel.
  unfold happens_between in Hsel. apply andb_true_iff in Hsel. lia.
Qed.
End Aggregator.

(** C8 (as stated, refuted).  Display zone UTC, window given as the day
    2024-01-02 of a zone nine hours ahead: the seminar of 2024-01-01
    16:00-17:00 (UTC) lies in the window, its only local day is before
    the first day of the window, and so the grouped output has no event
    at all where the ungrouped output lists the seminar. *)
Lemma get_category_timetable_grouped_misses_event :
  get_category_timetable everything_visible seminar_store [10] window_start window_end
    "event" utc None true everything_includible
  = Ok (Grouped ∅ [] ∅)
  ∧ get_category_timetable everything_visible seminar_store [10] window_start window_end
      "event" utc None false everything_includible
    = Ok (Ungrouped [seminar] [] ∅)
  ∧ seminar ∈ timetable_events (Ungrouped [seminar] [] ∅)
  ∧ seminar ∉ timetable_events (Grouped ∅ [] ∅).
Proof.
  split; [reflexivity|]. split; [reflexivity|]. split.
  - apply list_elem_of_here.
  - simpl. rewrite flat_values_empty. apply not_elem_of_nil.
Qed.

(** C8 (amended).  For every input both modes return, and the two
    outputs contain the same session blocks, contributions and breaks.
    Every event of the grouped output is in the ungrouped output.  The
    converse, and with it the equality of the two sets of events, holds
    when the window is given in the display timezone with
    start_dt ≤ end_dt, the local date of that zone never goes back,
    and the events of the store have unique ids and start_dt ≤ end_dt. *)
Theorem get_category_timetable_same_objects (is_visible_in : Z -> Event.t -> bool)
    (st : Store) (categ_ids : list Z) (start_dt end_dt : datetime) (detail_level : string)
    (tz : tzinfo) (from_categ : option Z) (includible : Event.t -> bool) :
  ∃ grouped ungrouped,
    get_category_timetable is_visible_in st categ_ids start_dt end_dt detail_level tz
      from_categ true includible = Ok grouped
    ∧ get_category_timetable is_visible_in st categ_ids start_dt end_dt detail_level tz
        from_categ false includible = Ok ungrouped
    ∧ (∀ o, o ∈ timetable_objects grouped ↔ o ∈ timetable_objects ungrouped)
    ∧ (∀ e, e ∈ timetable_events grouped → e ∈ timetable_events ungrouped)
    ∧ (dt_tzinfo start_dt = tz → dt_tzinfo end_dt = tz →
       instant start_dt ≤ instant end_dt →
       monotone_dates tz →
       NoDup (Event.id <$> events st) →
       (∀ e, e ∈ events st → Event.start_dt e ≤ Event.end_dt e) →
       ∀ e, e ∈ timetable_events ungrouped ↔ e ∈ timetable_events grouped).
Proof.
  unfold get_category_timetable.
  set (ds := instant start_dt). set (de := instant end_dt).
  set (evq := match from_categ with
              | Some categ_id => List.filter (is_visible_in categ_id) _
              | None => _
              end).
  destruct (collect_items_ok tz (event_query_rows st ds de evq) ∅)
    as (items & Hitems & Hdom & Hnone & Hgood).
  { apply event_rows_consistent. }
  { intros i t Hi. by rewrite lookup_empty in Hi. }
  { intros i m Hi. by rewrite lookup_empty in Hi. }
  rewrite Hitems, !bind_ok. cbv beta.
  set (query := List.filter _ (events st)).
  set (init := {| scheduled_events := ∅; ongoing_events_acc := []; events_acc := [] |}).
  destruct (place_events_grouped tz start_dt end_dt includible items Hgood query init)
    as (lg & Hlg & _ & Hmem_g).
  destruct (place_events_flat tz start_dt end_dt includible items query init)
    as (lf & Hlf & _ & Hon & Hmem_f).
  rewrite Hlg, Hlf, !bind_ok. cbv beta zeta.
  eexists _, _. split; [reflexivity|]. split; [reflexivity|].
  assert (∀ e, e ∈ placed_events init → False) as Hinit.
  { intros e. unfold placed_events, init. simpl.
    rewrite flat_values_empty. apply not_elem_of_nil. }
  assert (∀ e, e ∈ events_acc lf ++ ongoing_events_acc lf
               ↔ e ∈ query ∧ includible e = true) as Hflat.
  { intros e. rewrite Hon, app_nil_r, Hmem_f. simpl. rewrite elem_of_nil. tauto. }
  assert (∀ e, e ∈ placed_events lg
               ↔ e ∈ query ∧ includible e = true ∧ placeable tz start_dt end_dt items e)
    as Hgrouped.
  { intros e. rewrite Hmem_g. split; [|by right]. intros [?|?]; [by destruct (Hinit e)|done]. }
  split; [|split; [|]].
  - intros o. simpl. by rewrite objects_group_details, objects_list_details.
  - intros e. simpl. fold (placed_events lg). rewrite Hflat, Hgrouped. tauto.
  - intros Htz_s Htz_e Hwindow Hmono Hnd Hspan e. simpl.
    fold (placed_events lg). rewrite Hflat, Hgrouped.
    split; [|tauto]. intros [Hq Hinc]. repeat split; [done..|].
    assert (e ∈ events st ∧ is_Some (items !! Event.id e)) as [He Hsome].
    { subst query. apply list_elem_of_In, filter_In in Hq as [He Hid].
      apply bool_decide_eq_true, elem_of_dom in Hid.
      split; [by apply list_elem_of_In|done]. }
    unfold placeable. destruct (items !! Event.id e) as [[by_day|]|] eqn:Hitem;
      [done| |by destruct Hsome].
    apply Hnone in Hitem as [Hitem|Hrow]; [by rewrite lookup_empty in Hitem|].
    apply event_rows_inv in Hrow as (ev & Hev & Hid & Hno_entry).
    assert (ev ∈ _query_events st categ_ids ds de) as Hsel.
    { subst evq. destruct from_categ; [|done].
      apply list_elem_of_In, filter_In in Hev as [Hev _]. by apply list_elem_of_In. }
    assert (ev = e) as ->.
    { apply (unique_key_inj Event.id (events st)); [done| |done..].
      unfold _query_events in Hsel.
      apply list_elem_of_In, filter_In in Hsel as [Hsel _]. by apply list_elem_of_In. }
    destruct (query_events_no_entry st categ_ids ds de e Hsel Hno_entry) as [Hstart Hend].
    unfold datetime_date. rewrite Htz_s, Htz_e. fold ds de.
    pose proof (Hmono ds de Hwindow).
    pose proof (Hmono _ _ Hstart).
    pose proof (Hmono _ _ Hend).
    pose proof (Hmono _ _ (Hspan e He)).
    lia.
Qed.

(** The seminar on its own day, window and display zone both UTC. *)
Lemma get_category_timetable_same_objects_witness :
  ∃ grouped ungrouped,
    get_category_timetable everything_visible seminar_store [10] utc_window_start
      utc_window_end "contribution" utc None true everything_includible = Ok grouped
    ∧ get_category_timetable everything_visible seminar_store [10] utc_window_start
        utc_window_end "contribution" utc None false everything_includible = Ok ungrouped
    ∧ (∀ o, o ∈ timetable_objects grouped ↔ o ∈ timetable_objects ungrouped)
    ∧ (∀ e, e ∈ timetable_events ungrouped ↔ e ∈ timetable_events grouped).
Proof.
  destruct (get_category_timetable_same_objects everything_visible seminar_store [10]
              utc_window_start utc_window_end "contribution" utc None everything_includible)
    as (grouped & ungrouped & Hg & Hu & Hobj & _ & Hev).
  exists grouped, ungrouped. split; [exact Hg|]. split; [exact Hu|]. split; [exact Hobj|].
  apply Hev.
  - reflexivity.
  - reflexivity.
  - vm_compute. discriminate.
  - intros t1 t2 Hle. unfold utc, fixed_offset. simpl.
    apply Z.div_le_mono; [vm_compute; reflexivity | lia].
  - apply (bool_decide_unpack _). vm_compute. exact I.
  - intros e He. apply list_elem_of_singleton in He as ->. vm_compute. discriminate.
Defined.

(** Zones with a constant offset have local dates that never go back. *)
Lemma fixed_offset_monotone (off : timedelta) : monotone_dates (fixed_offset off).
Proof.
  intros t1 t2 Hle. unfold fixed_offset. simpl.
  apply Z.div_le_mono; [reflexivity | lia].
Qed.

(** With the bounds of the window exchanged an event that spans both is
    selected, and the clipped range of days is empty as well. *)
Example get_category_timetable_exchanged_bounds :
  get_category_timetable everything_visible congress_store [10] late_bound early_bound
    "event" utc None true everything_includible
  = Ok (Grouped ∅ [] ∅)
  ∧ get_category_timetable everything_visible congress_store [10] late_bound early_bound
      "event" utc None false everything_includible
    = Ok (Ungrouped [congress] [] ∅).
Proof. split; reflexivity. Qed.

Section DetailKeys.
Lemma foldl_invariant {S A : Type} (P : S -> Prop) (step : S -> A -> S) (l : list A) (s : S) :
  P s → (∀ s a, P s → P (step s a)) → P (foldl step s l).
Proof.
  intros Hs Hstep. revert s Hs. induction l as [|a l IH]; intros s Hs; simpl; [done|].
  by apply IH, Hstep.
Qed.

Lemma keys_within_insert {X : Type} (allowed : list string) (details : gmap Z (gmap string X))
    (event_id : Z) (key : string) (x : X) :
  key ∈ allowed → keys_within allowed details →
  keys_within allowed
    (<[event_id := <[key := x]> (default ∅ (details !! event_id))]> details).
Proof.
  intros Hkey Hin i per_event k.
  destruct (decide (event_id = i)) as [<-|Hne].
  - rewrite lookup_insert_eq. intros [= <-].
    destruct (decide (key = k)) as [<-|Hk]; [done|].
    rewrite lookup_insert_ne by done.
    destruct (details !! event_id) as [pe|] eqn:Hpe; simpl.
    + by apply (Hin event_id).
    + rewrite lookup_empty. by intros [? ?].
  - rewrite lookup_insert_ne by done. apply Hin.
Qed.

(** Grouped, the contributions of an event are filed under "contribs";
    ungrouped, under "contributions". *)
Lemma group_details_keys tz blocks contribs breaks :
  keys_within ["blocks"; "contribs"; "breaks"] (group_details tz blocks contribs breaks).
Proof.
  unfold group_details.
  repeat (apply foldl_invariant;
          [|intros s [en x] Hs; apply keys_within_insert; [set_solver|done]]).
  intros i pe k Hi. by rewrite lookup_empty in Hi.
Qed.

Lemma list_details_keys blocks contribs breaks :
  keys_within ["blocks"; "contributions"; "breaks"] (list_details blocks contribs breaks).
Proof.
  unfold list_details.
  repeat (apply foldl_invariant;
          [|intros s [en x] Hs; apply keys_within_insert; [set_solver|done]]).
  intros i pe k Hi. by rewrite lookup_empty in Hi.
Qed.

Example contribution_keys :
  group_details utc [] [(talk_entry, talk)] []
  = {[1 := {["contribs" := {[jan1 := [(talk_entry, OContribution talk)]]}]}]}
  ∧ list_details [] [(talk_entry, talk)] []
    = {[1 := {["contributions" := [OContribution talk]]}]}.
Proof. split; reflexivity. Qed.
End DetailKeys.

(** * Further properties of the interval/fit resolver *)

Section ResolverMore.
Implicit Types (st : Store) (obj : Object) (day : option date) (duration : timedelta).

(** Both functions start with the same validation. *)
Lemma next_start_bounds_raise st obj day e :
next_start_bounds st obj day = Raise e ↔ find_latest_entry_end_dt st obj day = Raise e.
Proof.
unfold next_start_bounds, find_latest_entry_end_dt.
destruct obj as [ev|[b|c|b]], day as [d|]; try (split; congruence).
- destruct (negb (day_in_event_bounds ev d)); split; congruence.
- destruct (timetable_entry st (OBlock b)); split; congruence.
Qed.

Lemma next_start_bounds_ok st obj day bounds :
next_start_bounds st obj day = Ok bounds →
∃ anchor, find_latest_entry_end_dt st obj day = Ok anchor.
Proof.
intros Hb. destruct (find_latest_entry_end_dt st obj day) as [a|e] eqn:Hl; [eauto|].
apply next_start_bounds_raise in Hl. congruence.
Qed.

Lemma find_next_start_dt_unfold st duration obj day force earliest latest anchor :
next_start_bounds st obj day = Ok (earliest, latest) →
find_latest_entry_end_dt st obj day = Ok anchor →
find_next_start_dt st duration obj day force
= if latest - earliest <? duration then Ok (if force then Some earliest else None)
  else Ok (Some (if latest <? default earliest anchor + duration
                 then latest - duration else default earliest anchor)).
Proof.
intros Hb Hl. unfold find_next_start_dt. rewrite Hb. simpl.
destruct (latest - earliest <? duration); [done|]. by rewrite Hl.
Qed.

Lemma latest_end_dt_upper (es : list TimetableEntry.t) m e :
latest_end_dt es = Some m → e ∈ es → TimetableEntry.end_dt e ≤ m.
Proof.
destruct es as [|x xs]; [done|]. simpl. intros [= <-] He.
by apply max_by_end_dt_upper.
Qed.
End ResolverMore.


(** X2.  When the duration fits the window, the call returns a start,
    the same with and without [force].  The slot never ends after
    [latest]; it starts at the anchor (the latest end of the existing
    entries, or [earliest] when there is none) whenever that leaves
    room, and earlier otherwise; and it does not start before
    [earliest] unless the anchor itself lies before [earliest]. *)
Theorem find_next_start_dt_fits st duration obj day force earliest latest :
  next_start_bounds st obj day = Ok (earliest, latest) →
  duration ≤ latest - earliest →
  ∃ anchor start,
    find_latest_entry_end_dt st obj day = Ok anchor
    ∧ find_next_start_dt st duration obj day force = Ok (Some start)
    ∧ find_next_start_dt st duration obj day (negb force) = Ok (Some start)
    ∧ start + duration ≤ latest
    ∧ start ≤ default earliest anchor
    ∧ (default earliest anchor + duration ≤ latest → start = default earliest anchor)
    ∧ (earliest ≤ default earliest anchor → earliest ≤ start).
Proof.
  intros Hb Hfit.
  destruct (next_start_bounds_ok _ _ _ _ Hb) as [anchor Hl].
  exists anchor. eexists. split; [done|].
  rewrite !(find_next_start_dt_unfold _ _ _ _ _ _ _ _ Hb Hl).
  assert ((latest - earliest <? duration) = false) as -> by (apply Z.ltb_ge; lia).
  split; [done|]. split; [done|].
  destruct (Z.ltb_spec latest (default earliest anchor + duration)); repeat split; lia.
Qed.

Lemma find_next_start_dt_fits_witness :
  ∃ anchor start,
    find_latest_entry_end_dt one_day_store (OfEvent one_day_event) (Some jan1) = Ok anchor
    ∧ find_next_start_dt one_day_store (7 * HOUR) (OfEvent one_day_event) (Some jan1) false
      = Ok (Some start)
    ∧ find_next_start_dt one_day_store (7 * HOUR) (OfEvent one_day_event) (Some jan1) true
      = Ok (Some start)
    ∧ start + 7 * HOUR ≤ utc_at jan1 17 0
    ∧ start ≤ default (utc_at jan1 9 0) anchor
    ∧ (default (utc_at jan1 9 0) anchor + 7 * HOUR ≤ utc_at jan1 17 0 →
       start = default (utc_at jan1 9 0) anchor)
    ∧ (utc_at jan1 9 0 ≤ default (utc_at jan1 9 0) anchor → utc_at jan1 9 0 ≤ start).
Proof.
  apply (find_next_start_dt_fits one_day_store (7 * HOUR) (OfEvent one_day_event)
           (Some jan1) false (utc_at jan1 9 0) (utc_at jan1 17 0)).
  - vm_compute. reflexivity.
  - vm_compute. discriminate.
Defined.

(** X3.  The call returns null exactly when [force] is off and the
    duration is strictly greater than the window; with [force] it never
    returns null. *)
Theorem find_next_start_dt_none_iff st duration obj day force :
  find_next_start_dt st duration obj day force = Ok None
  ↔ force = false
    ∧ ∃ earliest latest,
        next_start_bounds st obj day = Ok (earliest, latest)
        ∧ latest - earliest < duration.
Proof.
  destruct (next_start_bounds st obj day) as [[earliest latest]|e'] eqn:Hb.
  - destruct (next_start_bounds_ok _ _ _ _ Hb) as [anchor Hl].
    rewrite (find_next_start_dt_unfold _ _ _ _ _ _ _ _ Hb Hl).
    destruct (Z.ltb_spec (latest - earliest) duration) as [Hlt|Hge].
    + destruct force; split; try done.
      * by intros [? _].
      * intros _. split; [done|]. eauto.
    + split; [done|]. intros (_ & e1 & l1 & [= <- <-] & ?). lia.
  - unfold find_next_start_dt. rewrite Hb. simpl. split; [done|].
    by intros (_ & ? & ? & ? & _).
Qed.

(** X4.  In a container without entries (an event day on which no
    top-level entry starts, a session block without children) a
    duration that fits is placed at [earliest]. *)
Theorem find_next_start_dt_empty st duration obj day force earliest latest :
  next_start_bounds st obj day = Ok (earliest, latest) →
  find_latest_entry_end_dt st obj day = Ok None →
  duration ≤ latest - earliest →
  find_next_start_dt st duration obj day force = Ok (Some earliest).
Proof.
  intros Hb Hl Hfit.
  rewrite (find_next_start_dt_unfold _ _ _ _ _ _ _ _ Hb Hl). simpl.
  assert ((latest - earliest <? duration) = false) as -> by (apply Z.ltb_ge; lia).
  assert ((latest <? earliest + duration) = false) as -> by (apply Z.ltb_ge; lia).
  done.
Qed.

Lemma find_next_start_dt_empty_witness :
  find_next_start_dt two_day_store (2 * HOUR) (OfEvent two_day_event) (Some jan1) false
  = Ok (Some (utc_at jan1 9 0)).
Proof.
  apply (find_next_start_dt_empty two_day_store (2 * HOUR) (OfEvent two_day_event)
           (Some jan1) false (utc_at jan1 9 0) (utc_at (jan1 + 1) 17 0)).
  - vm_compute. reflexivity.
  - vm_compute. reflexivity.
  - vm_compute. discriminate.
Defined.

(** X5.  When there is room after the last entry, the returned start is
    at or after the end of every entry of the container on that day:
    the new slot overlaps none of them. *)
Theorem find_next_start_dt_after_entries st duration force earliest latest m :
  (∀ ev d,
     next_start_bounds st (OfEvent ev) (Some d) = Ok (earliest, latest) →
     find_latest_entry_end_dt st (OfEvent ev) (Some d) = Ok (Some m) →
     duration ≤ latest - earliest → m + duration ≤ latest →
     find_next_start_dt st duration (OfEvent ev) (Some d) force = Ok (Some m)
     ∧ ∀ e, e ∈ top_level_entries_on st ev d → TimetableEntry.end_dt e ≤ m)
  ∧ (∀ b te,
       timetable_entry st (OBlock b) = Some te →
       find_latest_entry_end_dt st (OfEntry (OBlock b)) None = Ok (Some m) →
       duration ≤ TimetableEntry.end_dt te - TimetableEntry.start_dt te →
       m + duration ≤ TimetableEntry.end_dt te →
       find_next_start_dt st duration (OfEntry (OBlock b)) None force = Ok (Some m)
       ∧ ∀ e, e ∈ children st te → TimetableEntry.end_dt e ≤ m).
Proof.
  split.
  - intros ev d Hb Hl Hfit Hroom. split.
    + rewrite (find_next_start_dt_unfold _ _ _ _ _ _ _ _ Hb Hl). simpl.
      assert ((latest - earliest <? duration) = false) as -> by (apply Z.ltb_ge; lia).
      assert ((latest <? m + duration) = false) as -> by (apply Z.ltb_ge; lia).
      done.
    + unfold find_latest_entry_end_dt in Hl.
      destruct (negb (day_in_event_bounds ev d)); [done|].
      injection Hl as Hl. intros e He. by eapply latest_end_dt_upper.
  - intros b te Hte Hl Hfit Hroom. split.
    + rewrite (find_next_start_dt_unfold _ _ _ _ _ _ _ _
                 (next_start_bounds_block st b te Hte) Hl). simpl.
      assert ((TimetableEntry.end_dt te - TimetableEntry.start_dt te <? duration) = false)
        as -> by (apply Z.ltb_ge; lia).
      assert ((TimetableEntry.end_dt te <? m + duration) = false) as ->
        by (apply Z.ltb_ge; lia).
      done.
    + unfold find_latest_entry_end_dt in Hl. rewrite Hte in Hl.
      injection Hl as Hl. intros e He. by eapply latest_end_dt_upper.
Qed.

Lemma find_next_start_dt_after_entries_witness :
  find_next_start_dt one_day_store (1 * HOUR) (OfEvent one_day_event) (Some jan1) false
  = Ok (Some (utc_at jan1 10 30))
  ∧ ∀ e, e ∈ top_level_entries_on one_day_store one_day_event jan1 →
         TimetableEntry.end_dt e ≤ utc_at jan1 10 30.
Proof.
  apply (proj1 (find_next_start_dt_after_entries one_day_store (1 * HOUR) false
                  (utc_at jan1 9 0) (utc_at jan1 17 0) (utc_at jan1 10 30))).
  - vm_compute. reflexivity.
  - vm_compute. reflexivity.
  - vm_compute. discriminate.
  - vm_compute. discriminate.
Defined.

(** * Further properties of the cascade shifter *)

Section ShifterMore.
Implicit Types (st : Store) (entry r s : TimetableEntry.t) (shift a b : timedelta).

Lemma store_eq st st' : events st = events st' → entries st = entries st' → st = st'.
Proof. destruct st, st'. simpl. by intros -> ->. Qed.

Lemma update_entry_events st r : events (update_entry st r) = events st.
Proof. reflexivity. Qed.

Lemma shift_all_events shift rows st : events (shift_all shift rows st) = events st.
Proof.
unfold shift_all. revert st. induction rows as [|x rows IH]; intros st; simpl; [done|].
by rewrite IH.
Qed.

Lemma shift_all_ids shift rows st :
TimetableEntry.id <$> entries (shift_all shift rows st) = TimetableEntry.id <$> entries st.
Proof.
rewrite shift_all_entries, <- list_fmap_compose.
apply list_fmap_ext. intros i r _. simpl. apply shifted_row_id.
Qed.

Lemma move_same_start r : TimetableEntry.move r (TimetableEntry.start_dt r + 0) = r.
Proof. destruct r. unfold TimetableEntry.move. simpl. f_equal. lia. Qed.

Lemma filter_fmap_invariant {A : Type} (p : A -> bool) (g : A -> A) (l : list A) :
(∀ x, x ∈ l → p (g x) = p x) → List.filter p (g <$> l) = g <$> List.filter p l.
Proof.
induction l as [|x l IH]; intros Hinv; [done|].
rewrite fmap_cons. cbn [List.filter].
rewrite (Hinv x) by apply list_elem_of_here.
rewrite IH by (intros y Hy; apply Hinv; by apply list_elem_of_further).
by destruct (p x).
Qed.

(** After a shift forward the rows that follow the trigger are the
  images of the rows that followed it before. *)
Lemma following_after_shift st entry a :
NoDup (TimetableEntry.id <$> entries st) → 0 ≤ a →
following (shift_all a (following st entry) st) entry
= shifted_row a (following st entry) <$> following st entry.
Proof.
intros Hnd Ha. unfold following at 1 3, Query.all, Query.filter, siblings_query.
rewrite shift_all_entries.
rewrite filter_fmap_invariant.
- rewrite filter_fmap_invariant; [done|].
  intros r Hr. apply list_elem_of_In, filter_In in Hr as [Hr Hsib].
  apply list_elem_of_In in Hr.
  rewrite (shifted_row_following st entry a r Hnd Hr).
  destruct (decide (r ∈ following st entry)) as [Hin|Hout]; [|done].
  apply elem_of_following in Hin as [_ Hin]. simpl.
  apply Z.leb_le in Hin as Hin'. rewrite Hin'. apply Z.leb_le. lia.
- intros r Hr.
  rewrite (shifted_row_following st entry a r Hnd Hr).
  by destruct (decide (r ∈ following st entry)).
Qed.

Lemma shift_all_twice st entry a b :
NoDup (TimetableEntry.id <$> entries st) → 0 ≤ a →
entries (shift_all b (following (shift_all a (following st entry) st) entry)
           (shift_all a (following st entry) st))
= entries (shift_all (a + b) (following st entry) st).
Proof.
intros Hnd Ha.
set (st1 := shift_all a (following st entry) st).
assert (NoDup (TimetableEntry.id <$> entries st1)) as Hnd1
  by (subst st1; by rewrite shift_all_ids).
rewrite (shift_all_entries b), (shift_all_entries (a + b)).
subst st1. rewrite (shift_all_entries a), <- list_fmap_compose.
apply list_fmap_ext. intros i r Hi. simpl.
assert (r ∈ entries st) as Hr by (by eapply list_elem_of_lookup_2).
set (st1 := shift_all a (following st entry) st) in *.
assert (shifted_row a (following st entry) r ∈ entries st1) as Hr1.
{ subst st1. rewrite shift_all_entries. by apply list_elem_of_fmap_2. }
rewrite (shifted_row_following st1 entry b _ Hnd1 Hr1).
rewrite (shifted_row_following st entry (a + b) r Hnd Hr).
subst st1. rewrite (following_after_shift st entry a Hnd Ha).
destruct (decide (r ∈ following st entry)) as [Hin|Hout].
- rewrite decide_True by (by apply list_elem_of_fmap_2).
  rewrite (shifted_row_following st entry a r Hnd Hr), decide_True by done.
  unfold TimetableEntry.move. simpl. f_equal. lia.
- rewrite decide_False.
  + rewrite (shifted_row_following st entry a r Hnd Hr). by rewrite decide_False.
  + intros (r' & Heq & Hr')%list_elem_of_fmap. apply Hout.
    assert (r = r') as ->; [|done].
    apply (primary_key_inj (entries st)); [done..| |].
    * apply elem_of_following in Hr' as [Hr' _]. by eapply siblings_in_store.
    * by rewrite <- (shifted_row_id a (following st entry) r), Heq, shifted_row_id.
Qed.

Lemma shift_all_zero st entry :
NoDup (TimetableEntry.id <$> entries st) →
entries (shift_all 0 (following st entry) st) = entries st.
Proof.
intros Hnd. rewrite shift_all_entries.
rewrite <- (list_fmap_id (entries st)) at 2.
apply list_fmap_ext. intros i r Hi. simpl.
rewrite (shifted_row_following st entry 0 r Hnd) by (by eapply list_elem_of_lookup_2).
destruct (decide _); [apply move_same_start|done].
Qed.
End ShifterMore.

(** X6.  Two shifts behind the same trigger add up when the first one
    goes forward: shifting by [a ≥ 0] and then by [b] leaves the
    tables as one shift by [a + b] does, whatever the session
    arguments. *)
Theorem shift_following_entries_compose st entry a b s1 s2 s3 :
  NoDup (TimetableEntry.id <$> entries st) → 0 ≤ a →
  (shift_following_entries (shift_following_entries st entry a s1).1 entry b s2).1
  = (shift_following_entries st entry (a + b) s3).1.
Proof.
  intros Hnd Ha. rewrite !shift_following_entries_store.
  apply store_eq.
  - by rewrite !shift_all_events.
  - by apply shift_all_twice.
Qed.

Lemma shift_following_entries_compose_witness :
  (shift_following_entries
     (shift_following_entries workshop_store opening_entry (30 * MINUTE) None).1
     opening_entry (15 * MINUTE) None).1
  = (shift_following_entries workshop_store opening_entry (30 * MINUTE + 15 * MINUTE) None).1.
Proof.
  apply (shift_following_entries_compose workshop_store opening_entry
           (30 * MINUTE) (15 * MINUTE) None None None).
  - apply (bool_decide_unpack _). vm_compute. exact I.
  - vm_compute. discriminate.
Defined.

(** X7.  A shift forward can be taken back: shifting the followers of
    an entry by [a ≥ 0] and then by [-a] restores the tables. *)
Theorem shift_following_entries_undo st entry a s1 s2 :
  NoDup (TimetableEntry.id <$> entries st) → 0 ≤ a →
  (shift_following_entries (shift_following_entries st entry a s1).1 entry (- a) s2).1 = st.
Proof.
  intros Hnd Ha. rewrite !shift_following_entries_store.
  apply store_eq.
  - by rewrite !shift_all_events.
  - rewrite shift_all_twice by done.
    replace (a + - a) with 0 by lia. by apply shift_all_zero.
Qed.

Lemma shift_following_entries_undo_witness :
  (shift_following_entries
     (shift_following_entries workshop_store opening_entry (30 * MINUTE) (Some keynotes)).1
     opening_entry (- (30 * MINUTE)) None).1
  = workshop_store.
Proof.
  apply (shift_following_entries_undo workshop_store opening_entry (30 * MINUTE)
           (Some keynotes) None).
  - apply (bool_decide_unpack _). vm_compute. exact I.
  - vm_compute. discriminate.
Defined.



(** X9.  The order of the siblings in time is kept by a shift forward,
    and by any shift among the siblings that are moved: if [a] starts no
    later than [b] before the call, it starts no later than [b] after
    it, provided the shift is not negative or [a] itself follows the
    trigger. *)
Theorem shift_following_entries_keeps_order st entry shift session_ (i j : nat) a b a' b' :
  NoDup (TimetableEntry.id <$> entries st) →
  entries st !! i = Some a → entries st !! j = Some b →
  a ∈ Query.all (siblings_query st entry) →
  b ∈ Query.all (siblings_query st entry) →
  entries (shift_following_entries st entry shift session_).1 !! i = Some a' →
  entries (shift_following_entries st entry shift session_).1 !! j = Some b' →
  TimetableEntry.start_dt a ≤ TimetableEntry.start_dt b →
  0 ≤ shift ∨ TimetableEntry.end_dt entry ≤ TimetableEntry.start_dt a →
  TimetableEntry.start_dt a' ≤ TimetableEntry.start_dt b'.
Proof.
  intros Hnd Hi Hj Ha Hb.
  rewrite shift_following_entries_store, shift_all_entries, !list_lookup_fmap, Hi, Hj.
  simpl.
  rewrite (shifted_row_following st entry shift a Hnd) by (by eapply list_elem_of_lookup_2).
  rewrite (shifted_row_following st entry shift b Hnd) by (by eapply list_elem_of_lookup_2).
  intros [= <-] [= <-] Hle Hcase.
  destruct (decide (a ∈ following st entry)) as [Hfa|Hfa];
    destruct (decide (b ∈ following st entry)) as [Hfb|Hfb]; simpl; try lia.
  - exfalso. apply Hfb, elem_of_following. split; [done|].
    apply elem_of_following in Hfa as [_ Hfa]. lia.
  - destruct Hcase as [?|Hafter]; [lia|].
    exfalso. apply Hfa, elem_of_following. by split.
Qed.

Lemma shift_following_entries_keeps_order_witness :
  TimetableEntry.start_dt early_entry
  ≤ TimetableEntry.start_dt (TimetableEntry.move coffee_entry (utc_at jan1 11 30)).
Proof.
  apply (shift_following_entries_keeps_order workshop_store opening_entry (30 * MINUTE)
           None 1%nat 2%nat early_entry coffee_entry early_entry
           (TimetableEntry.move coffee_entry (utc_at jan1 11 30))).
  - apply (bool_decide_unpack _). vm_compute. exact I.
  - reflexivity.
  - reflexivity.
  - apply (bool_decide_unpack _). vm_compute. exact I.
  - apply (bool_decide_unpack _). vm_compute. exact I.
  - vm_compute. reflexivity.
  - vm_compute. reflexivity.
  - vm_compute. discriminate.
  - left. vm_compute. discriminate.
Defined.

(** * Further properties of the notifications *)

Section NotificationsMore.
Variable gettext : string -> string.
Variable format_time : Instant -> tzinfo -> string.
Implicit Types (st : Store) (tz : tzinfo) (entry : option TimetableEntry.t)
(obj : Object) (change : Change) (changes : list (Object * Change)).

Lemma change_message_effective obj change change' :
effective_delta change = effective_delta change' →
change_message gettext obj change = change_message gettext obj change'.
Proof.
unfold effective_delta, change_message.
destruct (change !! "start_dt") as [[??]|], (change' !! "start_dt") as [[??]|],
  (change !! "end_dt") as [[??]|], (change' !! "end_dt") as [[??]|];
  intros [=]; subst; by destruct obj as [ev|[b|c|b]].
Qed.

Lemma notifications_loop_effective st tz entry changes changes' acc :
same_effective_changes changes changes' →
notifications_loop gettext format_time st tz entry changes acc
= notifications_loop gettext format_time st tz entry changes' acc.
Proof.
intros Hsame. revert acc.
induction Hsame as [|[o c] [o' c'] changes changes' [Ho Hc] _ IH]; intros acc; [done|].
simpl in *. subst o'. rewrite (change_message_effective o c c' Hc).
destruct (skipped st entry o); [apply IH|].
destruct (change_message gettext o c') as [[[t new]|]|e]; simpl; [|apply IH|done].
destruct (str_bool t); apply IH.
Qed.

Lemma notifications_loop_acc st tz entry changes acc :
notifications_loop gettext format_time st tz entry changes acc
= notifications_loop gettext format_time st tz entry changes [] ≫= fun l => Ok (acc ++ l).
Proof.
revert acc. induction changes as [|[o c] changes IH]; intros acc; simpl.
- by rewrite app_nil_r.
- destruct (skipped st entry o); [apply IH|].
  destruct (change_message gettext o c) as [[[t new]|]|e]; simpl; [|apply IH|done].
  destruct (str_bool t); [|apply IH].
  rewrite (IH (acc ++ _)), (IH [_]).
  destruct (notifications_loop _ _ _ _ _ changes []); simpl; [|done].
  by rewrite <- app_assoc.
Qed.

Lemma notifications_loop_app st tz entry changes1 changes2 acc :
notifications_loop gettext format_time st tz entry (changes1 ++ changes2) acc
= notifications_loop gettext format_time st tz entry changes1 acc
  ≫= notifications_loop gettext format_time st tz entry changes2.
Proof.
revert acc. induction changes1 as [|[o c] changes1 IH]; intros acc; simpl; [done|].
destruct (skipped st entry o); [apply IH|].
destruct (change_message gettext o c) as [[[t new]|]|e]; simpl; [|apply IH|done].
destruct (str_bool t); apply IH.
Qed.

Lemma notifications_loop_length st tz entry changes acc out :
notifications_loop gettext format_time st tz entry changes acc = Ok out →
(length out ≤ length acc + length changes)%nat.
Proof.
revert acc. induction changes as [|[o c] changes IH]; intros acc; simpl.
- intros [= <-]. lia.
- destruct (skipped st entry o); [intros H%IH; lia|].
  destruct (change_message gettext o c) as [[[t new]|]|e]; simpl;
    [|intros H%IH; lia|done].
  destruct (str_bool t); intros H%IH; [|lia].
  rewrite length_app in H. simpl in H. lia.
Qed.
End NotificationsMore.

(** X10.  The notifications depend on a change record only through its
    effective delta: the new start if a start delta is recorded, else
    the new end.  The old values, any other field and, when the start
    changed, the end delta do not matter; in particular a record with
    both deltas yields the start message alone. *)
Theorem get_time_changes_notifications_effective gettext format_time st changes changes'
    tz entry :
  same_effective_changes changes changes' →
  get_time_changes_notifications gettext format_time st changes tz entry
  = get_time_changes_notifications gettext format_time st changes' tz entry.
Proof. apply notifications_loop_effective. Qed.

Lemma get_time_changes_notifications_effective_witness :
  get_time_changes_notifications no_translation clock_time workshop_store
    [keynotes_both_change] utc None
  = get_time_changes_notifications no_translation clock_time workshop_store
      [keynotes_change] utc None.
Proof.
  apply (get_time_changes_notifications_effective no_translation clock_time workshop_store
           [keynotes_both_change] [keynotes_change] utc None).
  constructor; [|constructor]. split; reflexivity.
Defined.

(** X11.  A call that returns has produced at most one message per
    changed object. *)
Theorem get_time_changes_notifications_length gettext format_time st changes tz entry out :
  get_time_changes_notifications gettext format_time st changes tz entry = Ok out →
  (length out ≤ length changes)%nat.
Proof. intros H%notifications_loop_length. simpl in H. lia. Qed.

Lemma get_time_changes_notifications_length_witness :
  (length ["Session block start time changed to 11:00"]
   ≤ length [opening_change; keynotes_change])%nat.
Proof.
  apply (get_time_changes_notifications_length no_translation clock_time workshop_store
           [opening_change; keynotes_change] utc None).
  vm_compute. reflexivity.
Defined.

(** X12.  The messages of a mapping made of two parts are the messages
    of the first part followed by those of the second, and the call
    fails as soon as one part fails, the first one first. *)
Theorem get_time_changes_notifications_app gettext format_time st changes1 changes2 tz entry :
  get_time_changes_notifications gettext format_time st (changes1 ++ changes2) tz entry
  = l1 ← get_time_changes_notifications gettext format_time st changes1 tz entry;
    l2 ← get_time_changes_notifications gettext format_time st changes2 tz entry;
    Ok (l1 ++ l2).
Proof.
  unfold get_time_changes_notifications. rewrite notifications_loop_app.
  destruct (notifications_loop _ _ _ _ _ changes1 []) as [l1|e]; simpl; [|done].
  apply notifications_loop_acc.
Qed.

(** * Further properties of the nested timetable *)

Section SortMore.
Context {A : Type}.
Implicit Types (R : A -> A -> bool) (p : A -> bool) (x y : A) (l : list A).

Lemma sort_insert_front R x l :
Forall (in_order R x) l → sort_insert R x l = x :: l.
Proof.
destruct l as [|y l]; [done|]. intros Hx. simpl.
apply Forall_cons in Hx as [Hy _]. unfold in_order in Hy. by rewrite Hy.
Qed.

Lemma stable_sort_sorted_id R l :
StronglySorted (in_order R) l → stable_sort R l = l.
Proof.
induction 1 as [|x l Hs IH Hx]; simpl; [done|].
rewrite IH. by apply sort_insert_front.
Qed.

Lemma filter_sort_insert R p x l :
Ranking R → StronglySorted (in_order R) l →
List.filter p (sort_insert R x l)
= if p x then sort_insert R x (List.filter p l) else List.filter p l.
Proof.
intros HR. induction 1 as [|y l Hs IH Hy]; simpl.
- by destruct (p x).
- destruct (R y x) eqn:Hyx; simpl.
  + rewrite IH. destruct (p y), (p x); simpl; by rewrite ?Hyx.
  + destruct (p y) eqn:Hpy; simpl; [by rewrite Hyx|].
    destruct (p x); [|done].
    symmetry. apply sort_insert_front.
    apply Forall_forall. intros z Hz.
    apply list_elem_of_In, filter_In in Hz as [Hz _]. apply list_elem_of_In in Hz.
    apply (in_order_trans R x y z); [done..|].
    by apply (proj1 (Forall_forall _ _) Hy).
Qed.

Lemma filter_stable_sort R p l :
Ranking R → List.filter p (stable_sort R l) = stable_sort R (List.filter p l).
Proof.
intros HR. induction l as [|x l IH]; simpl; [done|].
rewrite filter_sort_insert by (done || by apply stable_sort_sorted).
rewrite IH. by destruct (p x).
Qed.
End SortMore.

Lemma single_sort_before_ranking : Ranking single_sort_before.
Proof.
  eapply ranking_ext; [intros x y; symmetry; apply single_sort_before_lex|].
  apply lex_before_ranking; [apply key_before_ranking|apply later_end_before_ranking].
Qed.

Section NestedMore.
Variable isoformat : date -> string.
Variable str : Z -> string.
Variable can_access : EntryObject -> bool.

Lemma elem_of_get_nested_timetable st event include_notes show_date show_session
  detail_level e :
e ∈ get_nested_timetable isoformat str can_access st event include_notes show_date
      show_session detail_level
↔ e ∈ entries st ∧ TimetableEntry.event_id e = Event.id event
  ∧ TimetableEntry.parent_id e = None
  ∧ nested_timetable_keeps isoformat str can_access event show_date show_session
      detail_level e = true.
Proof.
unfold get_nested_timetable. rewrite sort_nested_entries_unfold, !stable_sort_perm.
unfold timetable_entries.
rewrite list_elem_of_In, filter_In, <- list_elem_of_In, !list_elem_of_filter. tauto.
Qed.
End NestedMore.

(** X13.  Ordering is idempotent: the two sort passes applied to their
    own output leave it as it is. *)
Theorem sort_nested_entries_idempotent (es : list TimetableEntry.t) :
  sort_nested_entries (sort_nested_entries es) = sort_nested_entries es.
Proof.
  rewrite !two_pass_single_sort. unfold single_sort.
  apply stable_sort_sorted_id, stable_sort_sorted, single_sort_before_ranking.
Qed.

(** X14.  Selecting entries and ordering them commute: filtering the
    ordered list by any test (as the PDF export does for one session)
    gives the list that ordering the filtered entries gives. *)
Theorem sort_nested_entries_filter (p : TimetableEntry.t -> bool)
    (es : list TimetableEntry.t) :
  List.filter p (sort_nested_entries es) = sort_nested_entries (List.filter p es).
Proof.
  rewrite !sort_nested_entries_unfold.
  rewrite filter_stable_sort by apply key_before_ranking.
  by rewrite filter_stable_sort by apply later_end_before_ranking.
Qed.

(** X15.  A top-level break of the event is always part of the nested
    timetable when its local date is the one shown (or all dates are):
    neither the session filter, nor the detail level, nor the access
    check can remove it. *)
Theorem get_nested_timetable_keeps_breaks isoformat str can_access st event include_notes
    show_date show_session detail_level e :
  e ∈ entries st →
  TimetableEntry.event_id e = Event.id event →
  TimetableEntry.parent_id e = None →
  TimetableEntry.type e = BREAK →
  show_date = "all"
  ∨ isoformat (tz_date (Event.display_tzinfo event) (TimetableEntry.start_dt e)) = show_date →
  e ∈ get_nested_timetable isoformat str can_access st event include_notes show_date
        show_session detail_level.
Proof.
  intros He Hev Hp Hty Hdate. apply elem_of_get_nested_timetable.
  repeat split; [done..|].
  unfold nested_timetable_keeps, TimetableEntry.type in *.
  destruct (TimetableEntry.object e); try done.
  destruct Hdate as [->|Hd]; [done|].
  rewrite Hd, String.eqb_refl. simpl. by rewrite andb_false_r.
Qed.

Lemma get_nested_timetable_keeps_breaks_witness :
  coffee_entry
  ∈ get_nested_timetable (fun _ => "2024-01-01") (fun _ => "7") (fun _ => false)
      workshop_store (Event.mk 5 (utc_at jan1 9 0) (utc_at jan1 17 0) utc utc [10] false)
      true "2024-01-01" "12" "session".
Proof.
  apply get_nested_timetable_keeps_breaks.
  - apply (bool_decide_unpack _). vm_compute. exact I.
  - reflexivity.
  - reflexivity.
  - reflexivity.
  - right. reflexivity.
Defined.

(** X16.  What the nested timetable never contains: every entry it
    returns is a top-level entry of the event on the date shown; it is a
    break or the viewer can access its object; a contribution appears
    only at detail level "contribution" or "all" and without session
    filter; a session block appears only if no session filter is set or
    the filter is the friendly id of its session. *)
Theorem get_nested_timetable_sound isoformat str can_access st event include_notes
    show_date show_session detail_level e :
  e ∈ get_nested_timetable isoformat str can_access st event include_notes show_date
        show_session detail_level →
  e ∈ entries st
  ∧ TimetableEntry.event_id e = Event.id event
  ∧ TimetableEntry.parent_id e = None
  ∧ (show_date = "all"
     ∨ isoformat (tz_date (Event.display_tzinfo event) (TimetableEntry.start_dt e))
       = show_date)
  ∧ (TimetableEntry.type e = BREAK ∨ can_access (TimetableEntry.object e) = true)
  ∧ (TimetableEntry.type e = CONTRIBUTION →
     (detail_level = "contribution" ∨ detail_level = "all") ∧ show_session = "all")
  ∧ (∀ b, TimetableEntry.object e = OBlock b →
          show_session = "all"
          ∨ str (Session.friendly_id (SessionBlock.session b)) = show_session).
Proof.
  intros (He & Hev & Hp & Hkeep)%elem_of_get_nested_timetable.
  split; [done|]. split; [done|]. split; [done|].
  unfold nested_timetable_keeps, TimetableEntry.type in *.
  assert (show_date = "all"
          ∨ isoformat (tz_date (Event.display_tzinfo event) (TimetableEntry.start_dt e))
            = show_date) as Hdate.
  { destruct (String.eqb_spec show_date "all") as [Hall|Hall]; [by left|]. right.
    by destruct (String.eqb_spec
                   (isoformat (tz_date (Event.display_tzinfo event)
                                 (TimetableEntry.start_dt e))) show_date). }
  split; [done|].
  destruct (_ && _) in Hkeep; [done|].
  destruct (TimetableEntry.object e) as [b|c|b].
  - destruct (String.eqb_spec show_session "all") as [Hs|Hs]; simpl in Hkeep.
    + split; [by right|]. split; [done|]. intros b' _. by left.
    + destruct (String.eqb_spec (str (Session.friendly_id (SessionBlock.session b)))
                  show_session) as [Hf|Hf]; simpl in Hkeep; [|done].
      split; [by right|]. split; [done|]. intros b' [= <-]. by right.
  - destruct (String.eqb_spec detail_level "contribution") as [Hd|Hd];
      destruct (String.eqb_spec detail_level "all") as [Hd'|Hd'];
      destruct (String.eqb_spec show_session "all") as [Hs|Hs]; simpl in Hkeep;
      try done; (split; [by right|]); (split; [|done]); intros _; split; auto.
  - split; [by left|]. split; [done|]. done.
Qed.

Lemma get_nested_timetable_sound_witness :
  coffee_entry ∈ entries workshop_store
  ∧ TimetableEntry.event_id coffee_entry = 5
  ∧ TimetableEntry.parent_id coffee_entry = None
  ∧ ("2024-01-01" = "all" ∨ "2024-01-01" = "2024-01-01")
  ∧ (TimetableEntry.type coffee_entry = BREAK ∨ false = true)
  ∧ (TimetableEntry.type coffee_entry = CONTRIBUTION →
     ("session" = "contribution" ∨ "session" = "all") ∧ "12" = "all")
  ∧ (∀ b, TimetableEntry.object coffee_entry = OBlock b → "12" = "all" ∨ "7" = "12").
Proof.
  apply (get_nested_timetable_sound (fun _ => "2024-01-01") (fun _ => "7") (fun _ => false)
           workshop_store (Event.mk 5 (utc_at jan1 9 0) (utc_at jan1 17 0) utc utc [10] false)
           true "2024-01-01" "12" "session" coffee_entry).
  apply (bool_decide_unpack _). vm_compute. exact I.
Defined.

(** * Further properties of the location conditions *)

(** X17.  The mapping [show_children_location] has exactly the ids of
    the given entries as keys, and the pair returned depends only on
    which entries are given, not on their order or on repetitions. *)
Theorem get_nested_timetable_location_conditions_keys st (es es' : list TimetableEntry.t) :
  dom (get_nested_timetable_location_conditions st es).2
  = list_to_set (TimetableEntry.id <$> es)
  ∧ ((∀ e, e ∈ es ↔ e ∈ es') →
     get_nested_timetable_location_conditions st es
     = get_nested_timetable_location_conditions st es').
Proof.
  unfold get_nested_timetable_location_conditions. simpl. split.
  - apply set_eq. intros k.
    rewrite elem_of_dom, show_children_location_lookup, elem_of_list_to_set.
    destruct (decide (k ∈ TimetableEntry.id <$> es)) as [Hin|Hout].
    + split; [done|eauto].
    + rewrite lookup_empty. split; [by intros [? ?]|done].
  - intros Hsame. f_equal.
    + apply eq_true_iff_eq. rewrite !existsb_exists.
      split; intros (e & He & Hb); exists e; split; try done;
        apply list_elem_of_In, Hsame, list_elem_of_In; exact He.
    + apply map_eq. intros k. rewrite !show_children_location_lookup.
      destruct (decide (k ∈ TimetableEntry.id <$> es)) as [Hin|Hout].
      * rewrite decide_True; [done|].
        apply list_elem_of_fmap in Hin as (e & -> & He).
        apply list_elem_of_fmap_2. by apply Hsame.
      * rewrite decide_False; [done|].
        intros (e & -> & He)%list_elem_of_fmap. apply Hout.
        apply list_elem_of_fmap_2. by apply Hsame.
Qed.

Lemma get_nested_timetable_location_conditions_keys_witness :
  get_nested_timetable_location_conditions rooms_store [room_block_entry; lunch_entry]
  = get_nested_timetable_location_conditions rooms_store
      [lunch_entry; room_block_entry; lunch_entry].
Proof.
  apply (proj2 (get_nested_timetable_location_conditions_keys rooms_store
                  [room_block_entry; lunch_entry]
                  [lunch_entry; room_block_entry; lunch_entry])).
  intros e. rewrite !elem_of_cons, !elem_of_nil. tauto.
Defined.

(** * Further properties of the category timetable aggregator *)

Section AggregatorMore.
Variable is_visible_in : Z -> Event.t -> bool.
Implicit Types (st : Store) (tz : tzinfo) (o : EntryObject) (e : Event.t).

Lemma collect_items_ids st categ_ids ds de from_categ tz items :
for_each (collect_item tz)
  (event_query_rows st ds de (visible_events is_visible_in st categ_ids ds de from_categ))
  ∅ = Ok items →
∀ i, i ∈ dom items ↔ selected_id is_visible_in st categ_ids ds de from_categ i.
Proof.
intros Hrun i.
destruct (collect_items_ok tz
            (event_query_rows st ds de
               (visible_events is_visible_in st categ_ids ds de from_categ)) ∅)
  as (items' & Hitems & Hdom & _).
{ apply event_rows_consistent. }
{ intros j t Hj. by rewrite lookup_empty in Hj. }
{ intros j m Hj. by rewrite lookup_empty in Hj. }
rewrite Hrun in Hitems. injection Hitems as <-.
rewrite elem_of_dom, Hdom, lookup_empty. unfold selected_id. split.
- intros [[? ?]|(r & Hr)]; [done|].
  apply event_rows_inv in Hr as (ev & Hev & Hid & _). eauto.
- intros (ev & Hev & <-). right. by apply event_rows_cover.
Qed.

(** Both modes run the same loops; only the filing differs. *)
Lemma category_timetable_run st categ_ids start_dt end_dt detail_level tz from_categ
  includible :
∃ items lg lf,
  for_each (collect_item tz)
    (event_query_rows st (instant start_dt) (instant end_dt)
       (visible_events is_visible_in st categ_ids (instant start_dt) (instant end_dt)
          from_categ)) ∅ = Ok items
  ∧ for_each (place_event tz start_dt end_dt true includible items)
      (List.filter (fun e => bool_decide (Event.id e ∈ dom items)) (events st))
      {| scheduled_events := ∅; ongoing_events_acc := []; events_acc := [] |} = Ok lg
  ∧ for_each (place_event tz start_dt end_dt false includible items)
      (List.filter (fun e => bool_decide (Event.id e ∈ dom items)) (events st))
      {| scheduled_events := ∅; ongoing_events_acc := []; events_acc := [] |} = Ok lf
  ∧ (∀ i by_day, items !! i = Some (Some by_day) → usable_starts by_day)
  ∧ get_category_timetable is_visible_in st categ_ids start_dt end_dt detail_level tz
      from_categ true includible
    = Ok (Grouped (scheduled_events lg) (ongoing_events_acc lg)
            (group_details tz
               (if negb (String.eqb detail_level "event")
                then _query_blocks st (dom items) (instant start_dt) (instant end_dt)
                else [])
               (if String.eqb detail_level "contribution"
                then query_contributions st (dom items) (instant start_dt) (instant end_dt)
                else [])
               (if String.eqb detail_level "contribution"
                then query_breaks st (dom items) (instant start_dt) (instant end_dt)
                else [])))
  ∧ get_category_timetable is_visible_in st categ_ids start_dt end_dt detail_level tz
      from_categ false includible
    = Ok (Ungrouped (events_acc lf) (ongoing_events_acc lf)
            (list_details
               (if negb (String.eqb detail_level "event")
                then _query_blocks st (dom items) (instant start_dt) (instant end_dt)
                else [])
               (if String.eqb detail_level "contribution"
                then query_contributions st (dom items) (instant start_dt) (instant end_dt)
                else [])
               (if String.eqb detail_level "contribution"
                then query_breaks st (dom items) (instant start_dt) (instant end_dt)
                else []))).
Proof.
unfold get_category_timetable.
fold (visible_events is_visible_in st categ_ids (instant start_dt) (instant end_dt)
        from_categ).
destruct (collect_items_ok tz
            (event_query_rows st (instant start_dt) (instant end_dt)
               (visible_events is_visible_in st categ_ids (instant start_dt)
                  (instant end_dt) from_categ)) ∅)
  as (items & Hitems & _ & _ & Hgood).
{ apply event_rows_consistent. }
{ intros i t Hi. by rewrite lookup_empty in Hi. }
{ intros i m Hi. by rewrite lookup_empty in Hi. }
rewrite Hitems, !bind_ok. cbv beta.
set (query := List.filter _ (events st)).
set (init := {| scheduled_events := ∅; ongoing_events_acc := []; events_acc := [] |}).
destruct (place_events_grouped tz start_dt end_dt includible items Hgood query init)
  as (lg & Hlg & _).
destruct (place_events_flat tz start_dt end_dt includible items query init)
  as (lf & Hlf & _).
exists items, lg, lf. rewrite Hlg, Hlf, !bind_ok.
split; [done|]. split; [done|]. split; [done|]. split; [exact Hgood|].
split; reflexivity.
Qed.

Lemma elem_of_query_blocks st ids ds de t b :
(t, b) ∈ _query_blocks st ids ds de
↔ t ∈ entries st ∧ TimetableEntry.object t = OBlock b
  ∧ Session.is_deleted (SessionBlock.session b) = false
  ∧ Session.event_id (SessionBlock.session b) ∈ ids
  ∧ dates_overlap ds de t = true.
Proof.
unfold _query_blocks. rewrite list_elem_of_omap. split.
- intros (t' & Ht' & Hsel).
  destruct (TimetableEntry.object t') as [b'|c|b'] eqn:Hobj; try done.
  destruct (negb _ && _ && _) eqn:Hc; [|done]. injection Hsel as -> ->.
  apply andb_true_iff in Hc as [Hc Ho]. apply andb_true_iff in Hc as [Hd Hi].
  apply negb_true_iff in Hd. apply bool_decide_eq_true in Hi. done.
- intros (Ht & Hobj & Hd & Hi & Ho). exists t. split; [done|].
  rewrite Hobj, Hd, Ho. simpl. by rewrite bool_decide_true.
Qed.

Lemma elem_of_query_contributions st ids ds de t c :
(t, c) ∈ query_contributions st ids ds de
↔ t ∈ entries st ∧ TimetableEntry.object t = OContribution c
  ∧ Contribution.is_deleted c = false
  ∧ Contribution.event_id c ∈ ids
  ∧ dates_overlap ds de t = true.
Proof.
unfold query_contributions. rewrite list_elem_of_omap. split.
- intros (t' & Ht' & Hsel).
  destruct (TimetableEntry.object t') as [b'|c'|b'] eqn:Hobj; try done.
  destruct (_ && _ && negb _) eqn:Hc; [|done]. injection Hsel as -> ->.
  apply andb_true_iff in Hc as [Hc Hd]. apply andb_true_iff in Hc as [Hi Ho].
  apply negb_true_iff in Hd. apply bool_decide_eq_true in Hi. done.
- intros (Ht & Hobj & Hd & Hi & Ho). exists t. split; [done|].
  rewrite Hobj, Hd, Ho. simpl. by rewrite bool_decide_true.
Qed.

Lemma elem_of_query_breaks st ids ds de t b :
(t, b) ∈ query_breaks st ids ds de
↔ t ∈ entries st ∧ TimetableEntry.object t = OBreak b
  ∧ TimetableEntry.event_id t ∈ ids
  ∧ dates_overlap ds de t = true.
Proof.
unfold query_breaks. rewrite list_elem_of_omap. split.
- intros (t' & Ht' & Hsel).
  destruct (TimetableEntry.object t') as [b'|c'|b'] eqn:Hobj; try done.
  destruct (_ && _) eqn:Hc; [|done]. injection Hsel as -> ->.
  apply andb_true_iff in Hc as [Hi Ho]. apply bool_decide_eq_true in Hi. done.
- intros (Ht & Hobj & Hi & Ho). exists t. split; [done|].
  rewrite Hobj, Ho. simpl. by rewrite bool_decide_true.
Qed.

Lemma reported_details st categ_ids ds de detail_level from_categ (ids : gset Z) o :
(∀ i, i ∈ ids ↔ selected_id is_visible_in st categ_ids ds de from_categ i) →
((∃ r, r ∈ (if negb (String.eqb detail_level "event")
            then _query_blocks st ids ds de else []) ∧ o = OBlock r.2)
 ∨ (∃ r, r ∈ (if String.eqb detail_level "contribution"
              then query_contributions st ids ds de else []) ∧ o = OContribution r.2)
 ∨ (∃ r, r ∈ (if String.eqb detail_level "contribution"
              then query_breaks st ids ds de else []) ∧ o = OBreak r.2))
↔ ∃ t, t ∈ entries st ∧ TimetableEntry.object t = o
       ∧ reported_detail is_visible_in st categ_ids ds de detail_level from_categ t.
Proof.
intros Hids. unfold reported_detail. split.
- intros [([t b] & Hr & ->)|[([t c] & Hr & ->)|([t b] & Hr & ->)]]; simpl.
  + destruct (String.eqb_spec detail_level "event") as [He|He]; simpl in Hr;
      [by apply elem_of_nil in Hr|].
    apply elem_of_query_blocks in Hr as (Ht & Hobj & Hd & Hi & Ho).
    exists t. rewrite Hobj. repeat split; try done. by apply Hids.
  + destruct (String.eqb_spec detail_level "contribution") as [He|He]; simpl in Hr;
      [|by apply elem_of_nil in Hr].
    apply elem_of_query_contributions in Hr as (Ht & Hobj & Hd & Hi & Ho).
    exists t. rewrite Hobj. repeat split; try done. by apply Hids.
  + destruct (String.eqb_spec detail_level "contribution") as [He|He]; simpl in Hr;
      [|by apply elem_of_nil in Hr].
    apply elem_of_query_breaks in Hr as (Ht & Hobj & Hi & Ho).
    exists t. rewrite Hobj. repeat split; try done. by apply Hids.
- intros (t & Ht & <- & Ho & Hkind).
  destruct (TimetableEntry.object t) as [b|c|b] eqn:Hobj.
  + destruct Hkind as (Hl & Hd & Hi). left. exists (t, b). split; [|done].
    destruct (String.eqb_spec detail_level "event") as [He|He]; [done|]. simpl.
    apply elem_of_query_blocks. repeat split; try done. by apply Hids.
  + destruct Hkind as (-> & Hd & Hi). right. left. exists (t, c). split; [|done].
    simpl. apply elem_of_query_contributions. repeat split; try done. by apply Hids.
  + destruct Hkind as (-> & Hi). right. right. exists (t, b). split; [|done].
    simpl. apply elem_of_query_breaks. repeat split; try done. by apply Hids.
Qed.
End AggregatorMore.

Section OngoingEvents.
Variables (tz : tzinfo) (start_dt end_dt : datetime) (includible : Event.t -> bool)
(items : Items).
Implicit Types (acc : EventLists) (e x : Event.t) (query : list Event.t).

(** The days on which the grouped loop files an event without
  timetable rows as ongoing. *)
Lemma days_loop_ongoing e (ls : date) (days : list date) acc x :
x ∈ ongoing_events_acc
      (foldl (fun acc day =>
                if day =? ls
                then {| scheduled_events :=
                          append_at day (Event.start_dt e, e) (scheduled_events acc);
                        ongoing_events_acc := ongoing_events_acc acc;
                        events_acc := events_acc acc |}
                else {| scheduled_events := scheduled_events acc;
                        ongoing_events_acc := ongoing_events_acc acc ++ [e];
                        events_acc := events_acc acc |})
         acc days)
↔ x ∈ ongoing_events_acc acc ∨ (x = e ∧ ∃ day, day ∈ days ∧ day ≠ ls).
Proof.
revert acc. induction days as [|day days IH]; intros acc; simpl.
- split; [by left|]. intros [?|(_ & day & Hd & _)]; [done|]. by apply elem_of_nil in Hd.
- rewrite IH. destruct (Z.eqb_spec day ls) as [->|Hne]; simpl.
  + split.
    * intros [?|(-> & d & Hd & Hn)]; [by left|]. right. split; [done|].
      exists d. split; [by apply list_elem_of_further|done].
    * intros [?|(-> & d & Hd & Hn)]; [by left|]. right. split; [done|].
      apply elem_of_cons in Hd as [->|Hd]; [done|]. eauto.
  + rewrite elem_of_app, list_elem_of_singleton. split.
    * intros [[? | ->]|(-> & d & Hd & Hn)]; [by left|right..].
      -- split; [done|]. exists day. split; [apply list_elem_of_here|done].
      -- split; [done|]. exists d. split; [by apply list_elem_of_further|done].
    * intros [?|(-> & d & Hd & Hn)]; [by left; left|].
      apply elem_of_cons in Hd as [->|Hd]; [by left; right|]. right. eauto.
Qed.

Hypothesis items_usable : ∀ i by_day, items !! i = Some (Some by_day) → usable_starts by_day.

Lemma place_event_ongoing acc e :
∃ acc', place_event tz start_dt end_dt true includible items acc e = Ok acc'
        ∧ ∀ x, x ∈ ongoing_events_acc acc'
               ↔ x ∈ ongoing_events_acc acc
                 ∨ (x = e ∧ includible e = true ∧ items !! Event.id e = Some None
                    ∧ ∃ day, day ∈ iterdays
                                     (Z.max (datetime_date start_dt)
                                            (tz_date tz (Event.start_dt e)))
                                     (Z.min (datetime_date end_dt)
                                            (tz_date tz (Event.end_dt e)))
                             ∧ day ≠ tz_date tz (Event.start_dt e)).
Proof.
destruct (place_event_grouped tz start_dt end_dt includible items items_usable acc e)
  as (acc' & Hrun & _).
exists acc'. split; [done|]. revert Hrun. unfold place_event.
destruct (includible e) eqn:Hinc; simpl.
2: { intros [= <-] x. split; [by left|]. intros [?|(_ & ? & _)]; done. }
destruct (items !! Event.id e) as [[by_day|]|] eqn:Hitem.
- intros Hrun x.
  assert (ongoing_events_acc acc' = ongoing_events_acc acc) as ->.
  { refine (for_each_preserves ongoing_events_acc _ (map_to_list by_day) acc acc' _ Hrun).
    intros s [d l] s' _. destruct l; [done|]. by intros [= <-]. }
  split; [by left|]. intros [?|(_ & _ & ? & _)]; done.
- intros [= <-] x. rewrite days_loop_ongoing. split.
  + intros [?|[-> ?]]; [by left|by right].
  + intros [?|(-> & _ & _ & ?)]; [by left|by right].
- intros [= <-] x. split; [by left|]. intros [?|(_ & _ & ? & _)]; done.
Qed.

Lemma place_events_ongoing query acc lg :
for_each (place_event tz start_dt end_dt true includible items) query acc = Ok lg →
∀ x, x ∈ ongoing_events_acc lg
     ↔ x ∈ ongoing_events_acc acc
       ∨ (x ∈ query ∧ includible x = true ∧ items !! Event.id x = Some None
          ∧ ∃ day, day ∈ iterdays
                           (Z.max (datetime_date start_dt) (tz_date tz (Event.start_dt x)))
                           (Z.min (datetime_date end_dt) (tz_date tz (Event.end_dt x)))
                   ∧ day ≠ tz_date tz (Event.start_dt x)).
Proof.
intros Hrun.
destruct (for_each_collects ongoing_events_acc
            (place_event tz start_dt end_dt true includible items)
            (fun e x => x = e ∧ includible e = true ∧ items !! Event.id e = Some None
                        ∧ ∃ day, day ∈ iterdays
                                         (Z.max (datetime_date start_dt)
                                                (tz_date tz (Event.start_dt e)))
                                         (Z.min (datetime_date end_dt)
                                                (tz_date tz (Event.end_dt e)))
                                 ∧ day ≠ tz_date tz (Event.start_dt e))
            query acc) as (acc' & Hrun' & Hmem).
{ intros s e _. apply place_event_ongoing. }
rewrite Hrun in Hrun'. injection Hrun' as <-.
intros x. rewrite Hmem. split.
- intros [?|(e & He & -> & ?)]; [by left|by right].
- intros [?|(? & ?)]; [by left|]. right. by exists x.
Qed.
End OngoingEvents.

Section AggregatorResults.
Variable is_visible_in : Z -> Event.t -> bool.
Implicit Types (st : Store) (tz : tzinfo) (o : EntryObject) (e : Event.t).

Lemma items_none_inv st categ_ids ds de from_categ tz items e :
NoDup (Event.id <$> events st) →
for_each (collect_item tz)
  (event_query_rows st ds de (visible_events is_visible_in st categ_ids ds de from_categ))
  ∅ = Ok items →
e ∈ events st →
items !! Event.id e = Some None →
e ∈ visible_events is_visible_in st categ_ids ds de from_categ
∧ overlapping_entries st ds de e = [].
Proof.
intros Hnd Hrun He Hitem.
destruct (collect_items_ok tz
            (event_query_rows st ds de
               (visible_events is_visible_in st categ_ids ds de from_categ)) ∅)
  as (items' & Hitems & _ & Hnone & _).
{ apply event_rows_consistent. }
{ intros j t Hj. by rewrite lookup_empty in Hj. }
{ intros j m Hj. by rewrite lookup_empty in Hj. }
rewrite Hrun in Hitems. injection Hitems as <-.
apply Hnone in Hitem as [Hitem|Hrow]; [by rewrite lookup_empty in Hitem|].
apply event_rows_inv in Hrow as (ev & Hev & Hid & Hno).
assert (ev = e) as ->; [|done].
apply (unique_key_inj Event.id (events st)); [done| |done..].
unfold visible_events, _query_events in Hev.
destruct from_categ.
- apply list_elem_of_In, filter_In in Hev as [Hev _].
  apply filter_In in Hev as [Hev _]. by apply list_elem_of_In.
- apply list_elem_of_In, filter_In in Hev as [Hev _]. by apply list_elem_of_In.
Qed.

Lemma elem_of_visible_events st categ_ids ds de from_categ e :
e ∈ visible_events is_visible_in st categ_ids ds de from_categ
↔ e ∈ events st
  ∧ category_chain_overlaps categ_ids e = true
  ∧ Event.is_deleted e = false
  ∧ (existsb (dates_overlap ds de) (timetable_entries st e) = true
     ∨ happens_between e ds de = true)
  ∧ (∀ c, from_categ = Some c → is_visible_in c e = true).
Proof.
assert (e ∈ _query_events st categ_ids ds de
        ↔ e ∈ events st
          ∧ category_chain_overlaps categ_ids e = true
          ∧ Event.is_deleted e = false
          ∧ (existsb (dates_overlap ds de) (timetable_entries st e) = true
             ∨ happens_between e ds de = true)) as Hq.
{ unfold _query_events.
  rewrite list_elem_of_In, filter_In, <- list_elem_of_In, !andb_true_iff, orb_true_iff,
    negb_true_iff. tauto. }
unfold visible_events. destruct from_categ as [c|].
- rewrite list_elem_of_In, filter_In, <- list_elem_of_In, Hq. split.
  + intros [(? & ? & ? & ?) Hv]. repeat split; try done. by intros c' [= <-].
  + intros (? & ? & ? & ? & Hv). repeat split; try done. by apply Hv.
- rewrite Hq. split.
  + intros (? & ? & ? & ?). repeat split; done.
  + intros (? & ? & ? & ? & _). repeat split; done.
Qed.
End AggregatorResults.

(** X18.  In either mode the session blocks, contributions and breaks
    of a result are exactly the objects of the entries that start in the
    window and belong to an event selected by the events query:
    session blocks of sessions that are not deleted unless the detail
    level is "event", contributions that are not deleted and breaks at
    detail level "contribution" only.  The [includible] test plays no
    part in it. *)
Theorem get_category_timetable_details is_visible_in st categ_ids start_dt end_dt
    detail_level tz from_categ grouped includible r :
  get_category_timetable is_visible_in st categ_ids start_dt end_dt detail_level tz
    from_categ grouped includible = Ok r →
  ∀ o, o ∈ timetable_objects r
       ↔ ∃ t, t ∈ entries st ∧ TimetableEntry.object t = o
              ∧ reported_detail is_visible_in st categ_ids (instant start_dt)
                  (instant end_dt) detail_level from_categ t.
Proof.
  destruct (category_timetable_run is_visible_in st categ_ids start_dt end_dt detail_level
              tz from_categ includible)
    as (items & lg & lf & Hitems & _ & _ & _ & Hg & Hu).
  pose proof (collect_items_ids is_visible_in _ _ _ _ _ _ _ Hitems) as Hids.
  intros Hr o. destruct grouped.
  - rewrite Hg in Hr. injection Hr as <-. simpl.
    rewrite objects_group_details. by apply reported_details.
  - rewrite Hu in Hr. injection Hr as <-. simpl.
    rewrite objects_list_details. by apply reported_details.
Qed.

Lemma get_category_timetable_details_witness :
  ∃ r,
    get_category_timetable everything_visible conference_store [10] utc_window_start
      utc_window_end "session" utc None true (fun _ => false) = Ok r
    ∧ ∀ o, o ∈ timetable_objects r
           ↔ ∃ t, t ∈ entries conference_store ∧ TimetableEntry.object t = o
                  ∧ reported_detail everything_visible conference_store [10]
                      (instant utc_window_start) (instant utc_window_end) "session" None t.
Proof.
  eexists. split; [reflexivity|].
  apply (get_category_timetable_details everything_visible conference_store [10]
           utc_window_start utc_window_end "session" utc None true (fun _ => false)).
  reflexivity.
Defined.

Section AggregatorEvents.
Variable is_visible_in : Z -> Event.t -> bool.
Implicit Types (st : Store) (tz : tzinfo) (e : Event.t).

Lemma collect_items_some_inv tz rows (items items' : Items) i by_day :
for_each (collect_item tz) rows items = Ok items' →
items' !! i = Some (Some by_day) →
(∃ m, items !! i = Some (Some m)) ∨ ∃ t, (i, Some t) ∈ rows.
Proof.
revert items. induction rows as [|[j r] rows IH]; intros items; cbn [for_each].
- intros [= <-] Hi. left. eauto.
- intros Hrun Hi.
  destruct (collect_item tz items (j, r)) as [items1|] eqn:Hstep; [|done].
  simpl in Hrun. destruct (IH items1 Hrun Hi) as [[m Hm]|[t Ht]].
  + unfold collect_item in Hstep. destruct (decide (j = i)) as [->|Hne].
    * destruct r as [t|]; [right; exists t; apply list_elem_of_here|].
      injection Hstep as <-. by rewrite lookup_insert_eq in Hm.
    * left. exists m. destruct r as [t|].
      -- destruct (items !! j) as [[?|]|]; [| done |]; injection Hstep as <-;
           by rewrite lookup_insert_ne in Hm.
      -- injection Hstep as <-. by rewrite lookup_insert_ne in Hm.
  + right. exists t. by apply list_elem_of_further.
Qed.

Lemma event_rows_none st ds de q ev :
ev ∈ q → overlapping_entries st ds de ev = [] →
(Event.id ev, None) ∈ event_query_rows st ds de q.
Proof.
intros Hev Hno. unfold event_query_rows.
rewrite list_elem_of_In, in_flat_map. exists ev. split.
- apply list_elem_of_In. by rewrite stable_sort_perm.
- rewrite Hno. by left.
Qed.

Lemma items_none_iff st categ_ids ds de from_categ tz items e :
NoDup (Event.id <$> events st) →
for_each (collect_item tz)
  (event_query_rows st ds de (visible_events is_visible_in st categ_ids ds de from_categ))
  ∅ = Ok items →
e ∈ events st →
items !! Event.id e = Some None
↔ e ∈ visible_events is_visible_in st categ_ids ds de from_categ
  ∧ overlapping_entries st ds de e = [].
Proof.
intros Hnd Hrun He. split; [by eapply items_none_inv|].
intros [Hvis Hno].
pose proof (event_rows_none st ds de _ e Hvis Hno) as Hrow.
assert (Event.id e ∈ dom items) as Hdom.
{ eapply collect_items_ids; [done|]. by exists e. }
apply elem_of_dom in Hdom as [[by_day|] Hitem]; [|done].
destruct (collect_items_some_inv _ _ _ _ _ _ Hrun Hitem) as [[m Hm]|[t Ht]].
- by rewrite lookup_empty in Hm.
- by destruct (event_rows_consistent _ _ _ _ _ _ Hrow Ht).
Qed.

Lemma elem_of_loaded_events st categ_ids ds de from_categ tz items e :
NoDup (Event.id <$> events st) →
for_each (collect_item tz)
  (event_query_rows st ds de (visible_events is_visible_in st categ_ids ds de from_categ))
  ∅ = Ok items →
e ∈ List.filter (fun e => bool_decide (Event.id e ∈ dom items)) (events st)
↔ e ∈ visible_events is_visible_in st categ_ids ds de from_categ.
Proof.
intros Hnd Hrun.
rewrite list_elem_of_In, filter_In, <- list_elem_of_In, bool_decide_eq_true.
rewrite (collect_items_ids is_visible_in _ _ _ _ _ _ _ Hrun). split.
- intros [He (ev & Hev & Hid)].
  assert (ev = e) as ->; [|done].
  apply (unique_key_inj Event.id (events st)); [done| |done..].
  by apply elem_of_visible_events in Hev as [? _].
- intros Hvis. split; [by apply elem_of_visible_events in Hvis as [? _]|].
  by exists e.
Qed.
End AggregatorEvents.

(** X19.  The ungrouped output lists no ongoing events, and its events
    are exactly the events of the given categories that are not
    deleted, have an entry starting in the window or span part of it,
    are visible from [from_categ] when one is given, and pass
    [includible].  (Event ids are unique.) *)
Theorem get_category_timetable_flat_events is_visible_in st categ_ids start_dt end_dt
    detail_level tz from_categ includible r :
  NoDup (Event.id <$> events st) →
  get_category_timetable is_visible_in st categ_ids start_dt end_dt detail_level tz
    from_categ false includible = Ok r →
  ∃ evs details,
    r = Ungrouped evs [] details
    ∧ ∀ e, e ∈ evs
           ↔ e ∈ events st
             ∧ category_chain_overlaps categ_ids e = true
             ∧ Event.is_deleted e = false
             ∧ (existsb (dates_overlap (instant start_dt) (instant end_dt))
                        (timetable_entries st e) = true
                ∨ happens_between e (instant start_dt) (instant end_dt) = true)
             ∧ (∀ c, from_categ = Some c → is_visible_in c e = true)
             ∧ includible e = true.
Proof.
  intros Hnd Hr.
  destruct (category_timetable_run is_visible_in st categ_ids start_dt end_dt detail_level
              tz from_categ includible)
    as (items & lg & lf & Hitems & _ & Hlf & _ & _ & Hu).
  rewrite Hu in Hr. injection Hr as <-.
  destruct (place_events_flat tz start_dt end_dt includible items
              (List.filter (fun e => bool_decide (Event.id e ∈ dom items)) (events st))
              {| scheduled_events := ∅; ongoing_events_acc := []; events_acc := [] |})
    as (lf' & Hlf' & _ & Hon & Hmem).
  rewrite Hlf in Hlf'. injection Hlf' as <-. simpl in Hon.
  eexists _, _. split; [by rewrite Hon|].
  intros e. rewrite Hmem. simpl.
  rewrite (elem_of_loaded_events is_visible_in _ _ _ _ _ _ _ _ Hnd Hitems).
  rewrite elem_of_visible_events, elem_of_nil. tauto.
Qed.

Lemma get_category_timetable_flat_events_witness :
  ∃ evs details,
    Ungrouped [conference; seminar] [] details = Ungrouped evs [] details
    ∧ ∀ e, e ∈ evs
           ↔ e ∈ events conference_store
             ∧ category_chain_overlaps [10] e = true
             ∧ Event.is_deleted e = false
             ∧ (existsb (dates_overlap (instant utc_window_start) (instant utc_window_end))
                        (timetable_entries conference_store e) = true
                ∨ happens_between e (instant utc_window_start) (instant utc_window_end)
                  = true)
             ∧ (∀ c, (None : option Z) = Some c → everything_visible c e = true)
             ∧ everything_includible e = true.
Proof.
  destruct (get_category_timetable_flat_events everything_visible conference_store [10]
              utc_window_start utc_window_end "event" utc None everything_includible
              (Ungrouped [conference; seminar] [] ∅))
    as (evs & details & Heq & Hmem).
  - apply (bool_decide_unpack _). vm_compute. exact I.
  - reflexivity.
  - injection Heq as <- <-. exists [conference; seminar], ∅. split; [done|]. exact Hmem.
Defined.

(** X20.  In grouped mode an event is listed as ongoing exactly when it
    is selected and includible, has no entry starting in the window,
    and there is a day of the window, later than its local start date
    and not later than its local end date.  (Event ids are unique.) *)
Theorem get_category_timetable_ongoing is_visible_in st categ_ids start_dt end_dt
    detail_level tz from_categ includible r :
  NoDup (Event.id <$> events st) →
  get_category_timetable is_visible_in st categ_ids start_dt end_dt detail_level tz
    from_categ true includible = Ok r →
  ∃ scheduled ongoing details,
    r = Grouped scheduled ongoing details
    ∧ ∀ e, e ∈ ongoing
           ↔ e ∈ visible_events is_visible_in st categ_ids (instant start_dt)
                   (instant end_dt) from_categ
             ∧ includible e = true
             ∧ overlapping_entries st (instant start_dt) (instant end_dt) e = []
             ∧ ∃ day, datetime_date start_dt ≤ day ≤ datetime_date end_dt
                      ∧ tz_date tz (Event.start_dt e) < day ≤ tz_date tz (Event.end_dt e).
Proof.
  intros Hnd Hr.
  destruct (category_timetable_run is_visible_in st categ_ids start_dt end_dt detail_level
              tz from_categ includible)
    as (items & lg & lf & Hitems & Hlg & _ & Hgood & Hg & _).
  rewrite Hg in Hr. injection Hr as <-.
  eexists _, _, _. split; [done|]. intros e.
  rewrite (place_events_ongoing tz start_dt end_dt includible items Hgood _ _ _ Hlg).
  simpl. rewrite elem_of_nil.
  rewrite (elem_of_loaded_events is_visible_in _ _ _ _ _ _ _ _ Hnd Hitems).
  assert ((∃ day, day ∈ iterdays
                          (Z.max (datetime_date start_dt) (tz_date tz (Event.start_dt e)))
                          (Z.min (datetime_date end_dt) (tz_date tz (Event.end_dt e)))
                  ∧ day ≠ tz_date tz (Event.start_dt e))
          ↔ ∃ day, datetime_date start_dt ≤ day ≤ datetime_date end_dt
                   ∧ tz_date tz (Event.start_dt e) < day ≤ tz_date tz (Event.end_dt e))
    as Hdays.
  { unfold iterdays. split; intros (day & Hd); exists day.
    - destruct Hd as [Hd Hne]. apply elem_of_seqZ in Hd. lia.
    - split; [apply elem_of_seqZ|]; lia. }
  rewrite Hdays. split.
  - intros [[]|(Hvis & Hinc & Hitem & Hday)].
    apply (items_none_iff is_visible_in _ _ _ _ _ _ _ _ Hnd Hitems) in Hitem;
      [|by apply elem_of_visible_events in Hvis as [? _]].
    by destruct Hitem.
  - intros (Hvis & Hinc & Hno & Hday). right. repeat split; [done..| |done].
    apply (items_none_iff is_visible_in _ _ _ _ _ _ _ _ Hnd Hitems);
      [by apply elem_of_visible_events in Hvis as [? _]|done].
Qed.

Lemma get_category_timetable_ongoing_witness :
  ∃ scheduled ongoing details,
    get_category_timetable everything_visible two_day_store [10]
      {| instant := utc_at (jan1 + 1) 0 0; dt_tzinfo := utc |}
      {| instant := utc_at (jan1 + 1) 23 0; dt_tzinfo := utc |}
      "event" utc None true everything_includible
    = Ok (Grouped scheduled ongoing details)
    ∧ ∀ e, e ∈ ongoing
           ↔ e ∈ visible_events everything_visible two_day_store [10]
                   (utc_at (jan1 + 1) 0 0) (utc_at (jan1 + 1) 23 0) None
             ∧ everything_includible e = true
             ∧ overlapping_entries two_day_store (utc_at (jan1 + 1) 0 0)
                 (utc_at (jan1 + 1) 23 0) e = []
             ∧ ∃ day, tz_date utc (utc_at (jan1 + 1) 0 0) ≤ day
                      ≤ tz_date utc (utc_at (jan1 + 1) 23 0)
                      ∧ tz_date utc (Event.start_dt e) < day ≤ tz_date utc (Event.end_dt e).
Proof.
  destruct (get_category_timetable_ongoing everything_visible two_day_store [10]
              {| instant := utc_at (jan1 + 1) 0 0; dt_tzinfo := utc |}
              {| instant := utc_at (jan1 + 1) 23 0; dt_tzinfo := utc |}
              "event" utc None everything_includible
              (Grouped ∅ [two_day_event] ∅))
    as (scheduled & ongoing & details & Heq & Hmem).
  - apply (bool_decide_unpack _). vm_compute. exact I.
  - reflexivity.
  - injection Heq as <- <- <-. exists ∅, [two_day_event], ∅. split; [reflexivity|].
    exact Hmem.
Defined.

(** * Entries by level *)

Section Grouping.
Context `{Countable K} {A : Type} (key : A -> K).
Implicit Types (d : gmap K (list A)) (l : list A) (k : K).

Lemma foldl_append_at_default l d k :
default [] (foldl (fun d x => append_at (key x) x d) d l !! k)
= default [] (d !! k) ++ filter (fun x => key x = k) l.
Proof.
revert d. induction l as [|x l IH]; intros d; simpl.
- by rewrite filter_nil, app_nil_r.
- rewrite IH. unfold append_at. destruct (decide (key x = k)) as [Hk|Hk].
  + rewrite filter_cons_True by done. rewrite Hk, lookup_insert_eq. simpl.
    by rewrite <- app_assoc.
  + rewrite filter_cons_False by done. by rewrite lookup_insert_ne.
Qed.

Lemma foldl_append_at_is_Some l d k :
is_Some (foldl (fun d x => append_at (key x) x d) d l !! k)
↔ is_Some (d !! k) ∨ filter (fun x => key x = k) l ≠ [].
Proof.
revert d. induction l as [|x l IH]; intros d; simpl.
- rewrite filter_nil. split; [by left | by intros [?|?]].
- rewrite IH. unfold append_at. destruct (decide (key x = k)) as [Hk|Hk].
  + rewrite filter_cons_True by done. rewrite Hk, lookup_insert_eq.
    split; [by right | by eauto].
  + rewrite filter_cons_False by done. by rewrite lookup_insert_ne.
Qed.

Lemma foldl_append_at_lookup l k g :
foldl (fun d x => append_at (key x) x d) ∅ l !! k = Some g
↔ g = filter (fun x => key x = k) l ∧ g ≠ [].
Proof.
pose proof (foldl_append_at_default l ∅ k) as Hdef.
pose proof (foldl_append_at_is_Some l ∅ k) as Hsome.
rewrite lookup_empty in Hdef, Hsome. simpl in Hdef. split.
- intros Hg. rewrite Hg in Hdef, Hsome. simpl in Hdef. subst g. split; [done|].
  destruct (proj1 Hsome) as [[? [=]]|?]; by eauto.
- intros [-> Hne]. destruct (proj2 Hsome) as [g Hg]; [by right|].
  rewrite Hg in Hdef. simpl in Hdef. by rewrite Hg, Hdef.
Qed.

Lemma flat_values_append_at k (v : A) d :
flat_values id (append_at k v d) ≡ₚ v :: flat_values id d.
Proof.
unfold flat_values, append_at. destruct (d !! k) as [g|] eqn:Hk; simpl.
- rewrite <- insert_delete_eq.
  rewrite map_to_list_insert by apply lookup_delete_eq.
  rewrite <- (map_to_list_delete d k g) by done.
  rewrite !bind_cons. simpl.
  rewrite <- app_assoc. simpl. by rewrite <- Permutation_middle.
- rewrite map_to_list_insert by done. by rewrite bind_cons.
Qed.

Lemma flat_values_foldl_append_at l d :
flat_values id (foldl (fun d x => append_at (key x) x d) d l) ≡ₚ flat_values id d ++ l.
Proof.
revert d. induction l as [|x l IH]; intros d; simpl.
- by rewrite app_nil_r.
- rewrite IH, flat_values_append_at. by rewrite <- Permutation_middle.
Qed.
End Grouping.

(** X21.  The mapping [get_nested_entries] builds has a key for exactly
    the parents that have a child among the event's entries, never the
    key [None], and the list under a parent is the event's entries with
    that parent, in the order of the query. *)
Theorem get_nested_entries_buckets st event (p : option Z) (l : list TimetableEntry.t) :
  get_nested_entries st event !! p = Some l
  ↔ p ≠ None ∧ l ≠ []
    ∧ l = filter (fun t => TimetableEntry.parent_id t = p) (timetable_entries st event).
Proof.
  unfold get_nested_entries. rewrite foldl_append_at_lookup.
  rewrite list_filter_filter.
  destruct p as [i|].
  - assert (filter (fun t => TimetableEntry.parent_id t = Some i
                             ∧ TimetableEntry.parent_id t ≠ None)
                   (timetable_entries st event)
            = filter (fun t => TimetableEntry.parent_id t = Some i)
                     (timetable_entries st event)) as ->.
    { apply list_filter_iff. intros t. split; [by intros [? _]|]. intros Ht.
      split; [done|]. by rewrite Ht. }
    split; [intros [-> ?] | intros (_ & ? & ->)]; done.
  - split; [|by intros (? & _)]. intros [-> Hne]. exfalso. apply Hne. clear Hne.
    induction (timetable_entries st event) as [|t ts IH]; [done|].
    rewrite filter_cons_False; [done|]. by intros [? ?].
Qed.

(** X22.  The two lookups split the event's timetable: the top-level
    entries together with the entries found in the mapping of
    [get_nested_entries] are the event's entries, each exactly once. *)
Theorem get_entries_by_level_partition st event :
  get_top_level_entries st event ++ flat_values id (get_nested_entries st event)
  ≡ₚ timetable_entries st event.
Proof.
  unfold get_top_level_entries, get_nested_entries.
  rewrite flat_values_foldl_append_at, flat_values_empty. simpl.
  apply filter_app_complement.
Qed.

(** * PDF export *)

Section GroupBy.
Context {A K : Type} `{EqDecision K} (key : A -> K).
Implicit Types (l : list A) (gs : list (K * list A)).

Lemma groupby_cons x l :
groupby key (x :: l)
= match groupby key l with
  | (k, g) :: rest =>
      if decide (key x = k) then (k, x :: g) :: rest
      else (key x, [x]) :: (k, g) :: rest
  | [] => [(key x, [x])]
  end.
Proof. reflexivity. Qed.

Lemma groupby_concat l : concat ((groupby key l).*2) = l.
Proof.
induction l as [|x l IH]; [done|]. rewrite groupby_cons.
destruct (groupby key l) as [|[k g] rest]; simpl in *.
- by rewrite <- IH.
- destruct (decide (key x = k)); simpl; by rewrite <- IH.
Qed.

Lemma groupby_groups l :
Forall (fun kg => kg.2 ≠ [] ∧ Forall (fun x => key x = kg.1) kg.2) (groupby key l).
Proof.
induction l as [|x l IH]; [constructor|]. rewrite groupby_cons.
destruct (groupby key l) as [|[k g] rest].
- repeat constructor; done.
- apply Forall_cons in IH as [[Hne Hg] Hrest]. simpl in *.
  destruct (decide (key x = k)).
  + constructor; [|done]. simpl. split; [done|]. by constructor.
  + constructor; [by repeat constructor|]. by constructor.
Qed.

Lemma groupby_head x l k g rest :
groupby key (x :: l) = (k, g) :: rest → k = key x.
Proof.
rewrite groupby_cons. destruct (groupby key l) as [|[k' g'] rest'].
- by intros [= <- _ _].
- destruct (decide (key x = k')); [intros [= <- _ _] | intros [= <- _ _]]; done.
Qed.

Lemma dict_set_fresh {V : Type} (k : K) (v : V) (d : list (K * V)) :
k ∉ d.*1 → dict_set k v d = d ++ [(k, v)].
Proof.
induction d as [|[k' v'] d IH]; simpl; [done|].
rewrite not_elem_of_cons. intros [Hne Hk].
destruct (decide (k' = k)) as [->|_]; [done|]. by rewrite IH.
Qed.

Lemma foldl_dict_set_distinct {V : Type} (ps acc : list (K * V)) :
NoDup ((acc ++ ps).*1) →
foldl (fun d kv => dict_set kv.1 kv.2 d) acc ps = acc ++ ps.
Proof.
revert acc. induction ps as [|[k v] ps IH]; intros acc Hnd; simpl.
- by rewrite app_nil_r.
- assert (k ∉ acc.*1) as Hk.
  { rewrite fmap_app in Hnd. apply NoDup_app in Hnd as (_ & Hdis & _).
    intros Hin. apply (Hdis k Hin). simpl. apply list_elem_of_here. }
  rewrite dict_set_fresh by done.
  rewrite IH; rewrite <- app_assoc; done.
Qed.

Lemma dict_of_pairs_distinct {V : Type} (ps : list (K * V)) :
NoDup (ps.*1) → dict_of_pairs ps = ps.
Proof. intros Hnd. unfold dict_of_pairs. by rewrite foldl_dict_set_distinct. Qed.

Lemma groups_filter gs k g :
NoDup (gs.*1) →
Forall (fun kg => Forall (fun x => key x = kg.1) kg.2) gs →
(k, g) ∈ gs →
filter (fun x => key x = k) (concat (gs.*2)) = g.
Proof.
assert (∀ k' (g' : list A), Forall (fun x => key x = k') g' →
          filter (fun x => key x = k) g' = if decide (k' = k) then g' else [])
  as Hone.
{ intros k' g' Hg'. induction Hg' as [|x g' Hx Hg' IH]; [by destruct (decide _)|].
  destruct (decide (k' = k)) as [Hk|Hk].
  - rewrite filter_cons_True by congruence. by rewrite IH.
  - rewrite filter_cons_False by congruence. done. }
induction gs as [|[k' g'] gs IH]; csimpl; intros Hnd Hall Hin.
- by apply elem_of_nil in Hin.
- apply NoDup_cons in Hnd as [Hk' Hnd]. apply Forall_cons in Hall as [Hg' Hall].
  rewrite filter_app, (Hone k' g' Hg').
  apply elem_of_cons in Hin as [[= <- <-]|Hin].
  + rewrite decide_True by done.
    assert (filter (fun x => key x = k) (concat (gs.*2)) = []) as ->;
      [|by rewrite app_nil_r].
    clear IH Hnd. induction gs as [|[k2 g2] gs IH]; csimpl; [done|].
    apply Forall_cons in Hall as [Hg2 Hall].
    rewrite filter_app, (Hone k2 g2 Hg2).
    rewrite decide_False.
    * apply IH; [|done]. intros Hin. apply Hk'. csimpl. by apply list_elem_of_further.
    * intros ->. apply Hk'. csimpl. apply list_elem_of_here.
  + rewrite decide_False.
    * csimpl. by apply IH.
    * intros ->. apply Hk'. apply list_elem_of_fmap. by exists (k, g).
Qed.
End GroupBy.

Lemma groupby_increasing {A : Type} (key : A -> Z) (l : list A) :
  StronglySorted (fun x y => key x ≤ key y) l →
  StronglySorted Z.lt ((groupby key l).*1).
Proof.
  induction 1 as [|x l Hs IH Hx]; [constructor|].
  rewrite groupby_cons.
  destruct l as [|y l]; [repeat constructor|].
  destruct (groupby key (y :: l)) as [|[k g] rest] eqn:Hg; [repeat constructor|].
  pose proof (groupby_head key y l k g rest Hg) as ->.
  apply Forall_cons in Hx as [Hxy _].
  destruct (decide (key x = key y)) as [Heq|Hne]; [done|].
  simpl in *. constructor; [done|].
  apply StronglySorted_inv in IH as [_ Hrest].
  constructor; [lia|]. eapply Forall_impl; [exact Hrest|]. simpl. lia.
Qed.

Lemma strongly_sorted_lt_NoDup (l : list Z) : StronglySorted Z.lt l → NoDup l.
Proof.
  induction 1 as [|x l Hs IH Hx]; constructor; [|done].
  intros Hin. apply (proj1 (Forall_forall _ _) Hx) in Hin. lia.
Qed.

Lemma strongly_sorted_impl {A : Type} (P Q : A -> A -> Prop) (l : list A) :
  (∀ x y, P x y → Q x y) → StronglySorted P l → StronglySorted Q l.
Proof.
  intros HPQ. induction 1 as [|x l Hs IH Hx]; constructor; [done|].
  eapply Forall_impl; [exact Hx|]. auto.
Qed.

Section PdfMore.
Variable isoformat : date -> string.
Variable str : Z -> string.
Variable can_access : EntryObject -> bool.

Lemma pdf_entries_sorted st event only_session :
StronglySorted (fun y x => TimetableEntry.start_dt y ≤ TimetableEntry.start_dt x)
  (pdf_entries isoformat str can_access st event only_session).
Proof.
assert (∀ es, StronglySorted
                (fun y x => TimetableEntry.start_dt y ≤ TimetableEntry.start_dt x)
                (sort_nested_entries es)) as Hsorted.
{ intros es. rewrite sort_nested_entries_unfold.
  eapply strongly_sorted_impl; [|apply stable_sort_sorted, key_before_ranking].
  intros y x Hyx. by apply key_before_false in Hyx as [? _]. }
unfold pdf_entries, get_nested_timetable. destruct only_session as [s|]; [|done].
rewrite sort_nested_entries_unfold.
rewrite filter_stable_sort by apply key_before_ranking.
rewrite filter_stable_sort by apply later_end_before_ranking.
rewrite <- sort_nested_entries_unfold. apply Hsorted.
Qed.

Lemma pdf_days_groupby st event only_session :
monotone_dates (Event.tzinfo event) →
pdf_days isoformat str can_access st event only_session
= groupby (fun e => tz_date (Event.tzinfo event) (TimetableEntry.start_dt e))
          (pdf_entries isoformat str can_access st event only_session)
∧ StronglySorted Z.lt ((pdf_days isoformat str can_access st event only_session).*1).
Proof.
intros Hmono.
assert (StronglySorted Z.lt
          ((groupby (fun e => tz_date (Event.tzinfo event) (TimetableEntry.start_dt e))
                    (pdf_entries isoformat str can_access st event only_session)).*1))
  as Hinc.
{ apply groupby_increasing.
  eapply strongly_sorted_impl; [|apply pdf_entries_sorted].
  intros y x. apply Hmono. }
unfold pdf_days. rewrite dict_of_pairs_distinct; [done|].
by apply strongly_sorted_lt_NoDup.
Qed.
End PdfMore.

(** X23.  When the local date of the event's zone never goes back in
    time, the days handed to the PDF template lose nothing: read in
    order they give back the entries of the export; the days come in
    strictly increasing order; and each day holds exactly the entries
    of the export that start on it, at least one. *)
Theorem pdf_days_by_date isoformat str can_access st event only_session :
  monotone_dates (Event.tzinfo event) →
  concat ((pdf_days isoformat str can_access st event only_session).*2)
  = pdf_entries isoformat str can_access st event only_session
  ∧ StronglySorted Z.lt ((pdf_days isoformat str can_access st event only_session).*1)
  ∧ ∀ d l, (d, l) ∈ pdf_days isoformat str can_access st event only_session →
           l ≠ []
           ∧ l = filter (fun e => tz_date (Event.tzinfo event) (TimetableEntry.start_dt e) = d)
                        (pdf_entries isoformat str can_access st event only_session).
Proof.
  intros Hmono.
  destruct (pdf_days_groupby isoformat str can_access st event only_session Hmono)
    as [Hdays Hinc].
  split; [|split; [done|]].
  - rewrite Hdays. apply groupby_concat.
  - intros d l Hin. rewrite Hdays in Hin, Hinc.
    pose proof (groupby_groups
                  (fun e => tz_date (Event.tzinfo event) (TimetableEntry.start_dt e))
                  (pdf_entries isoformat str can_access st event only_session)) as Hgroups.
    split.
    + by apply (proj1 (Forall_forall _ _) Hgroups (d, l)) in Hin as [? _].
    + symmetry.
      rewrite <- (groupby_concat
                    (fun e => tz_date (Event.tzinfo event) (TimetableEntry.start_dt e))
                    (pdf_entries isoformat str can_access st event only_session)) at 1.
      apply groups_filter; [by apply strongly_sorted_lt_NoDup| |done].
      eapply Forall_impl; [exact Hgroups|]. by intros kg [_ ?].
Qed.

Lemma pdf_days_by_date_witness :
  pdf_days (fun _ => EmptyString) (fun _ => EmptyString) (fun _ => true)
    conference_store conference None
  = [(jan1, [conference_block_entry; conference_break_entry; conference_talk_entry])]
  ∧ concat ((pdf_days (fun _ => EmptyString) (fun _ => EmptyString) (fun _ => true)
               conference_store conference None).*2)
    = pdf_entries (fun _ => EmptyString) (fun _ => EmptyString) (fun _ => true)
        conference_store conference None.
Proof.
  split; [vm_compute; reflexivity|].
  apply (pdf_days_by_date (fun _ => EmptyString) (fun _ => EmptyString) (fun _ => true)
           conference_store conference None).
  intros t1 t2 Hle. unfold conference, utc, fixed_offset. simpl.
  apply Z.div_le_mono; [vm_compute; reflexivity | lia].
Defined.

(** X24.  Under the same condition the export lists exactly the
    top-level entries of the event that are breaks or that the user may
    access, and with [only_session] only the blocks of that session
    among them. *)
Theorem pdf_days_entries isoformat str can_access st event only_session e :
  monotone_dates (Event.tzinfo event) →
  e ∈ concat ((pdf_days isoformat str can_access st event only_session).*2)
  ↔ e ∈ timetable_entries st event
    ∧ TimetableEntry.parent_id e = None
    ∧ (TimetableEntry.type e = BREAK ∨ can_access (TimetableEntry.object e) = true)
    ∧ match only_session with
      | Some s => ∃ b, TimetableEntry.object e = OBlock b
                       ∧ Session.id (SessionBlock.session b) = Session.id s
      | None => True
      end.
Proof.
  intros Hmono.
  destruct (pdf_days_groupby isoformat str can_access st event only_session Hmono)
    as [-> _].
  rewrite groupby_concat. unfold pdf_entries.
  assert (∀ e, e ∈ get_nested_timetable isoformat str can_access st event true
                     "all" "all" "all"
               ↔ e ∈ timetable_entries st event ∧ TimetableEntry.parent_id e = None
                 ∧ (TimetableEntry.type e = BREAK
                    ∨ can_access (TimetableEntry.object e) = true)) as Hnested.
  { intros e'. rewrite elem_of_get_nested_timetable. unfold timetable_entries.
    rewrite list_elem_of_filter.
    unfold nested_timetable_keeps, TimetableEntry.type. simpl.
    destruct (TimetableEntry.object e'); simpl; intuition congruence. }
  destruct only_session as [s|].
  - rewrite list_elem_of_In, filter_In, <- list_elem_of_In, Hnested.
    unfold session_block_has_session_id, TimetableEntry.type.
    destruct (TimetableEntry.object e) as [b| |]; simpl.
    + rewrite Z.eqb_eq. split.
      * intros [(? & ? & ?) ?]. repeat split; [done..|]. by exists b.
      * intros (? & ? & ? & b' & [= <-] & ?). done.
    + split; [by intros [_ ?]|]. by intros (_ & _ & _ & b' & ? & _).
    + split; [by intros [_ ?]|]. by intros (_ & _ & _ & b' & ? & _).
  - rewrite Hnested. tauto.
Qed.

Lemma pdf_days_entries_witness :
  conference_block_entry
  ∈ concat ((pdf_days (fun _ => EmptyString) (fun _ => EmptyString) (fun _ => true)
               conference_store conference
               (Some (Session.mk 9 11 "K" 1 true false))).*2).
Proof.
  apply (pdf_days_entries (fun _ => EmptyString) (fun _ => EmptyString) (fun _ => true)
           conference_store conference (Some (Session.mk 9 11 "K" 1 true false))).
  - intros t1 t2 Hle. unfold conference, utc, fixed_offset. simpl.
    apply Z.div_le_mono; [vm_compute; reflexivity | lia].
  - split; [apply (bool_decide_unpack _); vm_compute; exact I|].
    split; [reflexivity|]. split; [by right|].
    eexists. split; reflexivity.
Defined.

(** * Editing menu *)

Lemma menu_before_lex y x :
  menu_before y x
  = lex_before (fun y x => SideMenuItem.weight x <? SideMenuItem.weight y)
      (fun y x => String.ltb (SideMenuItem.title y) (SideMenuItem.title x)) y x.
Proof.
  unfold menu_before, menu_key_lt, menu_sort_key, lex_before. simpl.
  destruct (Z.eqb_spec (- SideMenuItem.weight y) (- SideMenuItem.weight x)) as [Heq|Hne];
    simpl.
  - assert (SideMenuItem.weight x = SideMenuItem.weight y) as -> by lia.
    by rewrite Z.ltb_irrefl.
  - destruct (Z.ltb_spec (- SideMenuItem.weight y) (- SideMenuItem.weight x));
      destruct (Z.ltb_spec (SideMenuItem.weight x) (SideMenuItem.weight y));
      destruct (Z.ltb_spec (SideMenuItem.weight y) (SideMenuItem.weight x));
      simpl; try done; lia.
Qed.

Lemma menu_before_ranking : Ranking menu_before.
Proof.
  eapply ranking_ext; [intros x y; symmetry; apply menu_before_lex|].
  apply lex_before_ranking.
  - apply (ranking_reversed (fun y x => SideMenuItem.weight y <? SideMenuItem.weight x)).
    apply (ranking_on_key Z.ltb SideMenuItem.weight), Z_ltb_ranking.
  - apply (ranking_on_key String.ltb SideMenuItem.title), str_ltb_ranking.
Qed.

Lemma menu_before_false y x :
  menu_before x y = false →
  SideMenuItem.weight x ≤ SideMenuItem.weight y
  ∧ (SideMenuItem.weight x = SideMenuItem.weight y →
     String.ltb (SideMenuItem.title x) (SideMenuItem.title y) = false).
Proof.
  unfold menu_before, menu_key_lt, menu_sort_key. simpl.
  destruct (Z.eqb_spec (- SideMenuItem.weight x) (- SideMenuItem.weight y)) as [Heq|Hne];
    simpl.
  - intros Ht. split; [lia|done].
  - rewrite Z.ltb_ge. intros Hw. split; [lia|]. intros Heq. lia.
Qed.

Section MenuMore.
Context {EditableType Json : Type}.
Variable EditableType_members : list EditableType.
Variable EditableType_name : EditableType -> string.
Variable editor_permission : EditableType -> string.
Variable dump : SideMenuItem.t -> Json.
Variable can_manage : string -> bool.

Lemma show_editable_list_lookup (manager : bool) members (d : gmap string bool) et :
NoDup (EditableType_name <$> members) → et ∈ members →
foldl (fun (d : gmap string bool) et =>
         <[EditableType_name et := manager || can_manage (editor_permission et)]> d)
      d members !! EditableType_name et
= Some (manager || can_manage (editor_permission et)).
Proof.
revert d. induction members as [|et' members IH]; intros d Hnd Hin; csimpl in *.
- by apply elem_of_nil in Hin.
- apply NoDup_cons in Hnd as [Hfresh Hnd].
  apply elem_of_cons in Hin as [->|Hin]; [|by apply IH].
  clear IH. revert d. induction members as [|et2 members IH]; intros d; csimpl in *.
  + by rewrite lookup_insert_eq.
  + apply not_elem_of_cons in Hfresh as [Hne Hfresh].
    apply NoDup_cons in Hnd as [_ Hnd].
    rewrite insert_insert_ne by done. by apply IH.
Qed.

Lemma show_editable_list_keys (manager : bool) members (d : gmap string bool) k :
is_Some (foldl (fun (d : gmap string bool) et =>
                  <[EditableType_name et := manager || can_manage (editor_permission et)]> d)
               d members !! k)
↔ is_Some (d !! k) ∨ ∃ et, et ∈ members ∧ EditableType_name et = k.
Proof.
revert d. induction members as [|et members IH]; intros d; simpl.
- split; [by left|]. intros [?|(et & Hin & _)]; [done|]. by apply elem_of_nil in Hin.
- rewrite IH. destruct (decide (EditableType_name et = k)) as [Hk|Hk].
  + rewrite Hk, lookup_insert_eq. split; [|by eauto].
    intros _. right. exists et. split; [apply list_elem_of_here|done].
  + rewrite lookup_insert_ne by done. split.
    * intros [?|(et' & Hin & Hk')]; [by left|]. right. exists et'.
      split; [by apply list_elem_of_further|done].
    * intros [?|(et' & Hin & Hk')]; [by left|].
      apply elem_of_cons in Hin as [->|Hin]; [done|]. right. by exists et'.
Qed.
End MenuMore.

(** X25.  The menu items of the answer are the items the signal
    returned, each once, heaviest first and, among items of one
    weight, by title. *)
Theorem menu_entries_ordered {EditableType Json : Type} members type_name
    (permission : EditableType -> string) (dump : SideMenuItem.t -> Json) can_manage
    signal_values :
  ∃ menu_entries,
    menu_items (RHMenuEntries._process members type_name permission dump can_manage
                  signal_values) = dump <$> menu_entries
    ∧ menu_entries ≡ₚ signal_values
    ∧ StronglySorted
        (fun y x => SideMenuItem.weight x ≤ SideMenuItem.weight y
                    ∧ (SideMenuItem.weight x = SideMenuItem.weight y →
                       String.ltb (SideMenuItem.title x) (SideMenuItem.title y) = false))
        menu_entries.
Proof.
  exists (stable_sort menu_before signal_values).
  split; [done|]. split; [apply stable_sort_perm|].
  eapply strongly_sorted_impl; [|apply stable_sort_sorted, menu_before_ranking].
  intros y x. apply menu_before_false.
Qed.

(** X26.  The answer has one flag per editable type (the names of the
    types being distinct) and no other: the flag of a type is set when
    the management link is shown or the user holds the editor
    permission of that type.  So an editing manager is shown every
    list. *)
Theorem menu_editable_lists {EditableType Json : Type} (members : list EditableType)
    type_name permission (dump : SideMenuItem.t -> Json) can_manage signal_values :
  NoDup (type_name <$> members) →
  let answer :=
    RHMenuEntries._process members type_name permission dump can_manage signal_values in
  (∀ et, et ∈ members →
         show_editable_list answer !! type_name et
         = Some (show_management_link answer || can_manage (permission et)))
  ∧ (∀ k, is_Some (show_editable_list answer !! k) ↔ ∃ et, et ∈ members ∧ type_name et = k).
Proof.
  intros Hnd answer. split.
  - intros et Hin. by apply show_editable_list_lookup.
  - intros k. unfold answer, RHMenuEntries._process. simpl.
    rewrite show_editable_list_keys, lookup_empty. split; [|by right].
    intros [[? [=]]|?]; done.
Qed.

Lemma menu_editable_lists_witness :
  show_editable_list
    (RHMenuEntries._process [sample_paper; sample_slides; sample_poster]
       sample_type_name sample_editor_permission SideMenuItem.name paper_editor sample_menu)
  !! sample_type_name sample_slides
  = Some (false || paper_editor (sample_editor_permission sample_slides)).
Proof.
  apply (menu_editable_lists [sample_paper; sample_slides; sample_poster]
           sample_type_name sample_editor_permission SideMenuItem.name paper_editor
           sample_menu).
  - apply (bool_decide_unpack _). vm_compute. exact I.
  - apply list_elem_of_further, list_elem_of_here.
Defined.

(** * Cloning of minutes *)


Section ClonerMore.
Context {Db Note : Type} `{EqDecision Note}.
Variable get_or_create : LinkedObject -> Db -> Note * Db.
Variable note_is_deleted : Note -> Db -> bool.
Variable create_revision : Note -> EventNoteRevision.t -> Db -> Db.
Variable old_event : NotedEvent.
Implicit Types (s : NoteCloner.state (Db := Db) (Note := Note)) (n : EventNote.t).

Lemma clone_note_maps n new_object s :
NoteCloner._clone_nested_notes
  (NoteCloner._clone_note get_or_create note_is_deleted create_revision n new_object s)
= NoteCloner._clone_nested_notes s
∧ NoteCloner._session_map
    (NoteCloner._clone_note get_or_create note_is_deleted create_revision n new_object s)
  = NoteCloner._session_map s
∧ NoteCloner._contrib_map
    (NoteCloner._clone_note get_or_create note_is_deleted create_revision n new_object s)
  = NoteCloner._contrib_map s
∧ NoteCloner._subcontrib_map
    (NoteCloner._clone_note get_or_create note_is_deleted create_revision n new_object s)
  = NoteCloner._subcontrib_map s.
Proof.
unfold NoteCloner._clone_note.
by destruct (get_or_create new_object (NoteCloner.db s)) as [note db1].
Qed.


Lemma mapped_object_ext s s' obj :
NoteCloner._session_map s = NoteCloner._session_map s' →
NoteCloner._contrib_map s = NoteCloner._contrib_map s' →
NoteCloner._subcontrib_map s = NoteCloner._subcontrib_map s' →
NoteCloner.mapped_object s obj = NoteCloner.mapped_object s' obj.
Proof. intros Hs Hc Hsc. unfold NoteCloner.mapped_object. by rewrite Hs, Hc, Hsc. Qed.

(** The loop over the nested notes fails exactly when it reaches a note
  that is not skipped and has no mapped object. *)
Lemma clone_loop_none (l : list EventNote.t) s :
for_each_option
  (fun s old_note =>
     if NoteCloner.skipped_note old_note then Some s
     else
       new_object ← NoteCloner.mapped_object s (EventNote.object old_note);
       Some (NoteCloner._clone_note get_or_create note_is_deleted create_revision
               old_note new_object s))
  l s = None
↔ ∃ n, n ∈ l ∧ NoteCloner.skipped_note n = false
       ∧ NoteCloner.mapped_object s (EventNote.object n) = None.
Proof.
revert s. induction l as [|n l IH]; intros s; cbn [for_each_option].
- split; [done|]. intros (n & Hin & _). by apply elem_of_nil in Hin.
- destruct (NoteCloner.skipped_note n) eqn:Hskip; simpl.
  + rewrite IH. split; intros (n' & Hin & Hs & Hm); exists n'.
    * split; [by apply list_elem_of_further|done].
    * apply elem_of_cons in Hin as [->|Hin]; [congruence|done].
  + destruct (NoteCloner.mapped_object s (EventNote.object n)) as [new_object|] eqn:Hmap;
      simpl.
    * rewrite IH.
      destruct (clone_note_maps n new_object s) as (_ & Hs1 & Hs2 & Hs3).
      split; intros (n' & Hin & Hs & Hm); exists n'.
      -- split; [by apply list_elem_of_further|]. split; [done|].
         rewrite <- Hm. symmetry. by apply mapped_object_ext.
      -- apply elem_of_cons in Hin as [->|Hin]; [congruence|].
         split; [done|]. split; [done|].
         rewrite <- Hm. by apply mapped_object_ext.
    * split; [|done]. intros _. exists n. split; [apply list_elem_of_here|done].
Qed.


Lemma elem_of_query_notes n :
n ∈ NoteCloner._query_notes old_event
↔ n ∈ all_notes old_event ∧ EventNote.is_deleted n = false
  ∧ EventNote.link_type n ≠ LinkType.event.
Proof.
unfold NoteCloner._query_notes.
rewrite list_elem_of_In, filter_In, <- list_elem_of_In.
rewrite andb_true_iff, negb_true_iff, bool_decide_eq_true.
rewrite !elem_of_cons, elem_of_nil.
destruct (EventNote.link_type n); intuition congruence.
Qed.
End ClonerMore.

(** X27.  [run] ends with a [KeyError] exactly when both the sessions
    and the contributions are cloned as well and the old event has a
    note that is not deleted, belongs to an object that is not deleted
    (for a subcontribution: nor its contribution), and that object has
    no clone in the shared map of its kind.  Without the two other
    cloners it cannot fail. *)
Theorem note_cloner_run_key_error {Db Note : Type} `{EqDecision Note}
    (get_or_create : LinkedObject -> Db -> Note * Db) note_is_deleted create_revision
    old_event new_event (cloners : gset string) shared_data event_exists (db0 : Db) :
  NoteCloner.run get_or_create note_is_deleted create_revision old_event new_event cloners
    shared_data event_exists db0 = None
  ↔ ({["sessions"; "contributions"]} : gset string) ⊆ cloners
    ∧ ∃ n, n ∈ all_notes old_event
           ∧ EventNote.is_deleted n = false
           ∧ NoteCloner.skipped_note n = false
           ∧ missing_clone shared_data (EventNote.object n).
Proof.
  unfold NoteCloner.run, NoteCloner._clone_notes.
  destruct (decide (({["sessions"; "contributions"]} : gset string) ⊆ cloners))
    as [Hsub|Hsub].
  - rewrite !bool_decide_true by done.
    set (s0 := {| NoteCloner._clone_nested_notes := true |}).
    set (s1 := match note old_event with Some n => _ | None => s0 end).
    assert (NoteCloner._clone_nested_notes s1 = true
            ∧ NoteCloner._session_map s1 = Some (session_map shared_data)
            ∧ NoteCloner._contrib_map s1 = Some (contrib_map shared_data)
            ∧ NoteCloner._subcontrib_map s1 = Some (subcontrib_map shared_data))
      as (Hnested & Hs & Hc & Hsc).
    { unfold s1. destruct (note old_event); [|done].
      destruct (clone_note_maps get_or_create note_is_deleted create_revision t
                  (LinkedEvent new_event) s0) as (-> & -> & -> & ->). done. }
    rewrite Hnested.
    assert (∀ obj, NoteCloner.mapped_object s1 obj = None
                   ↔ match obj with
                     | LinkedEvent _ => True
                     | _ => missing_clone shared_data obj
                     end) as Hmapped.
    { intros obj. unfold NoteCloner.mapped_object. rewrite Hs, Hc, Hsc. simpl.
      destruct obj; simpl; [done|..];
        match goal with
        | |- context [?m !! ?k] => by destruct (m !! k)
        end. }
    destruct (for_each_option _ _ s1) as [s2|] eqn:Hloop; simpl.
    + split; [done|]. intros (_ & n & Hin & Hdel & Hskip & Hmiss). exfalso.
      assert (for_each_option
                (fun s old_note =>
                   if NoteCloner.skipped_note old_note then Some s
                   else
                     new_object ← NoteCloner.mapped_object s (EventNote.object old_note);
                     Some (NoteCloner._clone_note get_or_create note_is_deleted
                             create_revision old_note new_object s))
                (NoteCloner._query_notes old_event) s1 = None) as Hnone; [|congruence].
      apply clone_loop_none. exists n. split; [|split; [done|]].
      * apply elem_of_query_notes. split; [done|]. split; [done|].
        unfold EventNote.link_type. by destruct (EventNote.object n).
      * apply Hmapped. by destruct (EventNote.object n).
    + split; [|done]. intros _. split; [done|].
      apply clone_loop_none in Hloop as (n & Hin & Hskip & Hmap).
      apply elem_of_query_notes in Hin as (Hin & Hdel & Hlink).
      exists n. split; [done|]. split; [done|]. split; [done|].
      apply Hmapped in Hmap. unfold EventNote.link_type in Hlink.
      by destruct (EventNote.object n).
  - rewrite !bool_decide_false by done.
    destruct (note old_event); simpl.
    + destruct (clone_note_maps get_or_create note_is_deleted create_revision t
                  (LinkedEvent new_event)
                  {| NoteCloner._clone_nested_notes := false;
                     NoteCloner._session_map := None;
                     NoteCloner._contrib_map := None;
                     NoteCloner._subcontrib_map := None;
                     NoteCloner._note_map := [];
                     NoteCloner._restored_notes := [];
                     NoteCloner.db := db0 |}) as (-> & _). simpl.
      split; [done|]. by intros [? _].
    + split; [done|]. by intros [? _].
Qed.


